(** * Akhand Jyoti archive harvester: a shallow embedding and its properties

    The repository holds two scripts that harvest the same periodical
    archive:

    - [final_scrapping.py], a sequential harvester (module [Final] below);
    - [gpu_optimised.py], a thread-pool harvester with a retrying
      [RequestManager] (module [Gpu] below).

    Python values are embedded as follows.  A [str] is the [string] of its
    UTF-8 bytes ([len] and [int] read characters; [lower] and [strip] act
    on the ASCII range), a [dict] with string keys is a [gmap string _],
    [None] is
    [None] of an option type, an exception raised by a library call is a
    [None] result or an [Err] outcome.  The third-party libraries
    ([requests], [bs4], [urllib]) are not part of the repository: a parsed
    HTML document is a record that answers the queries the scripts make of
    it, the remote server is a function from the requested URL and the
    number of requests issued so far to an outcome, and the local file
    system is a finite map from paths to contents. *)

From Stdlib Require Import ZArith String Ascii List Lia Bool Sorted.
From stdpp Require Import gmap strings list fin_maps pretty.

Local Open Scope string_scope.

(** ** Python string primitives used by the scripts *)

Module Py.

(** [x in s] on strings: does [s] contain [x] as a contiguous slice. *)
Fixpoint contains (x s : string) : bool :=
  if String.prefix x s then true
  else match s with
       | EmptyString => false
       | String _ s' => contains x s'
       end.

(** [s.lower()] on ASCII. *)
Definition lower_ascii (c : ascii) : ascii :=
  let n := nat_of_ascii c in
  if (65 <=? n)%nat && (n <=? 90)%nat then ascii_of_nat (n + 32) else c.

Fixpoint lower (s : string) : string :=
  match s with
  | EmptyString => EmptyString
  | String c s' => String (lower_ascii c) (lower s')
  end.

(** [s[n:]]. *)
Fixpoint drop_chars (n : nat) (s : string) : string :=
  match n, s with
  | O, _ => s
  | S _, EmptyString => EmptyString
  | S n', String _ s' => drop_chars n' s'
  end.

(** [s.replace(old, new)] for a non-empty [old]: occurrences are replaced
    from left to right and do not overlap.  The fuel is the length of the
    text still to be scanned. *)
Fixpoint replace_go (fuel : nat) (old new s : string) : string :=
  match fuel with
  | O => s
  | S fuel' =>
      match s with
      | EmptyString => EmptyString
      | String c s' =>
          if String.prefix old s
          then new +:+ replace_go (fuel' - (String.length old - 1))
                         old new (drop_chars (String.length old) s)
          else String c (replace_go fuel' old new s')
      end
  end.

Definition replace (old new s : string) : string :=
  replace_go (String.length s) old new s.

(** Whitespace that [str.strip()] removes (ASCII range). *)
Definition is_space (c : ascii) : bool :=
  let n := nat_of_ascii c in
  ((9 <=? n)%nat && (n <=? 13)%nat) || ((28 <=? n)%nat && (n <=? 32)%nat).

Fixpoint lstrip (s : string) : string :=
  match s with
  | EmptyString => EmptyString
  | String c s' => if is_space c then lstrip s' else s
  end.

(** Drops trailing whitespace: a character is kept when something that is
    not whitespace follows it, or when it is not whitespace itself. *)
Fixpoint rstrip (s : string) : string :=
  match s with
  | EmptyString => EmptyString
  | String c s' =>
      match rstrip s' with
      | EmptyString => if is_space c then EmptyString else String c EmptyString
      | r => String c r
      end
  end.

Definition strip (s : string) : string := rstrip (lstrip s).

Definition is_digit (c : ascii) : bool :=
  let n := nat_of_ascii c in (48 <=? n)%nat && (n <=? 57)%nat.

Definition digit_val (c : ascii) : Z := Z.of_nat (nat_of_ascii c - 48).

(** The digits of a decimal literal: at least one digit, single underscores
    allowed between digits only. *)
Fixpoint int_digits (s : string) (acc : Z) (after_digit : bool) : option Z :=
  match s with
  | EmptyString => if after_digit then Some acc else None
  | String c s' =>
      if is_digit c then int_digits s' (10 * acc + digit_val c) true
      else if Ascii.eqb c "_" && after_digit then int_digits s' acc false
      else None
  end.

(** A text is held as its UTF-8 bytes.  A byte that continues a
    character. *)
Definition is_continuation (c : ascii) : bool :=
  let n := nat_of_ascii c in (128 <=? n)%nat && (n <=? 191)%nat.

(** [len(s)]: the number of characters. *)
Fixpoint len (s : string) : nat :=
  match s with
  | EmptyString => O
  | String c s' => if is_continuation c then len s' else S (len s')
  end.

Definition continuation_bits (c : ascii) : option N :=
  if is_continuation c then Some (N.of_nat (nat_of_ascii c) - 128)%N else None.

(** The code point of the character that begins a text, and what follows
    it; [None] when the bytes are no UTF-8. *)
Definition next_char (s : string) : option (N * string) :=
  match s with
  | EmptyString => None
  | String c s1 =>
      let n := N.of_nat (nat_of_ascii c) in
      if (n <? 128)%N then Some (n, s1)
      else if (192 <=? n)%N && (n <? 224)%N then
        match s1 with
        | String c1 s2 =>
            match continuation_bits c1 with
            | Some b1 => Some (((n - 192) * 64 + b1)%N, s2)
            | None => None
            end
        | EmptyString => None
        end
      else if (224 <=? n)%N && (n <? 240)%N then
        match s1 with
        | String c1 (String c2 s3) =>
            match continuation_bits c1, continuation_bits c2 with
            | Some b1, Some b2 => Some ((((n - 224) * 64 + b1) * 64 + b2)%N, s3)
            | _, _ => None
            end
        | _ => None
        end
      else if (240 <=? n)%N && (n <? 248)%N then
        match s1 with
        | String c1 (String c2 (String c3 s4)) =>
            match continuation_bits c1, continuation_bits c2, continuation_bits c3 with
            | Some b1, Some b2, Some b3 =>
                Some (((((n - 240) * 64 + b1) * 64 + b2) * 64 + b3)%N, s4)
            | _, _, _ => None
            end
        | _ => None
        end
      else None
  end.

(** The characters beyond ASCII that count as whitespace. *)
Definition unicode_spaces : list N :=
  [133; 160; 5760; 8192; 8193; 8194; 8195; 8196; 8197; 8198;
   8199; 8200; 8201; 8202; 8232; 8233; 8239; 8287; 12288]%N.

(** The zero of every run of ten decimal digits beyond ASCII (Unicode 14,
    the table of the interpreters 3.10 and 3.11). *)
Definition decimal_zeros : list N :=
  [1632; 1776; 1984; 2406; 2534; 2662; 2790; 2918; 3046; 3174;
   3302; 3430; 3558; 3664; 3792; 3872; 4160; 4240; 6112; 6160;
   6470; 6608; 6784; 6800; 6992; 7088; 7232; 7248; 42528; 43216;
   43264; 43472; 43504; 43600; 44016; 65296; 66720; 68912; 69734; 69872;
   69942; 70096; 70384; 70736; 70864; 71248; 71360; 71472; 71904; 72016;
   72784; 73040; 73120; 92768; 92864; 93008; 120782; 120792; 120802; 120812;
   120822; 123200; 123632; 125264; 130032]%N.

(** What [int()] makes of one character before it parses: a character
    below 127 stays, whitespace beyond ASCII becomes a space, a decimal
    digit of any script becomes the ASCII digit, and anything else makes
    the text no number. *)
Definition ascii_of_char (cp : N) : option ascii :=
  if (cp <? 127)%N then Some (ascii_of_N cp)
  else if existsb (N.eqb cp) unicode_spaces then Some " "%char
  else match List.find (fun z => (z <=? cp)%N && (cp <? z + 10)%N) decimal_zeros with
       | Some z => Some (ascii_of_N (48 + (cp - z)))
       | None => None
       end.

Fixpoint ascii_decimal_go (fuel : nat) (s : string) : option string :=
  match s with
  | EmptyString => Some EmptyString
  | _ =>
      match fuel with
      | O => None
      | S fuel' =>
          match next_char s with
          | Some (cp, rest) =>
              match ascii_of_char cp, ascii_decimal_go fuel' rest with
              | Some a, Some r => Some (String a r)
              | _, _ => None
              end
          | None => None
          end
      end
  end.

Definition ascii_decimal (s : string) : option string :=
  ascii_decimal_go (String.length s) s.

(** The whitespace [int()] skips at both ends of the text it parses. *)
Definition is_int_space (c : ascii) : bool :=
  let n := nat_of_ascii c in ((9 <=? n)%nat && (n <=? 13)%nat) || (n =? 32)%nat.

Fixpoint int_lstrip (s : string) : string :=
  match s with
  | EmptyString => EmptyString
  | String c s' => if is_int_space c then int_lstrip s' else s
  end.

Fixpoint int_rstrip (s : string) : string :=
  match s with
  | EmptyString => EmptyString
  | String c s' =>
      match int_rstrip s' with
      | EmptyString => if is_int_space c then EmptyString else String c EmptyString
      | r => String c r
      end
  end.

(** [int(s)] for a [str] in base 10; [None] stands for [ValueError].
    (The interpreter's optional limit on the number of digits is not
    modelled.) *)
Definition int (s : string) : option Z :=
  match ascii_decimal s with
  | None => None
  | Some a =>
      match int_rstrip (int_lstrip a) with
      | String "+" s' => int_digits s' 0 false
      | String "-" s' => Z.opp <$> int_digits s' 0 false
      | s' => int_digits s' 0 false
      end
  end.

(** [str(n)] and the format specifiers [{n:02d}], [{n:03d}] for [n >= 0]. *)
Definition str (n : nat) : string := pretty n.

Fixpoint zeros (n : nat) : string :=
  match n with
  | O => EmptyString
  | S n' => String "0" (zeros n')
  end.

Definition zfill (width : nat) (n : nat) : string :=
  let s := str n in zeros (width - String.length s) +:+ s.

(** [re.sub(r'\n{3,}', '\n\n', text)]: a maximal run of three or more line
    feeds becomes two; shorter runs are kept.  [run] counts the line feeds
    seen immediately before the current position. *)
Definition nl : ascii := ascii_of_nat 10.

Fixpoint newlines (n : nat) : string :=
  match n with
  | O => EmptyString
  | S n' => String nl (newlines n')
  end.

Definition flush_run (run : nat) : string :=
  if (3 <=? run)%nat then newlines 2 else newlines run.

Fixpoint collapse_go (s : string) (run : nat) : string :=
  match s with
  | EmptyString => flush_run run
  | String c s' =>
      if Ascii.eqb c nl then collapse_go s' (S run)
      else flush_run run +:+ String c (collapse_go s' 0)
  end.

Definition collapse_newlines (s : string) : string := collapse_go s 0.

(** [os.path.join(d, name)] for a relative [name]. *)
Fixpoint ends_with_slash (s : string) : bool :=
  match s with
  | EmptyString => false
  | String c EmptyString => Ascii.eqb c "/"
  | String _ s' => ends_with_slash s'
  end.

Definition path_join (d name : string) : string :=
  if String.eqb d "" then name
  else if ends_with_slash d then d +:+ name
  else d +:+ "/" +:+ name.

End Py.

(** ** The outside world: documents, responses, the server, events *)

(** What [bs4] reports about an element the text job looks at. *)
Record Tag := mkTag {
  stripped_text : string;   (* tag.get_text(strip=True) *)
  separated_text : string   (* tag.get_text(separator='\n\n') *)
}.

(** The attributes of an [<img>], [<frame>] or [<iframe>] element
    ([tag.attrs]); the attributes read here are single-valued. *)
Abbreviation Attrs := (gmap string string).

(** A parsed page, [BeautifulSoup(response.text, 'html.parser')], as the
    answers to the queries the scripts make. *)
Record Soup := mkSoup {
  select_one : string -> option Tag;        (* soup.select_one(selector) *)
  text_blocks : list Tag;                   (* soup.find_all(['div','article','section']) *)
  imgs : list Attrs;                        (* soup.find_all('img') *)
  frames : list Attrs;                      (* soup.find_all(['frame','iframe']) *)
  pagination : option (list string)         (* the texts of the <a> elements inside
                                               soup.find(class_='pagination') or
                                               soup.find(id='pagination') *)
}.

Record Response := mkResponse {
  status_code : Z;
  headers : gmap string string;
  body : Soup;        (* the parse of response.text *)
  content : string    (* response.content *)
}.

(** What one [GET] yields: a response, or an exception (connection error,
    timeout). *)
Inductive Outcome :=
| Resp (r : Response)
| Err.

(** Why the process sleeps; the label is a ghost annotation. *)
Inductive SleepKind := Pause | Throttle | RateLimit | Backoff.

(** Observable events: a request sent, a sleep, a file written in full.
    Durations are in milliseconds. *)
Inductive Event :=
| EvGet (url : string)
| EvSleep (k : SleepKind) (ms : Z)
| EvSave (path data : string).

Definition is_get (e : Event) : bool :=
  match e with EvGet _ => true | _ => false end.

(** Number of requests in a trace. *)
Definition gets (t : list Event) : nat := length (List.filter is_get t).

(** The server answers by URL and by how many requests were issued before. *)
Abbreviation Server := (string -> nat -> Outcome).

(** Python truthiness of an optional string ([None] and [''] are falsy). *)
Definition truthy (o : option string) : bool :=
  match o with
  | Some s => negb (String.eqb s "")
  | None => false
  end.

(** The local file system: path to content. *)
Abbreviation Files := (gmap string string).

(** [open(path, 'w')]: the file exists and is empty from here on. *)
Definition open_w (path : string) (fs : Files) : Files := <[path := ""]> fs.

(** One [write] reaching the file: the chunk is appended. *)
Definition append_chunk (path chunk : string) (fs : Files) : Files :=
  alter (fun c => c +:+ chunk) path fs.

(** The file-system states an observer (or an interruption) can see while
    [chunks] are written to an opened file, the last one being the state
    after the final chunk. *)
Fixpoint write_states (path : string) (chunks : list string) (fs : Files) : list Files :=
  fs :: match chunks with
        | [] => []
        | c :: cs => write_states path cs (append_chunk path c fs)
        end.

(** [with open(path, 'w') as f: f.write(...)], step by step: the state
    before [open], the state after [open], the states after each chunk. *)
Definition save_states (path : string) (chunks : list string) (fs : Files) : list Files :=
  fs :: write_states path chunks (open_w path fs).

(** The same statement run to completion. *)
Definition write_file (path data : string) (fs : Files) : Files := <[path := data]> fs.

(** The month record of the progress metadata. *)
Record MonthMetadata := mkMonthMetadata {
  md_year : nat;
  md_month : string;
  has_text : bool;
  has_scan : bool;
  text_source : option string;
  scan_source : option string
}.

(** The links of one month as [get_month_links] reports them. *)
Record Versions := mkVersions {
  v_scan : option string;   (* versions.get('scan') *)
  v_text : option string    (* versions.get('text') *)
}.

(** [metadata]: year (as text) to month name to record. *)
Abbreviation Metadata := (gmap string (gmap string MonthMetadata)).

(** ** Stateful code: a state monad over the world *)

Definition M (W A : Type) : Type := W -> A * W.

Definition ret {W A : Type} (a : A) : M W A := fun w => (a, w).

Definition bind {W A B : Type} (m : M W A) (k : A -> M W B) : M W B :=
  fun w => let (a, w') := m w in k a w'.

Notation "'let*' x ':=' m 'in' k" := (bind m (fun x => k))
  (at level 10, x pattern, m at level 100, k at level 200).

(** ** Regular expressions of the scripts, as matchers *)

Module Re.

Fixpoint take_digits (s : string) : string :=
  match s with
  | EmptyString => EmptyString
  | String c s' => if Py.is_digit c then String c (take_digits s') else EmptyString
  end.

(** [/v\d+] anchored at the start of [s], digits taken greedily. *)
Definition slash_v_digits (s : string) : option string :=
  match s with
  | String c0 (String c1 (String d rest)) =>
      if Ascii.eqb c0 "/" && Ascii.eqb c1 "v" && Py.is_digit d
      then Some ("/v" +:+ String d (take_digits rest)) else None
  | _ => None
  end.

(** [(.*/v\d+)] anchored at the start of [s]: [.] takes any character but a
    line feed and [.*] is greedy, so the longer alternative is tried first. *)
Fixpoint versioned_here (s : string) : option string :=
  match s with
  | EmptyString => None
  | String c s' =>
      match (if Ascii.eqb c Py.nl then None else versioned_here s') with
      | Some m => Some (String c m)
      | None => slash_v_digits s
      end
  end.

(** [re.search(r'(.*/v\d+)', s)] and its [group(1)]: the leftmost start
    wins. *)
Fixpoint search_versioned (s : string) : option string :=
  match versioned_here s with
  | Some m => Some m
  | None => match s with
            | EmptyString => None
            | String _ s' => search_versioned s'
            end
  end.

(** [\d+$] anchored at the start of [s]: [$] matches at the end and just
    before a final line feed. *)
Fixpoint digits_to_end (s : string) : option string :=
  match s with
  | EmptyString => None
  | String c s' =>
      if Py.is_digit c then
        match digits_to_end s' with
        | Some m => Some (String c m)
        | None =>
            match s' with
            | EmptyString => Some (String c EmptyString)
            | String c' EmptyString =>
                if Ascii.eqb c' Py.nl then Some (String c EmptyString) else None
            | _ => None
            end
        end
      else None
  end.

(** [re.search(r'\.(\d+)$', s)] and its [group(1)]. *)
Fixpoint search_page_suffix (s : string) : option string :=
  match s with
  | EmptyString => None
  | String c s' =>
      match (if Ascii.eqb c "." then digits_to_end s' else None) with
      | Some m => Some m
      | None => search_page_suffix s'
      end
  end.

End Re.

(** ** Extraction heuristics shared by both scripts *)

(** [len(tag.get_text(strip=True)) > n]. *)
Definition text_longer (n : nat) (t : Tag) : bool :=
  (n <? Py.len (stripped_text t))%nat.

(** The selector loop
[[
    content = None
    for selector in selectors:
        content = soup.select_one(selector)
        if content and len(content.get_text(strip=True)) > 100:
            break
]]
    [content] is the loop's variable: when no selector breaks out, it holds
    what the last selector returned.  (A [bs4] tag is always truthy.) *)
Fixpoint select_content (soup : Soup) (selectors : list string)
    (content : option Tag) : option Tag :=
  match selectors with
  | [] => content
  | selector :: rest =>
      match select_one soup selector with
      | Some c => if text_longer 100 c then Some c
                  else select_content soup rest (Some c)
      | None => select_content soup rest None
      end
  end.

(** [max(blocks, key=len of stripped text)] continued from a current best:
    a later block replaces it only when strictly longer. *)
Fixpoint max_by_len (best : Tag) (blocks : list Tag) : Tag :=
  match blocks with
  | [] => best
  | t :: rest =>
      if (Py.len (stripped_text best) <? Py.len (stripped_text t))%nat
      then max_by_len t rest
      else max_by_len best rest
  end.

(** The fallback: the longest block of more than 500 characters. *)
Definition largest_block (soup : Soup) : option Tag :=
  match List.filter (text_longer 500) (text_blocks soup) with
  | [] => None
  | b :: bs => Some (max_by_len b bs)
  end.

(** The content of a page: selector loop, then [if not content:] fallback. *)
Definition find_content (selectors : list string) (soup : Soup) : option Tag :=
  match select_content soup selectors None with
  | Some c => Some c
  | None => largest_block soup
  end.

(** [text = content.get_text(separator='\n\n')] followed by the clean-up. *)
Definition clean_text (c : Tag) : string := Py.collapse_newlines (separated_text c).

(** [f"\n\n--- PAGE {n} ---\n\n"]. *)
Definition page_marker (n : string) : string :=
  Py.newlines 2 +:+ "--- PAGE " +:+ n +:+ " ---" +:+ Py.newlines 2.

(** [any(x in src.lower() for x in ['icon', 'logo', 'button', 'nav'])]. *)
Definition denylisted (src : string) : bool :=
  existsb (fun x => Py.contains x (Py.lower src)) ["icon"; "logo"; "button"; "nav"].

(** [int(v.replace('px', ''))]. *)
Definition parse_px (v : string) : option Z := Py.int (Py.replace "px" "" v).

(** The extension chosen from the declared content type. *)
Definition pick_ext (r : Response) : string :=
  let content_type := Py.lower (default "" (headers r !! "Content-Type")) in
  if Py.contains "png" content_type then "png"
  else if Py.contains "gif" content_type then "gif"
  else "jpg".

(** ** [final_scrapping.py]: the sequential harvester *)

Module Final.

Definition DELAY_AFTER_REQUESTS : nat := 3.
Definition DELAY_SECONDS : Z := 10.
Definition OUTPUT_DIR : string := "akhandjyoti_content".

(** The process state the script reads and writes. *)
Record World := mkWorld {
  server : Server;              (* the remote site *)
  trace : list Event;           (* what the process did so far, oldest first *)
  request_counter : nat;        (* the global request_counter *)
  files : Files                 (* the local file system *)
}.

Definition log (e : Event) : M World unit :=
  fun w => (tt, mkWorld (server w) (trace w ++ [e]) (request_counter w) (files w)).

(** [time.sleep(seconds)]. *)
Definition sleep (k : SleepKind) (seconds : Z) : M World unit :=
  log (EvSleep k (1000 * seconds)).

(** [requests.get(url, ...)]. *)
Definition http_get (url : string) : M World Outcome :=
  fun w => let o := server w url (gets (trace w)) in
           (o, mkWorld (server w) (trace w ++ [EvGet url]) (request_counter w) (files w)).

Definition bump_counter : M World nat :=
  fun w => let c := S (request_counter w) in
           (c, mkWorld (server w) (trace w) c (files w)).

(** [os.path.exists(path)]. *)
Definition exists_file (path : string) : M World bool :=
  fun w => (bool_decide (is_Some (files w !! path)), w).

(** [with open(path, 'w') as f: f.write(data)], run to completion. *)
Definition save (path data : string) : M World unit :=
  fun w => (tt, mkWorld (server w) (trace w ++ [EvSave path data]) (request_counter w)
                        (write_file path data (files w))).

(** [make_request(url)]: one attempt, no retry. *)
Definition make_request (url : string) : M World (option Response) :=
  let* c := bump_counter in
  let* _ := (if (c mod DELAY_AFTER_REQUESTS =? 0)%nat
             then sleep Pause DELAY_SECONDS else ret tt) in
  let* o := http_get url in
  match o with
  | Resp response =>
      if (status_code response =? 200)%Z then ret (Some response) else ret None
  | Err => ret None
  end.

(** [get_pagination_links(url, max_pages)]. *)
Definition get_pagination_links (url : string) (max_pages : nat) : list string :=
  match Re.search_versioned url with
  | None => [url]
  | Some base_url =>
      url :: map (fun page => base_url +:+ "." +:+ Py.str page) (seq 2 (max_pages - 1))
  end.

Definition content_selectors : list string :=
  ["div#contentArtcile"; "div.article-content"; "div.content"; "article"; "main"].

(** The page loop of [download_text_content]; [i] is the index that
    [enumerate] gives the head of [pages]. *)
Fixpoint text_pages (i : nat) (pages : list string)
    (all_text : string) (content_found : bool) : M World (string * bool) :=
  match pages with
  | [] => ret (all_text, content_found)
  | page_url :: rest =>
      let* response := make_request page_url in
      match response with
      | None => text_pages (S i) rest all_text content_found
      | Some r =>
          match find_content content_selectors (body r) with
          | None => text_pages (S i) rest all_text content_found
          | Some c =>
              text_pages (S i) rest
                (all_text +:+ page_marker (Py.str (i + 1)) +:+ clean_text c) true
          end
      end
  end.

(** [download_text_content(url, output_file)]. *)
Definition download_text_content (url output_file : string) : M World bool :=
  let page_urls := get_pagination_links url 3 in
  let* (all_text, content_found) := text_pages 0 page_urls "" false in
  if negb content_found then ret false
  else let* _ := save output_file all_text in ret true.

(** The size test of [download_scan_images]. *)
Definition is_large_image (img : Attrs) : bool :=
  match img !! "width", img !! "height" with
  | Some w, Some h =>
      match parse_px w with
      | None => true
      | Some width =>
          match parse_px h with
          | None => true
          | Some height => negb ((width <? 300)%Z || (height <? 300)%Z)
          end
      end
  | _, _ => true
  end.

Section WithUrljoin.

(** [urllib.parse.urljoin]. *)
Variable urljoin : string -> string -> string.

(** The loop over the images of one page; [i] is the index [enumerate]
    gives the head of [images]; the result is how many were saved. *)
Fixpoint page_images (output_dir page_url : string) (page_index i : nat)
    (images : list Attrs) : M World nat :=
  match images with
  | [] => ret 0%nat
  | img :: rest =>
      match img !! "src" with
      | None => page_images output_dir page_url page_index (S i) rest
      | Some src =>
          if denylisted src then page_images output_dir page_url page_index (S i) rest
          else if negb (is_large_image img)
          then page_images output_dir page_url page_index (S i) rest
          else
            let img_url := urljoin page_url src in
            let* img_response := make_request img_url in
            match img_response with
            | None => page_images output_dir page_url page_index (S i) rest
            | Some r =>
                let filename :=
                  Py.path_join output_dir
                    ("page_" +:+ Py.zfill 3 (page_index + 1) +:+ "img"
                       +:+ Py.zfill 3 (i + 1) +:+ "." +:+ pick_ext r) in
                let* _ := save filename (content r) in
                let* n := page_images output_dir page_url page_index (S i) rest in
                ret (S n)
            end
      end
  end.

(** The images of one frame document. *)
Fixpoint frame_images (output_dir frame_url : string) (page_index j k : nat)
    (images : list Attrs) : M World nat :=
  match images with
  | [] => ret 0%nat
  | img :: rest =>
      match img !! "src" with
      | None => frame_images output_dir frame_url page_index j (S k) rest
      | Some src =>
          let img_url := urljoin frame_url src in
          let* img_response := make_request img_url in
          match img_response with
          | None => frame_images output_dir frame_url page_index j (S k) rest
          | Some r =>
              let filename :=
                Py.path_join output_dir
                  ("page_" +:+ Py.zfill 3 (page_index + 1) +:+ "frame"
                     +:+ Py.zfill 2 (j + 1) +:+ "img" +:+ Py.zfill 2 (k + 1) +:+ ".jpg") in
              let* _ := save filename (content r) in
              let* n := frame_images output_dir frame_url page_index j (S k) rest in
              ret (S n)
          end
      end
  end.

(** The frame fallback of one page. *)
Fixpoint page_frames (output_dir page_url : string) (page_index j : nat)
    (frs : list Attrs) : M World nat :=
  match frs with
  | [] => ret 0%nat
  | frame :: rest =>
      match frame !! "src" with
      | None => page_frames output_dir page_url page_index (S j) rest
      | Some src =>
          let frame_url := urljoin page_url src in
          let* frame_response := make_request frame_url in
          match frame_response with
          | None => page_frames output_dir page_url page_index (S j) rest
          | Some r =>
              let* n := frame_images output_dir frame_url page_index j 0 (imgs (body r)) in
              let* m := page_frames output_dir page_url page_index (S j) rest in
              ret (n + m)%nat
          end
      end
  end.

(** One iteration of the page loop of [download_scan_images]. *)
Definition scan_page (output_dir page_url : string) (page_index : nat) : M World nat :=
  let* response := make_request page_url in
  match response with
  | None => ret 0%nat
  | Some r =>
      let* page_downloaded := page_images output_dir page_url page_index 0 (imgs (body r)) in
      if (page_downloaded =? 0)%nat
      then page_frames output_dir page_url page_index 0 (frames (body r))
      else ret page_downloaded
  end.

Fixpoint scan_pages (output_dir : string) (page_index : nat) (pages : list string)
    : M World nat :=
  match pages with
  | [] => ret 0%nat
  | page_url :: rest =>
      let* n := scan_page output_dir page_url page_index in
      let* m := scan_pages output_dir (S page_index) rest in
      ret (n + m)%nat
  end.

(** [download_scan_images(url, output_dir)]. *)
Definition download_scan_images (url output_dir : string) : M World bool :=
  let page_urls := get_pagination_links url 2 in
  let* total_downloaded := scan_pages output_dir 0 page_urls in
  ret (0 <? total_downloaded)%nat.

(** The paths [main] builds for a month. *)
Definition month_dir (year : nat) (month : string) : string :=
  Py.path_join (Py.path_join OUTPUT_DIR (Py.str year)) month.

Definition text_file (year : nat) (month : string) : string :=
  Py.path_join (month_dir year month) (month +:+ "_" +:+ Py.str year +:+ "_text.txt").

Definition scan_dir (year : nat) (month : string) : string :=
  Py.path_join (month_dir year month) "scanned_pages".

Definition metadata_file : string := Py.path_join OUTPUT_DIR "metadata.json".

(** The text part of the month body of [main]: the new [has_text],
    [text_source] and [text_downloaded]. *)
Definition month_text (year : nat) (month : string) (versions : Versions)
    : M World (bool * option string * bool) :=
  if truthy (v_text versions) then
    let* present := exists_file (text_file year month) in
    if present then ret (true, v_text versions, true)
    else
      let* success := download_text_content (default "" (v_text versions))
                        (text_file year month) in
      if success then ret (true, v_text versions, true)
      else ret (false, None, false)
  else ret (false, None, false).

(** The body of [for month, versions in months_data.items()] up to the
    record of the month. *)
Definition process_month (year : nat) (month : string) (versions : Versions)
    : M World MonthMetadata :=
  let* (has_text_, text_source_, text_downloaded) := month_text year month versions in
  if negb text_downloaded && truthy (v_scan versions) then
    let* success := download_scan_images (default "" (v_scan versions))
                      (scan_dir year month) in
    if success
    then ret (mkMonthMetadata year month has_text_ true text_source_ (v_scan versions))
    else ret (mkMonthMetadata year month has_text_ false text_source_ None)
  else ret (mkMonthMetadata year month has_text_ false text_source_ None).

(** [json.dumps(metadata, indent=2, ensure_ascii=False)]. *)
Variable dumps : Metadata -> string.

(** [metadata[str(year)][month] = month_metadata]. *)
Definition record_month (year : nat) (month : string) (m : MonthMetadata)
    (metadata : Metadata) : Metadata :=
  <[Py.str year := <[month := m]> (default ∅ (metadata !! Py.str year))]> metadata.

(** The whole body of the month loop: process, record, rewrite the file. *)
Definition month_body (year : nat) (metadata : Metadata)
    (entry : string * Versions) : M World Metadata :=
  let* m := process_month year entry.1 entry.2 in
  let metadata' := record_month year entry.1 m metadata in
  let* _ := save metadata_file (dumps metadata') in
  ret metadata'.

(** [for month, versions in months_data.items(): ...]. *)
Fixpoint month_loop (year : nat) (months_data : list (string * Versions))
    (metadata : Metadata) : M World Metadata :=
  match months_data with
  | [] => ret metadata
  | entry :: rest =>
      let* metadata' := month_body year metadata entry in
      month_loop year rest metadata'
  end.

End WithUrljoin.

End Final.

(** ** [gpu_optimised.py]: the thread-pool harvester *)

Module Gpu.

Definition OUTPUT_DIR : string := "akhandjyoti_content".
Definition MAX_CONCURRENT_REQUESTS : nat := 8.
Definition MIN_DELAY : Z := 500.              (* 0.5 s, in milliseconds *)
Definition MAX_RETRIES : nat := 3.
Definition SESSION_DURATION : Z := 300000.    (* 300 s, in milliseconds *)
Definition SESSION_REQUESTS : nat := 100.

(** The fields of [RequestManager] that [make_request] reads and writes.
    [PROXY_LIST] is empty, so [get_proxy] always answers [None]. *)
Record RequestManager := mkRM {
  last_request_time : Z;   (* milliseconds *)
  request_count : nat;
  session_start : Z;       (* milliseconds *)
  session_no : nat         (* how many sessions were opened by rotate_session *)
}.

Record World := mkWorld {
  server : Server;
  trace : list Event;
  clock : Z;                       (* time.time(), in milliseconds *)
  request_manager : RequestManager;
  files : Files
}.

Definition set_rm (f : RequestManager -> RequestManager) : M World unit :=
  fun w => (tt, mkWorld (server w) (trace w) (clock w) (f (request_manager w)) (files w)).

Definition get_rm : M World RequestManager := fun w => (request_manager w, w).

(** [time.time()]. *)
Definition now : M World Z := fun w => (clock w, w).

(** The process is suspended for [ms] milliseconds. *)
Definition sleep_ms (k : SleepKind) (ms : Z) : M World unit :=
  fun w => (tt, mkWorld (server w) (trace w ++ [EvSleep k ms]) (clock w + ms)
                        (request_manager w) (files w)).

(** [time.sleep] refuses a negative duration ([ValueError]) and one that
    does not fit the interpreter's 64-bit nanosecond time ([OverflowError]). *)
Definition SLEEP_MAX : Z := 9223372036.

Definition sleep_accepts (seconds : Z) : bool :=
  (0 <=? seconds)%Z && (seconds <=? SLEEP_MAX)%Z.

(** [time.sleep(seconds)] for an accepted duration. *)
Definition sleep (k : SleepKind) (seconds : Z) : M World unit :=
  sleep_ms k (1000 * seconds).

(** [self.session.get(url, ...)]. *)
Definition http_get (url : string) : M World Outcome :=
  fun w => let o := server w url (gets (trace w)) in
           (o, mkWorld (server w) (trace w ++ [EvGet url]) (clock w)
                       (request_manager w) (files w)).

Definition exists_file (path : string) : M World bool :=
  fun w => (bool_decide (is_Some (files w !! path)), w).

Definition save (path data : string) : M World unit :=
  fun w => (tt, mkWorld (server w) (trace w ++ [EvSave path data]) (clock w)
                        (request_manager w) (write_file path data (files w))).

(** [rotate_session]. *)
Definition rotate_session : M World unit :=
  let* t := now in
  set_rm (fun rm => mkRM (last_request_time rm) 0 t (S (session_no rm))).

(** [int(response.headers.get('Retry-After', 30))]; [None] is [ValueError]. *)
Definition retry_after (response : Response) : option Z :=
  match headers response !! "Retry-After" with
  | None => Some 30%Z
  | Some v => Py.int v
  end.

(** The handler [except Exception] and the [else] branch end alike:
    [time.sleep(2 ** attempt)]. *)
Definition backoff (attempt : nat) : M World unit := sleep Backoff (2 ^ Z.of_nat attempt).

(** [for attempt in range(MAX_RETRIES): ...] followed by [return None];
    [attempts] is what is left of the range. *)
Fixpoint retry_loop (url : string) (attempts : list nat) : M World (option Response) :=
  match attempts with
  | [] => ret None
  | attempt :: rest =>
      let* o := http_get url in
      match o with
      | Resp response =>
          if (status_code response =? 200)%Z then
            let* t := now in
            let* _ := set_rm (fun rm => mkRM t (S (request_count rm))
                                             (session_start rm) (session_no rm)) in
            ret (Some response)
          else if (status_code response =? 429)%Z then
            match retry_after response with
            | Some seconds =>
                if sleep_accepts seconds then
                  let* _ := sleep RateLimit seconds in   (* then: continue *)
                  retry_loop url rest
                else
                  let* _ := backoff attempt in            (* time.sleep raised *)
                  retry_loop url rest
            | None =>
                let* _ := backoff attempt in              (* int() raised *)
                retry_loop url rest
            end
          else
            let* _ := backoff attempt in
            retry_loop url rest
      | Err =>
          let* _ := backoff attempt in
          retry_loop url rest
      end
  end.

(** [RequestManager.make_request(url)]. *)
Definition make_request (url : string) : M World (option Response) :=
  let* t := now in
  let* rm := get_rm in
  let elapsed := (t - last_request_time rm)%Z in
  let* _ := (if (elapsed <? MIN_DELAY)%Z
             then sleep_ms Throttle (MIN_DELAY - elapsed) else ret tt) in
  let* t' := now in
  let* _ := (if (SESSION_DURATION <? t' - session_start rm)%Z
                || (SESSION_REQUESTS <=? request_count rm)%nat
             then rotate_session else ret tt) in
  retry_loop url (seq 0 MAX_RETRIES).

(** [s[:-2]]. *)
Fixpoint take_chars (n : nat) (s : string) : string :=
  match n, s with
  | O, _ => EmptyString
  | S _, EmptyString => EmptyString
  | S n', String c s' => String c (take_chars n' s')
  end.

Definition drop_last2 (s : string) : string := take_chars (String.length s - 2) s.

(** The scan of the pagination links for the highest page number. *)
Fixpoint max_detected (page_links : list string) (acc : Z) : Z :=
  match page_links with
  | [] => acc
  | link :: rest =>
      match Py.int link with
      | Some page_num =>
          if (acc <? page_num)%Z then max_detected rest page_num
          else max_detected rest acc
      | None => max_detected rest acc
      end
  end.

(** The page count used after looking at the first page. *)
Definition detect_max_pages (response : option Response) (max_pages : Z) : Z :=
  match response with
  | Some r =>
      match pagination (body r) with
      | Some page_links =>
          let d := max_detected page_links 0 in
          if (0 <? d)%Z then Z.min max_pages d else max_pages
      | None => max_pages
      end
  | None => max_pages
  end.

(** [f"{url}.{page}" if '.' not in url else f"{url[:-2]}.{page}"]. *)
Definition page_url_of (url : string) (page : nat) : string :=
  if negb (Py.contains "." url) then url +:+ "." +:+ Py.str page
  else drop_last2 url +:+ "." +:+ Py.str page.

(** [range(2, max_pages + 1)]. *)
Definition page_range (max_pages : Z) : list nat := seq 2 (Z.to_nat max_pages - 1).

(** [get_pagination_links(url, max_pages)]. *)
Definition get_pagination_links (url : string) (max_pages : Z) : M World (list string) :=
  let* response := make_request url in
  let max_pages' := detect_max_pages response max_pages in
  ret (url :: map (page_url_of url) (page_range max_pages')).

Definition content_selectors : list string :=
  ["div#contentArtcile"; "div.article-content"; "div.content";
   "article"; "main"; "div.post-content"; "div.entry-content"].

(** [process_text_page(page_url)]. *)
Definition process_text_page (page_url : string) : M World (option string) :=
  let* response := make_request page_url in
  match response with
  | None => ret None
  | Some r =>
      match find_content content_selectors (body r) with
      | None => ret None
      | Some c =>
          let page_num := default "1" (Re.search_page_suffix page_url) in
          ret (Some (page_marker page_num +:+ clean_text c))
      end
  end.

(** The loop over [as_completed(...)].  The pool's workers are run one
    after the other in the order in which they complete: [order] lists the
    indices of the submitted pages in completion order, a choice of the
    scheduler and the network. *)
Fixpoint text_results (page_urls : list string) (order : list nat)
    (all_text : string) (content_found : bool) : M World (string * bool) :=
  match order with
  | [] => ret (all_text, content_found)
  | i :: rest =>
      match page_urls !! i with
      | None => text_results page_urls rest all_text content_found
      | Some page_url =>
          let* page_text := process_text_page page_url in
          if truthy page_text
          then text_results page_urls rest (all_text +:+ default "" page_text) true
          else text_results page_urls rest all_text content_found
      end
  end.

(** [download_text_content(url, output_file)] under a completion order
    that may depend on the pages submitted. *)
Definition download_text_content (order : list string -> list nat)
    (url output_file : string) : M World bool :=
  let* page_urls := get_pagination_links url 36 in
  let* (all_text, content_found) := text_results page_urls (order page_urls) "" false in
  if negb content_found then ret false
  else let* _ := save output_file all_text in ret true.

(** The size test of [process_scan_page]: [true] when the image is skipped
    as small. *)
Definition is_small_image (img : Attrs) : bool :=
  let width := default "0" (img !! "width") in
  let height := default "0" (img !! "height") in
  match parse_px width with
  | None => false
  | Some w =>
      if (w <? 300)%Z then true
      else match parse_px height with
           | None => false
           | Some h => (h <? 300)%Z
           end
  end.

Section WithLibraries.

(** [urllib.parse.urljoin] and [hashlib.md5(s.encode()).hexdigest()[:8]]. *)
Variable urljoin : string -> string -> string.
Variable md5_hex8 : string -> string.

(** The image loop of [process_scan_page]. *)
Fixpoint page_images (output_dir page_url : string) (page_index : nat)
    (img_elements : list Attrs) : M World nat :=
  match img_elements with
  | [] => ret 0%nat
  | img :: rest =>
      match img !! "src" with
      | None => page_images output_dir page_url page_index rest
      | Some src =>
          if denylisted src then page_images output_dir page_url page_index rest
          else if is_small_image img then page_images output_dir page_url page_index rest
          else
            let img_url := urljoin page_url src in
            let* img_response := make_request img_url in
            match img_response with
            | None => page_images output_dir page_url page_index rest
            | Some r =>
                let filename :=
                  Py.path_join output_dir
                    ("page_" +:+ Py.zfill 3 (page_index + 1) +:+ "_"
                       +:+ md5_hex8 img_url +:+ "." +:+ pick_ext r) in
                let* _ := save filename (content r) in
                let* n := page_images output_dir page_url page_index rest in
                ret (S n)
            end
      end
  end.

(** [process_scan_page(page_url, page_index, output_dir)]. *)
Definition process_scan_page (page_url : string) (page_index : nat)
    (output_dir : string) : M World nat :=
  let* response := make_request page_url in
  match response with
  | None => ret 0%nat
  | Some r => page_images output_dir page_url page_index (imgs (body r))
  end.

(** The loop over [as_completed(futures)] when no worker raises; the
    handler around [future.result()] is in [GpuPool.scan_results]. *)
Fixpoint scan_results (output_dir : string) (page_urls : list string)
    (order : list nat) : M World nat :=
  match order with
  | [] => ret 0%nat
  | i :: rest =>
      match page_urls !! i with
      | None => scan_results output_dir page_urls rest
      | Some page_url =>
          let* n := process_scan_page page_url i output_dir in
          let* m := scan_results output_dir page_urls rest in
          ret (n + m)%nat
      end
  end.

(** [download_scan_images(url, output_dir)]. *)
Definition download_scan_images (order : list string -> list nat)
    (url output_dir : string) : M World bool :=
  let* page_urls := get_pagination_links url 66 in
  let* downloaded := scan_results output_dir page_urls (order page_urls) in
  ret (0 <? downloaded)%nat.

Definition month_dir (year : nat) (month : string) : string :=
  Py.path_join (Py.path_join OUTPUT_DIR (Py.str year)) month.

Definition text_file (year : nat) (month : string) : string :=
  Py.path_join (month_dir year month) (month +:+ "_" +:+ Py.str year +:+ "_text.txt").

Definition scan_dir (year : nat) (month : string) : string :=
  Py.path_join (month_dir year month) "scanned_pages".

Definition metadata_file : string := Py.path_join OUTPUT_DIR "metadata.json".

(** The text part of the month body of [main]. *)
Definition month_text (order : list string -> list nat) (year : nat) (month : string)
    (versions : Versions) : M World (bool * option string * bool) :=
  if truthy (v_text versions) then
    let* present := exists_file (text_file year month) in
    if negb present then
      let* success := download_text_content order (default "" (v_text versions))
                        (text_file year month) in
      if success then ret (true, v_text versions, true)
      else ret (false, None, false)
    else ret (true, v_text versions, true)
  else ret (false, None, false).

(** The month body of [main] up to the record of the month. *)
Definition process_month (order : list string -> list nat) (year : nat) (month : string)
    (versions : Versions) : M World MonthMetadata :=
  let* (has_text_, text_source_, text_downloaded) := month_text order year month versions in
  if negb text_downloaded && truthy (v_scan versions) then
    let* success := download_scan_images order (default "" (v_scan versions))
                      (scan_dir year month) in
    if success
    then ret (mkMonthMetadata year month has_text_ true text_source_ (v_scan versions))
    else ret (mkMonthMetadata year month has_text_ false text_source_ None)
  else ret (mkMonthMetadata year month has_text_ false text_source_ None).

(** [json.dumps(metadata, indent=2, ensure_ascii=False)]. *)
Variable dumps : Metadata -> string.

Definition record_month (year : nat) (month : string) (m : MonthMetadata)
    (metadata : Metadata) : Metadata :=
  <[Py.str year := <[month := m]> (default ∅ (metadata !! Py.str year))]> metadata.

(** The whole body of the month loop: process, record, rewrite the file. *)
Definition month_body (order : list string -> list nat) (year : nat)
    (metadata : Metadata) (entry : string * Versions) : M World Metadata :=
  let* m := process_month order year entry.1 entry.2 in
  let metadata' := record_month year entry.1 m metadata in
  let* _ := save metadata_file (dumps metadata') in
  ret metadata'.

End WithLibraries.

End Gpu.

(** ** Vocabulary of the properties *)

Local Open Scope list_scope.
Local Open Scope nat_scope.

(** A failure that is neither a success nor a rate limit: any status but
    200 and 429, or an exception. *)
Definition transient (o : Outcome) : Prop :=
  match o with
  | Err => True
  | Resp r => status_code r ≠ 200%Z ∧ status_code r ≠ 429%Z
  end.

(** The durations of the sleeps of one kind in a trace, oldest first. *)
Fixpoint sleeps (k : SleepKind) (t : list Event) : list Z :=
  match t with
  | [] => []
  | EvSleep k' ms :: t' =>
      match k, k' with
      | Pause, Pause | Throttle, Throttle | RateLimit, RateLimit | Backoff, Backoff =>
          ms :: sleeps k t'
      | _, _ => sleeps k t'
      end
  | _ :: t' => sleeps k t'
  end.

(** What a run of failed attempts leaves in the trace: each attempt is a
    request followed by a sleep of [2 ^ attempt] seconds. *)
Definition backoff_events (url : string) (attempts : list nat) : list Event :=
  flat_map (fun attempt => [EvGet url; EvSleep Backoff (1000 * 2 ^ Z.of_nat attempt)])
           attempts.

(** A response with a status and headers, and nothing in it. *)
Definition empty_soup : Soup := mkSoup (fun _ => None) [] [] [] None.

Definition bare_response (status : Z) (hdrs : gmap string string) : Response :=
  mkResponse status hdrs empty_soup "".

(** A site that is down: every request ends in an exception. *)
Definition w_down : Gpu.World :=
  Gpu.mkWorld (fun _ _ => Err) [] 1000 (Gpu.mkRM 0 0 1000 0) ∅.

(** The same site for the sequential script, at its start. *)
Definition final_down : Final.World := Final.mkWorld (fun _ _ => Err) [] 0 ∅.

(** A response that says "too many requests" and names a delay the client
    can use: the header is absent (30 seconds) or a decimal number of
    seconds that [time.sleep] accepts. *)
Definition rate_limited (seconds : Z) (o : Outcome) : Prop :=
  match o with
  | Err => False
  | Resp r => status_code r = 429%Z
              ∧ Gpu.retry_after r = Some seconds
              ∧ Gpu.sleep_accepts seconds = true
  end.

(** What a run of rate-limited attempts leaves in the trace; [f] gives the
    delay named by the answer to the request numbered [n]. *)
Definition rate_limit_events (url : string) (f : nat -> Z) (first : nat) (attempts : list nat)
    : list Event :=
  flat_map (fun i => [EvGet url; EvSleep RateLimit (1000 * f (first + i)%nat)])
           (seq 0 (length attempts)).

(** A site that answers 429 with [Retry-After: 5] three times and then
    serves the page. *)
Definition w_429_then_ok : Gpu.World :=
  Gpu.mkWorld
    (fun _ n => if (n <? 3)%nat
                then Resp (bare_response 429 {["Retry-After" := "5"]})
                else Resp (bare_response 200 ∅))
    [] 1000 (Gpu.mkRM 0 0 1000 0) ∅.

(** A site that answers 429 with a date in [Retry-After]. *)
Definition w_429_date : Gpu.World :=
  Gpu.mkWorld
    (fun _ _ => Resp (bare_response 429
                        {["Retry-After" := "Wed, 21 Oct 2015 07:28:00 GMT"]}))
    [] 1000 (Gpu.mkRM 0 0 1000 0) ∅.

(** A site that always answers 429 without a [Retry-After] header. *)
Definition w_429_bare : Gpu.World :=
  Gpu.mkWorld (fun _ _ => Resp (bare_response 429 ∅)) [] 1000 (Gpu.mkRM 0 0 1000 0) ∅.

(** [c * n]: a text of [n] copies of one character. *)
Fixpoint filler (c : ascii) (n : nat) : string :=
  match n with
  | O => EmptyString
  | S n' => String c (filler c n')
  end.

(** An element whose text has no inner whitespace or markup. *)
Definition plain_tag (text : string) : Tag := mkTag text text.

(** A selector finds an element with more than 100 characters of text. *)
Definition qualifies (soup : Soup) (selector : string) : bool :=
  match select_one soup selector with
  | Some c => text_longer 100 c
  | None => false
  end.

(** A page whose only selector hit is a short [<main>] (4 characters) and
    which has one block of 600 characters. *)
Definition soup_short_main : Soup :=
  mkSoup (fun selector => if String.eqb selector "main" then Some (plain_tag "Menu") else None)
         [plain_tag (filler "x" 600)] [] [] None.

(** The same with the short hit on [div.entry-content], the last selector of
    [gpu_optimised.py]. *)
Definition soup_short_entry : Soup :=
  mkSoup (fun selector => if String.eqb selector "div.entry-content"
                          then Some (plain_tag "Menu") else None)
         [plain_tag (filler "x" 600)] [] [] None.

(** A page with a short [<main>] and no block at all. *)
Definition soup_only_short_main : Soup :=
  mkSoup (fun selector => if String.eqb selector "main" then Some (plain_tag "Menu") else None)
         [] [] [] None.

(** A page whose only selector hit is an empty [<main>], with no block. *)
Definition soup_empty_main : Soup :=
  mkSoup (fun selector => if String.eqb selector "main" then Some (plain_tag "") else None)
         [] [] [] None.

(** A site all of whose pages are such pages, for the sequential script at
    its start. *)
Definition final_empty_pages : Final.World :=
  Final.mkWorld (fun _ _ => Resp (mkResponse 200 ∅ soup_empty_main "")) [] 0 ∅.

(** A month of that site with a text link and a scan link. *)
Definition both_links : Versions :=
  mkVersions (Some "http://literature.awgp.org/hindi/akhandjyoti/1950/scan/v10.1")
             (Some "http://literature.awgp.org/hindi/akhandjyoti/1950/v10.1").

(** Concatenation of a list of texts. *)
Definition join (parts : list string) : string := foldr String.append "" parts.

(** What the page numbered [n] adds to the combined text of the sequential
    text job, given the content found on it. *)
Definition contribution (n : nat) (c : option Tag) : string :=
  match c with
  | Some c => page_marker (Py.str n) +:+ clean_text c
  | None => ""
  end.

(** The contributions of consecutive pages, the first one numbered [n]. *)
Fixpoint contributions (n : nat) (cs : list (option Tag)) : list string :=
  match cs with
  | [] => []
  | c :: cs' => contribution n c :: contributions (S n) cs'
  end.

(** The content the sequential text job finds on each page, in page order:
    the fetches are those of the page loop, [None] marks a page that could
    not be fetched or has no content. *)
Fixpoint final_page_contents (pages : list string) : M Final.World (list (option Tag)) :=
  match pages with
  | [] => ret []
  | page_url :: rest =>
      let* response := Final.make_request page_url in
      let c := match response with
               | Some r => find_content Final.content_selectors (body r)
               | None => None
               end in
      let* cs := final_page_contents rest in
      ret (c :: cs)
  end.

(** The numbered sections of a combined text. *)
Definition sections (parts : list (nat * string)) : string :=
  join (map (fun p => page_marker (Py.str p.1) +:+ p.2) parts).

Definition has_content (c : option Tag) : bool :=
  match c with Some _ => true | None => false end.

(** The files written in a trace: path and content, oldest first. *)
Fixpoint saved (t : list Event) : list (string * string) :=
  match t with
  | [] => []
  | EvSave path data :: t' => (path, data) :: saved t'
  | _ :: t' => saved t'
  end.

(** What [make_request] of [final_scrapping.py] makes of an outcome. *)
Definition ok_response (o : Outcome) : option Response :=
  match o with
  | Resp r => if (status_code r =? 200)%Z then Some r else None
  | Err => None
  end.

(** [w'] is a later state of the same run as [w]: same site, longer trace. *)
Definition final_extends (w w' : Final.World) : Prop :=
  Final.server w' = Final.server w
  ∧ ∃ added, Final.trace w' = Final.trace w ++ added.

(** A month with both links. *)
Definition january_links : Versions :=
  mkVersions (Some "http://literature.awgp.org/hindi/akhandjyoti/1950/January/scan")
             (Some "http://literature.awgp.org/hindi/akhandjyoti/1950/January/v1.1").

(** The state of a second run: the site is unreachable, and the text of
    January 1950 is on disk from an earlier run. *)
Definition final_resumed : Final.World :=
  Final.mkWorld (fun _ _ => Err) [] 0
    {[ Final.text_file 1950 "January" := "text of an earlier run" ]}.

Definition gpu_resumed : Gpu.World :=
  Gpu.mkWorld (fun _ _ => Err) [] 1000 (Gpu.mkRM 0 0 1000 0)
    {[ Gpu.text_file 1950 "January" := "text of an earlier run" ]}.

(** Atomic replacement of a file: whenever the write is observed or
    interrupted, the file holds either what it held before or the whole
    new content. *)
Definition atomic_replace (path : string) (chunks : list string) (fs : Files) : Prop :=
  ∀ s, In s (save_states path chunks fs) →
       s !! path = fs !! path ∨ s !! path = Some (join chunks).

(** A metadata file from an earlier month, and a new serialization that
    reaches the file in two pieces. *)
Definition old_metadata_files : Files := {[ Final.metadata_file := "{1950: {January}}" ]}.

Definition new_metadata_chunks : list string := ["{1950: {January, "; "February}}"].

(** The name [download_scan_images] gives the file of the image numbered
    [k] (from 0) of the frame numbered [j] (from 0) of a page. *)
Definition frame_image_file (output_dir : string) (page_index j k : nat) : string :=
  Py.path_join output_dir
    ("page_" +:+ Py.zfill 3 (page_index + 1) +:+ "frame" +:+ Py.zfill 2 (j + 1)
       +:+ "img" +:+ Py.zfill 2 (k + 1) +:+ ".jpg").

(** An image that every filter of the direct path would refuse: the source
    is on the denylist and the declared size is 16 by 16. *)
Definition tiny_logo : Attrs :=
  {[ "src" := "logo.png"; "width" := "16"; "height" := "16" ]}.

(** A site whose scan page shows its image only inside a frame, and serves
    the image as a PNG. *)
Definition framed_logo_site : Server :=
  fun url _ =>
    if String.eqb url "http://literature.awgp.org/scan/v1.1"
    then Resp (mkResponse 200 ∅ (mkSoup (fun _ => None) [] [] [{[ "src" := "frame.html" ]}] None) "")
    else if String.eqb url "frame.html"
    then Resp (mkResponse 200 ∅ (mkSoup (fun _ => None) [] [tiny_logo] [] None) "")
    else if String.eqb url "logo.png"
    then Resp (mkResponse 200 {[ "Content-Type" := "image/png" ]} empty_soup "PNG bytes")
    else Err.

Definition w_framed_logo : Final.World := Final.mkWorld framed_logo_site [] 0 ∅.

(** A site that shows the same image directly on the scan page. *)
Definition direct_logo_site : Server :=
  fun url _ =>
    if String.eqb url "http://literature.awgp.org/scan/v1.1"
    then Resp (mkResponse 200 ∅ (mkSoup (fun _ => None) [] [tiny_logo] [] None) "")
    else if String.eqb url "logo.png"
    then Resp (mkResponse 200 {[ "Content-Type" := "image/png" ]} empty_soup "PNG bytes")
    else Err.

Definition w_direct_logo : Final.World := Final.mkWorld direct_logo_site [] 0 ∅.

(** A stand-in for [urljoin] on absolute references. *)
Definition absolute_ref (base ref : string) : string := ref.

(** A scanned page image without size attributes, and one whose width is
    small and whose height is not a number. *)
Definition unsized_scan : Attrs := {[ "src" := "scan_001.jpg" ]}.

Definition odd_sized_scan : Attrs :=
  {[ "src" := "scan_001.jpg"; "width" := "200"; "height" := "tall" ]}.

Definition sized_scan (width height : string) : Attrs :=
  {[ "src" := "scan_001.jpg"; "width" := width; "height" := height ]}.

(** A site whose scan page shows one image, served as a JPEG. *)
Definition one_image_site (img : Attrs) : Server :=
  fun url _ =>
    if String.eqb url "http://literature.awgp.org/scan/v1.1"
    then Resp (mkResponse 200 ∅ (mkSoup (fun _ => None) [] [img] [] None) "")
    else if String.eqb url "scan_001.jpg"
    then Resp (mkResponse 200 {[ "Content-Type" := "image/jpeg" ]} empty_soup "JPEG bytes")
    else Err.

Definition final_one_image (img : Attrs) : Final.World :=
  Final.mkWorld (one_image_site img) [] 0 ∅.

Definition gpu_one_image (img : Attrs) : Gpu.World :=
  Gpu.mkWorld (one_image_site img) [] 1000 (Gpu.mkRM 0 0 1000 0) ∅.

(** The pages that have content, with their numbers (the first page of
    [cs] is numbered [n]) and their cleaned texts. *)
Fixpoint numbered (n : nat) (cs : list (option Tag)) : list (nat * string) :=
  match cs with
  | [] => []
  | Some c :: cs' => (n, clean_text c) :: numbered (S n) cs'
  | None :: cs' => numbered (S n) cs'
  end.

(** An issue of three pages; each page is an [<article>] of 120 copies of
    one letter, and the first page carries the pagination links. *)
Definition article_page (letter : ascii) (pagination_links : option (list string)) : Response :=
  mkResponse 200 ∅
    (mkSoup (fun selector => if String.eqb selector "article"
                             then Some (plain_tag (filler letter 120)) else None)
            [] [] [] pagination_links) "".

Definition three_page_site : Server :=
  fun url _ =>
    if String.eqb url "http://literature.awgp.org/hindi/akhandjyoti/1950/v10.1"
    then Resp (article_page "a" (Some ["1"; "2"; "3"]))
    else if String.eqb url "http://literature.awgp.org/hindi/akhandjyoti/1950/v10.2"
    then Resp (article_page "b" None)
    else if String.eqb url "http://literature.awgp.org/hindi/akhandjyoti/1950/v10.3"
    then Resp (article_page "c" None)
    else Err.

Definition gpu_three_pages : Gpu.World :=
  Gpu.mkWorld three_page_site [] 1000 (Gpu.mkRM 0 0 1000 0) ∅.

Definition final_three_pages : Final.World := Final.mkWorld three_page_site [] 0 ∅.

(** The third page completes first, then the first, then the second. *)
Definition completion_3_1_2 (page_urls : list string) : list nat := [2; 0; 1].

(** Completion in submission order. *)
Definition completion_in_order (page_urls : list string) : list nat :=
  seq 0 (length page_urls).

(** Every character of a text is a decimal digit. *)
Fixpoint all_digits (s : string) : bool :=
  match s with
  | EmptyString => true
  | String c s' => Py.is_digit c && all_digits s'
  end.

(** A site whose first page has a pagination element with the links
    1, 2 and "Next". *)
Definition gpu_marker_2 : Gpu.World :=
  Gpu.mkWorld (fun _ _ => Resp (article_page "a" (Some ["1"; "2"; "Next"])))
    [] 1000 (Gpu.mkRM 0 0 1000 0) ∅.

(** ** Vocabulary of the further properties *)

(** The text without its line feeds. *)
Fixpoint without_newlines (s : string) : string :=
  match s with
  | EmptyString => EmptyString
  | String c s' =>
      if Ascii.eqb c Py.nl then without_newlines s' else String c (without_newlines s')
  end.

(** Every request of a trace goes to [url]. *)
Definition only_requests (url : string) (t : list Event) : Prop :=
  Forall (fun e => is_get e = true → e = EvGet url) t.

(** The condition under which [make_request] opens a new session, at the
    time [t] at which it is tested. *)
Definition session_expired (rm : Gpu.RequestManager) (t : Z) : Prop :=
  (Gpu.SESSION_DURATION < t - Gpu.session_start rm)%Z
  ∨ Gpu.SESSION_REQUESTS ≤ Gpu.request_count rm.

(** A site that serves every page. *)
Definition w_up : Gpu.World :=
  Gpu.mkWorld (fun _ _ => Resp (bare_response 200 ∅)) [] 1000 (Gpu.mkRM 900 100 0 0) ∅.

(** The request discipline of [final_scrapping.py] at a state: the global
    counter counts the requests sent, a pause of [DELAY_SECONDS] was made
    for every third of them, and there was no other sleep. *)
Definition final_paced (w : Final.World) : Prop :=
  Final.request_counter w = gets (Final.trace w)
  ∧ sleeps Pause (Final.trace w)
    = repeat (1000 * Final.DELAY_SECONDS)%Z
        (Final.request_counter w / Final.DELAY_AFTER_REQUESTS)
  ∧ sleeps Throttle (Final.trace w) = []
  ∧ sleeps RateLimit (Final.trace w) = []
  ∧ sleeps Backoff (Final.trace w) = [].

(** The state in which the script starts. *)
Definition final_start (site : Server) (fs : Files) : Final.World :=
  Final.mkWorld site [] 0 fs.

(** The URLs requested in a trace, oldest first. *)
Fixpoint requests (t : list Event) : list string :=
  match t with
  | [] => []
  | EvGet url :: t' => url :: requests t'
  | _ :: t' => requests t'
  end.

(** A path of an image file of a scan job: a name that begins with
    [page_], joined to the output directory. *)
Definition scan_image_path (output_dir path : string) : Prop :=
  ∃ name, path = Py.path_join output_dir ("page_" +:+ name).

(** The source of an image that the direct loop of the sequential image job
    fetches: it has one, it is not on the denylist, and the size test
    passes. *)
Definition final_eligible_src (img : Attrs) : option string :=
  match img !! "src" with
  | Some src =>
      if denylisted src then None
      else if Final.is_large_image img then Some src else None
  | None => None
  end.

(** The same for [process_scan_page] of the thread-pool script. *)
Definition gpu_eligible_src (img : Attrs) : option string :=
  match img !! "src" with
  | Some src =>
      if denylisted src then None
      else if Gpu.is_small_image img then None else Some src
  | None => None
  end.

(** The name [download_scan_images] of [final_scrapping.py] gives the file
    of the image numbered [i] (from 0) of a page. *)
Definition direct_image_file (output_dir : string) (page_index i : nat) (ext : string)
    : string :=
  Py.path_join output_dir
    ("page_" +:+ Py.zfill 3 (page_index + 1) +:+ "img" +:+ Py.zfill 3 (i + 1)
       +:+ "." +:+ ext).

(** A text without its leading zeros. *)
Fixpoint lstrip_zeros (s : string) : string :=
  match s with
  | EmptyString => EmptyString
  | String c s' => if Ascii.eqb c "0" then lstrip_zeros s' else s
  end.

(** The file system after the writes of a list of saves, oldest first. *)
Definition apply_saves (l : list (string * string)) (fs : Files) : Files :=
  foldl (fun fs pd => write_file pd.1 pd.2 fs) fs l.

(** The image file of page [page_index]: a direct one or one of a frame. *)
Definition image_file_of_page (output_dir : string) (page_index : nat) (path : string)
    : Prop :=
  (∃ i ext, path = direct_image_file output_dir page_index i ext)
  ∨ (∃ j k, path = frame_image_file output_dir page_index j k).

(** The record of a month in the metadata, if there is one. *)
Definition month_record (metadata : Metadata) (year : nat) (month : string)
    : option MonthMetadata :=
  metadata !! Py.str year ≫= fun months => months !! month.

(** A month record as [main] builds it: a source is recorded exactly with
    its flag, and text and scan are never both set. *)
Definition well_formed_record (versions : Versions) (m : MonthMetadata) : Prop :=
  (has_text m = true → text_source m = v_text versions ∧ truthy (v_text versions) = true)
  ∧ (has_text m = false → text_source m = None)
  ∧ (has_scan m = true → scan_source m = v_scan versions ∧ truthy (v_scan versions) = true)
  ∧ (has_scan m = false → scan_source m = None)
  ∧ (has_text m = true → has_scan m = false).

(** A month of [all] has a record that was built for it. *)
Definition recorded_from (all : list (string * Versions)) (year : nat)
    (metadata : Metadata) (month : string) : Prop :=
  ∃ m versions,
    (month, versions) ∈ all
    ∧ month_record metadata year month = Some m
    ∧ md_year m = year ∧ md_month m = month
    ∧ well_formed_record versions m.

(** ** The start of [main] of [final_scrapping.py] *)

Module FinalMain.

Definition BASE_URL : string := "http://literature.awgp.org/hindi/akhandjyoti/".

Definition test_year : nat := 1948.

Definition alternative_urls : list string :=
  ["https://www.awgp.org/en/literature/akhandjyoti/";
   "https://literature.awgp.org/english/akhandjyoti/";
   "http://literature.awgp.org/english/akhandjyoti/"].

(** [for alt_url in alternative_urls: ...]: the first alternative whose
    test page is served replaces the base URL; [base_url] is kept when
    there is none. *)
Fixpoint try_alternatives (alternatives : list string) (base_url : string)
    : M Final.World string :=
  match alternatives with
  | [] => ret base_url
  | alt_url :: rest =>
      let* alt_response := Final.make_request (alt_url +:+ Py.str test_year) in
      match alt_response with
      | Some _ => ret alt_url
      | None => try_alternatives rest base_url
      end
  end.

(** The test of the URL format at the start of [main]; the result is the
    value of the global [BASE_URL] afterwards. *)
Definition probe_base_url : M Final.World string :=
  let* response := Final.make_request (BASE_URL +:+ Py.str test_year) in
  match response with
  | Some _ => ret BASE_URL
  | None => try_alternatives alternative_urls BASE_URL
  end.

End FinalMain.

(** The URL formats [main] knows, in the order in which it tries them. *)
Definition url_formats : list string := FinalMain.BASE_URL :: FinalMain.alternative_urls.

(** The page [main] requests to test a format. *)
Definition test_url (base : string) : string := base +:+ Py.str FinalMain.test_year.

(** The site serves the test page of [base] with status 200 to the request
    sent after [k] further requests. *)
Definition serves_test_page (w : Final.World) (k : nat) (base : string) : bool :=
  bool_decide (is_Some (ok_response
                 (Final.server w (test_url base) (gets (Final.trace w) + k)))).

(** A page of the issue at [url]: the issue URL itself or the URL the
    thread-pool script enumerates for a page from 2 to [max_pages]. *)
Definition issue_page (url : string) (max_pages : nat) (u : string) : Prop :=
  u = url ∨ ∃ page, 2 ≤ page ≤ max_pages ∧ u = Gpu.page_url_of url page.

(** A text that begins with a page marker. *)
Definition begins_with_marker (text : string) : Prop :=
  ∃ page_num rest, text = page_marker page_num +:+ rest.

(** The extensions an image file can get. *)
Definition image_exts : list string := ["jpg"; "png"; "gif"].

(** The name [process_scan_page] gives the file of the image at [img_url]
    found on the page numbered [page_index] (from 0). *)
Definition gpu_image_file (md5_hex8 : string → string) (output_dir : string)
    (page_index : nat) (img_url ext : string) : string :=
  Py.path_join output_dir
    ("page_" +:+ Py.zfill 3 (page_index + 1) +:+ "_" +:+ md5_hex8 img_url
       +:+ "." +:+ ext).

(** The URLs of the images of a page that pass the filters. *)
Definition gpu_image_urls (urljoin : string → string → string) (page_url : string)
    (images : list Attrs) : list string :=
  map (urljoin page_url) (omap gpu_eligible_src images).

(** A file of one of these images. *)
Definition gpu_page_file (urljoin : string → string → string)
    (md5_hex8 : string → string) (output_dir page_url : string) (page_index : nat)
    (images : list Attrs) (path : string) : Prop :=
  ∃ img_url ext,
    img_url ∈ gpu_image_urls urljoin page_url images
    ∧ ext ∈ image_exts
    ∧ path = gpu_image_file md5_hex8 output_dir page_index img_url ext.

(** ** The year listing and [main] of [gpu_optimised.py] *)

(** An [a] element: its text and its [href] attribute, if it has one. *)
Record Anchor := mkAnchor {
  anchor_text : string;     (* link.get_text() *)
  href : option string      (* link.get('href') *)
}.

(** An element of the year page as [get_month_links] looks at it. *)
Record Element := mkElement {
  element_text : string;    (* element.get_text() *)
  anchors : list Anchor     (* element.find_all('a'), in document order *)
}.

Module GpuMain.

Definition BASE_URL : string := "http://literature.awgp.org/hindi/akhandjyoti/".
Definition START_YEAR : nat := 1950.
Definition END_YEAR : nat := 2023.

Definition english_months : list string :=
  ["January"; "February"; "March"; "April"; "May"; "June";
   "July"; "August"; "September"; "October"; "November"; "December"].

Definition hindi_months : list string :=
  ["जनवरी"; "फरवरी"; "मार्च"; "अप्रैल"; "मई"; "जून";
   "जुलाई"; "अगस्त"; "सितंबर"; "अक्टूबर"; "नवंबर"; "दिसंबर"].

(** [d[key] = value] on a dictionary kept as its items in insertion order:
    a key that is present keeps its place and gets the new value. *)
Fixpoint dict_set {V : Type} (key : string) (value : V) (d : list (string * V))
    : list (string * V) :=
  match d with
  | [] => [(key, value)]
  | (k, v) :: rest =>
      if String.eqb k key then (k, value) :: rest
      else (k, v) :: dict_set key value rest
  end.

(** The loop over [zip(english_months, hindi_months)]: the first month, in
    calendar order, whose English or Hindi name occurs in the text. *)
Fixpoint found_month_in (names : list (string * string)) (text : string)
    : option string :=
  match names with
  | [] => None
  | (eng_month, hi_month) :: rest =>
      if Py.contains eng_month text || Py.contains hi_month text
      then Some eng_month
      else found_month_in rest text
  end.

Definition found_month (text : string) : option string :=
  found_month_in (zip english_months hindi_months) text.

Section WithLibraries.

Variable urljoin : string -> string -> string.

(** [soup.find_all(['div', 'tr', 'li', 'p', 'table'])], in document order. *)
Variable potential_elements : Soup -> list Element.

(** One round of [for link in element.find_all('a')] on the pair
    [(scan_link, text_link)]. *)
Definition link_step (year_url : string) (links : option string * option string)
    (link : Anchor) : option string * option string :=
  let link_text := Py.strip (anchor_text link) in
  let href_ := default "" (href link) in
  if Py.contains "scan" (Py.lower link_text) || Py.contains "स्कैन" (Py.lower link_text)
  then (Some (urljoin year_url href_), links.2)
  else if Py.contains "text" (Py.lower link_text)
          || Py.contains "टेक्स्ट" (Py.lower link_text)
  then (links.1, Some (urljoin year_url href_))
  else links.

Definition element_links (year_url : string) (element : Element)
    : option string * option string :=
  foldl (link_step year_url) (None, None) (anchors element).

(** One round of [for element in potential_elements]. *)
Definition element_step (year_url : string) (months_data : list (string * Versions))
    (element : Element) : list (string * Versions) :=
  let text := Py.strip (element_text element) in
  match found_month text with
  | None => months_data
  | Some month =>
      let links := element_links year_url element in
      if truthy links.1 || truthy links.2
      then dict_set month (mkVersions links.1 links.2) months_data
      else months_data
  end.

(** [get_month_links(year_url)]. *)
Definition get_month_links (year_url : string) : M Gpu.World (list (string * Versions)) :=
  let* response := Gpu.make_request year_url in
  match response with
  | None => ret []
  | Some r => ret (foldl (element_step year_url) [] (potential_elements (body r)))
  end.

Variable md5_hex8 : string -> string.
Variable dumps : Metadata -> string.

(** [json.load(f)] on the content of the file, which is taken to hold a
    dictionary of the shape the script writes; [None] when it raises. *)
Variable loads : string -> option Metadata.

(** The scheduler's completion order, as in the jobs. *)
Variable order : list string -> list nat.

(** The draws of [random.uniform(5, 15)], in milliseconds: [delay k] is the
    one made after [5 * (k + 1)] years were processed. *)
Variable delay : nat -> Z.

(** [for month, versions in months_data.items(): ...]. *)
Fixpoint month_loop (year : nat) (months_data : list (string * Versions))
    (metadata : Metadata) : M Gpu.World Metadata :=
  match months_data with
  | [] => ret metadata
  | entry :: rest =>
      let* metadata' := Gpu.month_body urljoin md5_hex8 dumps order year metadata entry in
      month_loop year rest metadata'
  end.

(** [if str(year) not in metadata: metadata[str(year)] = {}]. *)
Definition ensure_year (year : nat) (metadata : Metadata) : Metadata :=
  match metadata !! Py.str year with
  | Some _ => metadata
  | None => <[Py.str year := ∅]> metadata
  end.

(** The body of [for year in range(START_YEAR, END_YEAR + 1)] on the pair
    [(metadata, years_processed)].  The random delay between years is the
    only sleep of this script that is labelled [Pause]. *)
Definition year_body (year : nat) (state : Metadata * nat)
    : M Gpu.World (Metadata * nat) :=
  let year_url := BASE_URL +:+ Py.str year in
  let metadata := ensure_year year state.1 in
  let* months_data := get_month_links year_url in
  match months_data with
  | [] => ret (metadata, state.2)
  | _ :: _ =>
      let* metadata' := month_loop year months_data metadata in
      let years_processed := S state.2 in
      let* _ := (if (years_processed mod 5 =? 0)%nat
                 then Gpu.sleep_ms Pause (delay (years_processed / 5 - 1))
                 else ret tt) in
      ret (metadata', years_processed)
  end.

Fixpoint years_loop (years : list nat) (state : Metadata * nat)
    : M Gpu.World (Metadata * nat) :=
  match years with
  | [] => ret state
  | year :: rest =>
      let* state' := year_body year state in
      years_loop rest state'
  end.

(** The metadata [main] starts from: the content of the metadata file when
    there is one and it can be read, and the empty dictionary otherwise. *)
Definition load_metadata : M Gpu.World Metadata :=
  fun w => (match Gpu.files w !! Gpu.metadata_file with
            | Some text => default ∅ (loads text)
            | None => ∅
            end, w).

(** [main()]. *)
Definition main : M Gpu.World (Metadata * nat) :=
  let* metadata := load_metadata in
  years_loop (seq START_YEAR (END_YEAR + 1 - START_YEAR)) (metadata, 0%nat).

End WithLibraries.

End GpuMain.

(** The keys of a dictionary kept as its items. *)
Definition dict_keys {V : Type} (d : list (string * V)) : list string := map fst d.

(** The element names [month] to [get_month_links]. *)
Definition names_month (month : string) (element : Element) : Prop :=
  GpuMain.found_month (Py.strip (element_text element)) = Some month.

(** One of [words] occurs in the text of the link, as [get_month_links]
    tests it. *)
Definition says (words : list string) (link : Anchor) : bool :=
  existsb (fun word => Py.contains word (Py.lower (Py.strip (anchor_text link)))) words.

Definition scan_words : list string := ["scan"; "स्कैन"].
Definition text_words : list string := ["text"; "टेक्स्ट"].

(** The links of [versions] come from links of [element]: the scan link
    from one that says scan, the text link from one that says text and
    does not say scan, each resolved against the year URL. *)
Definition links_from (urljoin : string → string → string) (year_url : string)
    (element : Element) (versions : Versions) : Prop :=
  (∀ l, v_scan versions = Some l →
     ∃ link, link ∈ anchors element ∧ says scan_words link = true
             ∧ l = urljoin year_url (default "" (href link)))
  ∧ (∀ l, v_text versions = Some l →
       ∃ link, link ∈ anchors element ∧ says scan_words link = false
               ∧ says text_words link = true
               ∧ l = urljoin year_url (default "" (href link))).

(** An entry of the listing of a year as [get_month_links] builds it from
    the elements [elements]: the key is an English month name, at least
    one of the two links is present and not empty, and both come from an
    element of the page that names the month. *)
Definition listed_entry (urljoin : string → string → string) (year_url : string)
    (elements : list Element) (entry : string * Versions) : Prop :=
  entry.1 ∈ GpuMain.english_months
  ∧ truthy (v_scan entry.2) || truthy (v_text entry.2) = true
  ∧ ∃ element, element ∈ elements ∧ names_month entry.1 element
               ∧ links_from urljoin year_url element entry.2.

(** From [w1] to [w2] the process went on, and the pauses it made on the
    way lasted [pauses] (milliseconds, oldest first). *)
Definition gpu_paused (pauses : list Z) (w1 w2 : Gpu.World) : Prop :=
  ∃ added, Gpu.trace w2 = Gpu.trace w1 ++ added ∧ sleeps Pause added = pauses.

(** ** The image job of [gpu_optimised.py] with workers that raise

    [Gpu.process_scan_page] is the run of a worker in which nothing raises.
    Two steps of a worker can raise.  The session is used with
    [stream=True], so the body of a response is read from the network only
    when [.text] or [.content] is first used, and that read can fail; and
    [urljoin] raises [ValueError] on a reference it cannot parse.  An
    exception ends the worker, [future.result()] raises it again in
    [download_scan_images], and the handler there logs it: the worker adds
    nothing to [downloaded], whatever it wrote before. *)

Module GpuPool.

(** [open(filename, 'wb')] alone: the file exists and is empty. *)
Definition create_file (path : string) : M Gpu.World unit :=
  fun w => (tt, Gpu.mkWorld (Gpu.server w) (Gpu.trace w) (Gpu.clock w)
                            (Gpu.request_manager w) (open_w path (Gpu.files w))).

Section WithLibraries.

(** [urllib.parse.urljoin]; [None] when it raises [ValueError]. *)
Variable urljoin : string -> string -> option string.
Variable md5_hex8 : string -> string.

(** Reading the body of this response raises. *)
Variable unreadable : Response -> bool.

(** The image loop of [process_scan_page]; [None] when the worker raised. *)
Fixpoint page_images (output_dir page_url : string) (page_index : nat)
    (img_elements : list Attrs) : M Gpu.World (option nat) :=
  match img_elements with
  | [] => ret (Some 0%nat)
  | img :: rest =>
      match img !! "src" with
      | None => page_images output_dir page_url page_index rest
      | Some src =>
          if denylisted src then page_images output_dir page_url page_index rest
          else if Gpu.is_small_image img
          then page_images output_dir page_url page_index rest
          else
            match urljoin page_url src with
            | None => ret None                      (* urljoin raised *)
            | Some img_url =>
                let* img_response := Gpu.make_request img_url in
                match img_response with
                | None => page_images output_dir page_url page_index rest
                | Some r =>
                    let filename :=
                      Py.path_join output_dir
                        ("page_" +:+ Py.zfill 3 (page_index + 1) +:+ "_"
                           +:+ md5_hex8 img_url +:+ "." +:+ pick_ext r) in
                    if unreadable r then
                      (* the file is open when [img_response.content] raises *)
                      let* _ := create_file filename in
                      ret None
                    else
                      let* _ := Gpu.save filename (content r) in
                      let* n := page_images output_dir page_url page_index rest in
                      ret (S <$> n)
                end
            end
      end
  end.

(** [process_scan_page(page_url, page_index, output_dir)]. *)
Definition process_scan_page (page_url : string) (page_index : nat)
    (output_dir : string) : M Gpu.World (option nat) :=
  let* response := Gpu.make_request page_url in
  match response with
  | None => ret (Some 0%nat)
  | Some r =>
      if unreadable r then ret None                 (* [response.text] raised *)
      else page_images output_dir page_url page_index (imgs (body r))
  end.

(** The loop over [as_completed(futures)] with its handler:
[[
    try:
        downloaded += future.result()
    except Exception as e:
        logging.warning(...)
]] *)
Fixpoint scan_results (output_dir : string) (page_urls : list string)
    (order : list nat) : M Gpu.World nat :=
  match order with
  | [] => ret 0%nat
  | i :: rest =>
      match page_urls !! i with
      | None => scan_results output_dir page_urls rest
      | Some page_url =>
          let* result := process_scan_page page_url i output_dir in
          let* m := scan_results output_dir page_urls rest in
          ret (match result with Some n => n + m | None => m end)%nat
      end
  end.

(** [get_pagination_links(url, max_pages)], which reads the body of the
    first page in the main thread; [None] when that raises. *)
Definition get_pagination_links (url : string) (max_pages : Z)
    : M Gpu.World (option (list string)) :=
  let* response := Gpu.make_request url in
  if match response with Some r => unreadable r | None => false end
  then ret None
  else ret (Some (url :: map (Gpu.page_url_of url)
                           (Gpu.page_range (Gpu.detect_max_pages response max_pages)))).

(** [download_scan_images(url, output_dir)]; [None] when it raises, which
    it does only out of [get_pagination_links]. *)
Definition download_scan_images (order : list string -> list nat)
    (url output_dir : string) : M Gpu.World (option bool) :=
  let* links := get_pagination_links url 66 in
  match links with
  | None => ret None
  | Some page_urls =>
      let* downloaded := scan_results output_dir page_urls (order page_urls) in
      ret (Some (0 <? downloaded)%nat)
  end.

End WithLibraries.

End GpuPool.

(** From [w1] to [w2] the process went on, wrote at least [n] image files
    of [output_dir] and touched no file that is not one. *)
Definition gpu_wrote_images (output_dir : string) (n : nat) (w1 w2 : Gpu.World) : Prop :=
  ∃ added,
    Gpu.trace w2 = Gpu.trace w1 ++ added
    ∧ n ≤ length (saved added)
    ∧ Forall (fun pd => scan_image_path output_dir pd.1) (saved added)
    ∧ (∀ path, ¬ scan_image_path output_dir path →
         Gpu.files w2 !! path = Gpu.files w1 !! path).

(** A body is cut off: the response announces a length its body does not
    have. *)
Definition cut_off (r : Response) : bool :=
  match headers r !! "Content-Length" with
  | Some n => negb (String.eqb n (Py.str (String.length (content r))))
  | None => false
  end.

(** A scan page with two large images; the first is served whole, the body
    of the second is cut off. *)
Definition large_image (src : string) : Attrs :=
  {[ "src" := src; "width" := "800"; "height" := "1200" ]}.

Definition two_image_site : Server :=
  fun url _ =>
    if String.eqb url "http://literature.awgp.org/scan/a.jpg"
    then Resp (mkResponse 200 {[ "Content-Length" := "7" ]} empty_soup "IMAGE-A")
    else if String.eqb url "http://literature.awgp.org/scan/b.jpg"
    then Resp (mkResponse 200 {[ "Content-Length" := "9000" ]} empty_soup "IMAGE-B")
    else Resp (mkResponse 200 ∅
                 (mkSoup (fun _ => None) []
                    [large_image "http://literature.awgp.org/scan/a.jpg";
                     large_image "http://literature.awgp.org/scan/b.jpg"]
                    [] (Some ["1"])) "").

Definition gpu_two_images : Gpu.World :=
  Gpu.mkWorld two_image_site [] 1000 (Gpu.mkRM 0 0 1000 0) ∅.

Definition two_image_hash (img_url : string) : string :=
  if String.eqb img_url "http://literature.awgp.org/scan/a.jpg"
  then "aaaaaaaa" else "bbbbbbbb".

(** * Properties *)

(** ** The string primitives on examples *)

Example py_int_plain : Py.int "300" = Some 300%Z.
Proof. reflexivity. Qed.

Example py_int_spaces_sign : Py.int "  -1_000 " = Some (-1000)%Z.
Proof. reflexivity. Qed.

Example py_int_px : Py.int "300px" = None.
Proof. reflexivity. Qed.

Example py_int_empty : Py.int "" = None.
Proof. reflexivity. Qed.

(** Digits of any script are read, as is whitespace beyond ASCII at the
    ends; the separators 28 to 31, which [strip] removes, are not skipped. *)
Example py_int_devanagari : Py.int "१२" = Some 12%Z.
Proof. vm_compute. reflexivity. Qed.

Example py_int_separator : Py.int (String (ascii_of_nat 28) "5") = None.
Proof. vm_compute. reflexivity. Qed.

Example py_strip_separator : Py.strip (String (ascii_of_nat 28) "5") = "5".
Proof. vm_compute. reflexivity. Qed.

Example py_len_devanagari :
  Py.len "जनवरी" = 5 ∧ String.length "जनवरी" = 15.
Proof. split; vm_compute; reflexivity. Qed.

Example py_replace_px : Py.replace "px" "" "400px" = "400".
Proof. reflexivity. Qed.

Example py_zfill_3 : Py.zfill 3 7 = "007".
Proof. vm_compute. reflexivity. Qed.

Example py_collapse :
  Py.collapse_newlines ("a" +:+ Py.newlines 4 +:+ "b" +:+ Py.newlines 2 +:+ "c")
  = "a" +:+ Py.newlines 2 +:+ "b" +:+ Py.newlines 2 +:+ "c".
Proof. reflexivity. Qed.

Example py_contains_nav : Py.contains "nav" (Py.lower "/img/NAVbar.png") = true.
Proof. reflexivity. Qed.

Example re_versioned_base :
  Re.search_versioned "http://literature.awgp.org/hindi/akhandjyoti/1950/v10.1"
  = Some "http://literature.awgp.org/hindi/akhandjyoti/1950/v10".
Proof. vm_compute. reflexivity. Qed.

Example re_page_suffix :
  Re.search_page_suffix "http://literature.awgp.org/hindi/akhandjyoti/1950/v10.12" = Some "12"
  ∧ Re.search_page_suffix "http://literature.awgp.org/hindi/akhandjyoti/1950/v10" = None.
Proof. split; vm_compute; reflexivity. Qed.

(** ** The retrying client of [gpu_optimised.py] *)

Lemma gets_app (t1 t2 : list Event) : gets (t1 ++ t2) = gets t1 + gets t2.
Proof. unfold gets. rewrite List.filter_app, length_app. reflexivity. Qed.

Lemma gets_backoff_events url attempts :
  gets (backoff_events url attempts) = length attempts.
Proof.
  induction attempts as [|a l IH]; [reflexivity|].
  unfold backoff_events in *. cbn [flat_map]. rewrite gets_app, IH. reflexivity.
Qed.

Lemma sleeps_app k (t1 t2 : list Event) : sleeps k (t1 ++ t2) = sleeps k t1 ++ sleeps k t2.
Proof.
  induction t1 as [|e t1 IH]; [reflexivity|].
  destruct e as [u|k' ms|p d]; cbn; try apply IH.
  destruct k, k'; cbn; rewrite ?IH; reflexivity.
Qed.

Lemma sleeps_backoff_events url attempts :
  sleeps Backoff (backoff_events url attempts)
  = map (fun attempt => 1000 * 2 ^ Z.of_nat attempt)%Z attempts.
Proof.
  induction attempts as [|a l IH]; [reflexivity|].
  unfold backoff_events in *. cbn [flat_map map]. rewrite sleeps_app, IH. reflexivity.
Qed.

(** Failed attempts use up the whole range and leave the manager as it was. *)
Lemma retry_loop_transient url attempts w :
  (∀ n, transient (Gpu.server w url n)) →
  ∃ w', Gpu.retry_loop url attempts w = (None, w')
        ∧ Gpu.trace w' = Gpu.trace w ++ backoff_events url attempts
        ∧ Gpu.server w' = Gpu.server w
        ∧ Gpu.request_manager w' = Gpu.request_manager w
        ∧ Gpu.files w' = Gpu.files w.
Proof.
  revert w. induction attempts as [|attempt rest IH]; intros w Hsrv.
  - exists w. cbn. rewrite app_nil_r. repeat split.
  - cbn [Gpu.retry_loop]. unfold bind at 1. unfold Gpu.http_get at 1.
    pose proof (Hsrv (gets (Gpu.trace w))) as Hn.
    destruct (Gpu.server w url (gets (Gpu.trace w))) as [r|] eqn:Ho; cbn in Hn.
    + destruct Hn as [H200 H429].
      apply Z.eqb_neq in H200. apply Z.eqb_neq in H429. rewrite H200, H429.
      unfold bind at 1, Gpu.backoff, Gpu.sleep, Gpu.sleep_ms.
      match goal with |- context [Gpu.retry_loop url rest ?w1] =>
        destruct (IH w1) as (w' & E & Ht & Hs & Hrm & Hf); [exact Hsrv|] end.
      exists w'. rewrite E. cbn in *. rewrite Ht, <- !app_assoc. repeat split; assumption.
    + unfold bind at 1, Gpu.backoff, Gpu.sleep, Gpu.sleep_ms.
      match goal with |- context [Gpu.retry_loop url rest ?w1] =>
        destruct (IH w1) as (w' & E & Ht & Hs & Hrm & Hf); [exact Hsrv|] end.
      exists w'. rewrite E. cbn in *. rewrite Ht, <- !app_assoc. repeat split; assumption.
Qed.

(** Before the first attempt [make_request] may sleep to keep its minimum
    delay and may open a new session; it sends nothing. *)
Lemma make_request_preamble url w :
  ∃ pre w0,
    Gpu.make_request url w = Gpu.retry_loop url (seq 0 Gpu.MAX_RETRIES) w0
    ∧ Gpu.trace w0 = Gpu.trace w ++ pre
    ∧ gets pre = 0
    ∧ sleeps Backoff pre = []
    ∧ sleeps RateLimit pre = []
    ∧ Gpu.server w0 = Gpu.server w
    ∧ Gpu.files w0 = Gpu.files w.
Proof.
  unfold Gpu.make_request, bind, Gpu.now, Gpu.get_rm.
  cbn -[Gpu.retry_loop seq Gpu.MAX_RETRIES].
  destruct (Gpu.clock w - Gpu.last_request_time (Gpu.request_manager w) <? Gpu.MIN_DELAY)%Z;
    cbn -[Gpu.retry_loop seq Gpu.MAX_RETRIES].
  - match goal with |- context [if ?c then _ else _] => destruct c end;
      cbn -[Gpu.retry_loop seq Gpu.MAX_RETRIES];
      eexists [_], _; (split; [reflexivity|]); cbn; repeat split.
  - match goal with |- context [if ?c then _ else _] => destruct c end;
      cbn -[Gpu.retry_loop seq Gpu.MAX_RETRIES].
    + eexists [], _; (split; [reflexivity|]); cbn; rewrite ?app_nil_r; repeat split.
    + exists [], w; (split; [destruct w; reflexivity|]); cbn;
        rewrite ?app_nil_r; repeat split.
Qed.

(** The single attempt of [make_request] of [final_scrapping.py] against a
    failing site: one request, no backoff, [None]. *)
Lemma final_make_request_transient url (wf : Final.World) :
  (∀ n, transient (Final.server wf url n)) →
  ∃ pre wf',
    Final.make_request url wf = (None, wf')
    ∧ Final.trace wf' = Final.trace wf ++ pre ++ [EvGet url]
    ∧ gets pre = 0
    ∧ sleeps Backoff pre = [].
Proof.
  intros Hsrv. specialize (Hsrv (gets (Final.trace wf))).
  unfold Final.make_request, bind, Final.bump_counter, Final.http_get.
  destruct (S (Final.request_counter wf) mod Final.DELAY_AFTER_REQUESTS =? 0)%nat.
  - exists [EvSleep Pause (1000 * Final.DELAY_SECONDS)]. cbn -[gets].
    rewrite gets_app, Nat.add_0_r.
    destruct (Final.server wf url (gets (Final.trace wf))) as [r|]; cbn -[gets].
    + destruct Hsrv as [H200 _]. apply Z.eqb_neq in H200. rewrite H200.
      eexists. split; [reflexivity|]. cbn. rewrite <- app_assoc. repeat split.
    + eexists. split; [reflexivity|]. cbn. rewrite <- app_assoc. repeat split.
  - exists []. cbn -[gets].
    destruct (Final.server wf url (gets (Final.trace wf))) as [r|]; cbn -[gets].
    + destruct Hsrv as [H200 _]. apply Z.eqb_neq in H200. rewrite H200.
      eexists. split; [reflexivity|]. cbn. repeat split.
    + eexists. split; [reflexivity|]. cbn. repeat split.
Qed.

(** C5, as the code has it.  When every fetch of a URL ends in a status
    other than 200 and 429 or in an exception, [RequestManager.make_request]
    of [gpu_optimised.py] sends exactly [MAX_RETRIES] requests, sleeps
    [2 ^ attempt] seconds after the attempt numbered [attempt] (1, 2 and 4
    seconds, a non-decreasing sequence), and returns [None]; the callers
    take that [None] as a page that contributes nothing and go on with the
    remaining pages.  [make_request] of [final_scrapping.py] has no retry:
    it sends exactly one request, makes no backoff sleep, and returns
    [None], which its callers take as a skipped page as well. *)
Theorem make_request_retry_bound (url : string) (w : Gpu.World) (wf : Final.World) :
  (∀ n, transient (Gpu.server w url n)) →
  (∀ n, transient (Final.server wf url n)) →
  (∃ pre w',
    Gpu.make_request url w = (None, w')
    ∧ Gpu.trace w' = Gpu.trace w ++ pre ++ backoff_events url (seq 0 Gpu.MAX_RETRIES)
    ∧ gets pre = 0
    ∧ gets (Gpu.trace w') = gets (Gpu.trace w) + Gpu.MAX_RETRIES
    ∧ sleeps Backoff (pre ++ backoff_events url (seq 0 Gpu.MAX_RETRIES))
      = map (fun attempt => 1000 * 2 ^ Z.of_nat attempt)%Z (seq 0 Gpu.MAX_RETRIES)
    ∧ StronglySorted Z.le
        (sleeps Backoff (pre ++ backoff_events url (seq 0 Gpu.MAX_RETRIES)))
    ∧ Gpu.process_text_page url w = (None, w')
    ∧ (∀ page_urls i rest all_text content_found,
         page_urls !! i = Some url →
         Gpu.text_results page_urls (i :: rest) all_text content_found w
         = Gpu.text_results page_urls rest all_text content_found w')
    ∧ (∀ urljoin md5_hex8 page_index output_dir,
         Gpu.process_scan_page urljoin md5_hex8 url page_index output_dir w = (0, w')))
  ∧ (∃ pre wf',
       Final.make_request url wf = (None, wf')
       ∧ Final.trace wf' = Final.trace wf ++ pre ++ [EvGet url]
       ∧ gets pre = 0
       ∧ gets (Final.trace wf') = gets (Final.trace wf) + 1
       ∧ sleeps Backoff (pre ++ [EvGet url]) = []
       ∧ (∀ i rest all_text content_found,
            Final.text_pages i (url :: rest) all_text content_found wf
            = Final.text_pages (S i) rest all_text content_found wf')
       ∧ (∀ urljoin output_dir page_index,
            Final.scan_page urljoin output_dir url page_index wf = (0, wf'))).
Proof.
  intros Hsrv Hsrvf. split.
  - destruct (make_request_preamble url w)
      as (pre & w0 & E0 & Ht0 & Hg & Hb & _ & Hs0 & _).
    destruct (retry_loop_transient url (seq 0 Gpu.MAX_RETRIES) w0) as (w' & E & Ht & _).
    { intros n. rewrite Hs0. apply Hsrv. }
    assert (Em : Gpu.make_request url w = (None, w')) by (rewrite E0; exact E).
    assert (Esl : sleeps Backoff (pre ++ backoff_events url (seq 0 Gpu.MAX_RETRIES))
                  = map (fun attempt => 1000 * 2 ^ Z.of_nat attempt)%Z
                        (seq 0 Gpu.MAX_RETRIES)).
    { rewrite sleeps_app, Hb, sleeps_backoff_events. reflexivity. }
    exists pre, w'. split; [exact Em|].
    split; [rewrite Ht, Ht0, <- app_assoc; reflexivity|].
    split; [exact Hg|].
    split.
    { rewrite Ht, Ht0, !gets_app, Hg, gets_backoff_events, length_seq. lia. }
    split; [exact Esl|].
    split.
    { rewrite Esl. cbn. repeat constructor; lia. }
    split.
    { unfold Gpu.process_text_page, bind. rewrite Em. reflexivity. }
    split.
    { intros page_urls i rest all_text content_found Hi.
      cbn [Gpu.text_results]. rewrite Hi. unfold bind at 1.
      unfold Gpu.process_text_page, bind. rewrite Em. reflexivity. }
    intros urljoin md5_hex8 page_index output_dir.
    unfold Gpu.process_scan_page, bind. rewrite Em. reflexivity.
  - destruct (final_make_request_transient url wf Hsrvf) as (pre & wf' & E & Ht & Hg & Hb).
    exists pre, wf'. split; [exact E|]. split; [exact Ht|]. split; [exact Hg|].
    split.
    { rewrite Ht, !gets_app, Hg. change (gets [EvGet url]) with 1. lia. }
    split; [rewrite sleeps_app, Hb; reflexivity|].
    split.
    { intros i rest all_text content_found. cbn [Final.text_pages].
      unfold bind at 1. rewrite E. reflexivity. }
    intros urljoin output_dir page_index.
    unfold Final.scan_page, bind. rewrite E. reflexivity.
Qed.

Lemma make_request_retry_bound_witness :
  (∀ n, transient (Gpu.server w_down "http://literature.awgp.org/v10.3" n))
  ∧ (∀ n, transient (Final.server final_down "http://literature.awgp.org/v10.3" n))
  ∧ (∃ w', Gpu.make_request "http://literature.awgp.org/v10.3" w_down = (None, w')
           ∧ gets (Gpu.trace w') = 3)
  ∧ (∃ wf', Final.make_request "http://literature.awgp.org/v10.3" final_down = (None, wf')
            ∧ gets (Final.trace wf') = 1).
Proof.
  split; [intros n; exact I|]. split; [intros n; exact I|].
  destruct (make_request_retry_bound "http://literature.awgp.org/v10.3" w_down final_down)
    as [(pre & w' & E & _ & _ & Hg & _) (pref & wf' & Ef & _ & _ & Hgf & _)];
    [intros n; exact I | intros n; exact I |].
  split; [exists w'; split; [exact E | exact Hg]|].
  exists wf'. split; [exact Ef | exact Hgf].
Defined.

(** C5 as stated fails for [make_request] of [final_scrapping.py].  Against
    a site that is down the call sends one request, not [MAX_RETRIES], and
    makes no backoff sleep before it returns [None]. *)
Lemma final_make_request_has_no_retry :
  (∀ n, transient (Final.server final_down "http://literature.awgp.org/v10.3" n))
  ∧ (Final.make_request "http://literature.awgp.org/v10.3" final_down).1 = None
  ∧ Final.trace (Final.make_request "http://literature.awgp.org/v10.3" final_down).2
    = [EvGet "http://literature.awgp.org/v10.3"]
  ∧ gets (Final.trace (Final.make_request "http://literature.awgp.org/v10.3"
                         final_down).2) ≠ Gpu.MAX_RETRIES
  ∧ sleeps Backoff (Final.trace (Final.make_request "http://literature.awgp.org/v10.3"
                                   final_down).2) = [].
Proof.
  split; [intros n; exact I|].
  split; [reflexivity|]. split; [reflexivity|].
  split; [vm_compute; discriminate | reflexivity].
Qed.

(** ** Rate limiting *)

Lemma gets_rate_limit_events url f first attempts :
  gets (rate_limit_events url f first attempts) = length attempts.
Proof.
  unfold rate_limit_events. generalize (length attempts) as n. intros n.
  replace n with (length (seq 0 n)) at 2 by apply length_seq.
  induction (seq 0 n) as [|a l IH]; [reflexivity|].
  cbn [flat_map]. rewrite gets_app, IH. reflexivity.
Qed.

Lemma sleeps_backoff_rate_limit_events url f first attempts :
  sleeps Backoff (rate_limit_events url f first attempts) = [].
Proof.
  unfold rate_limit_events.
  induction (seq 0 (length attempts)) as [|a l IH]; [reflexivity|].
  cbn [flat_map]. rewrite sleeps_app, IH. reflexivity.
Qed.

Lemma rate_limit_events_cons url f first attempt rest :
  rate_limit_events url f first (attempt :: rest)
  = [EvGet url; EvSleep RateLimit (1000 * f first)]
    ++ rate_limit_events url f (S first) rest.
Proof.
  unfold rate_limit_events. cbn [length seq flat_map].
  rewrite Nat.add_0_r. f_equal.
  rewrite <- seq_shift, flat_map_concat_map, map_map, <- flat_map_concat_map.
  apply flat_map_ext. intros i. replace (first + S i) with (S first + i) by lia. reflexivity.
Qed.

(** One rate-limited attempt: the request, the sleep the answer names, and
    then the rest of the range. *)
Lemma retry_loop_rate_limited_step url attempt rest w seconds :
  rate_limited seconds (Gpu.server w url (gets (Gpu.trace w))) →
  Gpu.retry_loop url (attempt :: rest) w
  = Gpu.retry_loop url rest
      (Gpu.mkWorld (Gpu.server w)
         (Gpu.trace w ++ [EvGet url; EvSleep RateLimit (1000 * seconds)])
         (Gpu.clock w + 1000 * seconds) (Gpu.request_manager w) (Gpu.files w)).
Proof.
  intros H. cbn [Gpu.retry_loop]. unfold bind at 1. unfold Gpu.http_get at 1.
  destruct (Gpu.server w url (gets (Gpu.trace w))) as [r|]; cbn in H; [|contradiction].
  destruct H as (H429 & Hra & Hacc). rewrite H429, Hra, Hacc. cbn [Z.eqb Pos.eqb].
  unfold bind at 1, Gpu.sleep, Gpu.sleep_ms. cbn. rewrite <- app_assoc. reflexivity.
Qed.

Lemma retry_loop_rate_limited url f attempts w :
  (∀ n, rate_limited (f n) (Gpu.server w url n)) →
  ∃ w', Gpu.retry_loop url attempts w = (None, w')
        ∧ Gpu.trace w'
          = Gpu.trace w ++ rate_limit_events url f (gets (Gpu.trace w)) attempts.
Proof.
  revert w. induction attempts as [|attempt rest IH]; intros w Hsrv.
  - exists w. cbn. rewrite app_nil_r. split; reflexivity.
  - rewrite (retry_loop_rate_limited_step url attempt rest w (f (gets (Gpu.trace w))))
      by apply Hsrv.
    match goal with |- context [Gpu.retry_loop url rest ?w1] =>
      destruct (IH w1) as (w' & E & Ht); [exact Hsrv|] end.
    exists w'. split; [exact E|]. rewrite Ht. cbn [Gpu.trace].
    rewrite rate_limit_events_cons, gets_app, <- app_assoc.
    do 3 f_equal. cbn. lia.
Qed.

(** C2, as the code has it.  On a 429 answer [RequestManager.make_request]
    sleeps for the number of seconds the [Retry-After] header gives when
    that is a decimal integer [time.sleep] accepts, and for 30 seconds when
    the header is absent; it adds no exponential-backoff sleep.  It then
    goes on with what is left of the [range(MAX_RETRIES)] loop: the
    rate-limited attempt has used one of the [MAX_RETRIES] slots, so a URL
    that keeps answering 429 is requested exactly [MAX_RETRIES] times and
    the call returns [None]. *)
Theorem rate_limit_sleeps_and_uses_a_slot (url : string) (w : Gpu.World) :
  (∀ attempt rest seconds,
      rate_limited seconds (Gpu.server w url (gets (Gpu.trace w))) →
      Gpu.retry_loop url (attempt :: rest) w
      = Gpu.retry_loop url rest
          (Gpu.mkWorld (Gpu.server w)
             (Gpu.trace w ++ [EvGet url; EvSleep RateLimit (1000 * seconds)])
             (Gpu.clock w + 1000 * seconds) (Gpu.request_manager w) (Gpu.files w)))
  ∧ (∀ r, headers r !! "Retry-After" = None → Gpu.retry_after r = Some 30%Z)
  ∧ (∀ r v, headers r !! "Retry-After" = Some v → Gpu.retry_after r = Py.int v)
  ∧ (∀ f, (∀ n, rate_limited (f n) (Gpu.server w url n)) →
      ∃ pre w',
        Gpu.make_request url w = (None, w')
        ∧ Gpu.trace w'
          = Gpu.trace w ++ pre
              ++ rate_limit_events url f (gets (Gpu.trace w)) (seq 0 Gpu.MAX_RETRIES)
        ∧ gets pre = 0
        ∧ gets (Gpu.trace w') = gets (Gpu.trace w) + Gpu.MAX_RETRIES
        ∧ sleeps Backoff
            (pre ++ rate_limit_events url f (gets (Gpu.trace w)) (seq 0 Gpu.MAX_RETRIES))
          = []).
Proof.
  split; [intros attempt rest seconds H; apply retry_loop_rate_limited_step, H|].
  split; [intros r H; unfold Gpu.retry_after; rewrite H; reflexivity|].
  split; [intros r v H; unfold Gpu.retry_after; rewrite H; reflexivity|].
  intros f Hsrv.
  destruct (make_request_preamble url w) as (pre & w0 & E0 & Ht0 & Hg & Hb & _ & Hs0 & _).
  destruct (retry_loop_rate_limited url f (seq 0 Gpu.MAX_RETRIES) w0) as (w' & E & Ht).
  { intros n. rewrite Hs0. apply Hsrv. }
  assert (Hg0 : gets (Gpu.trace w0) = gets (Gpu.trace w)).
  { rewrite Ht0, gets_app, Hg. lia. }
  exists pre, w'. split; [rewrite E0; exact E|].
  split; [rewrite Ht, Hg0, Ht0, <- app_assoc; reflexivity|].
  split; [exact Hg|].
  split.
  { rewrite Ht, gets_app, gets_rate_limit_events, length_seq, Hg0. reflexivity. }
  rewrite sleeps_app, Hb, sleeps_backoff_rate_limit_events. reflexivity.
Qed.

(** A site that always answers 429 without the header: three requests,
    thirty seconds after each, and [None]. *)
Example rate_limited_without_header :
  (Gpu.make_request "http://literature.awgp.org/v10.1" w_429_bare).1 = None
  ∧ Gpu.trace (Gpu.make_request "http://literature.awgp.org/v10.1" w_429_bare).2
    = [EvGet "http://literature.awgp.org/v10.1"; EvSleep RateLimit 30000;
       EvGet "http://literature.awgp.org/v10.1"; EvSleep RateLimit 30000;
       EvGet "http://literature.awgp.org/v10.1"; EvSleep RateLimit 30000].
Proof. split; reflexivity. Qed.

(** C2 as stated fails.  Against a site that answers 429 with
    [Retry-After: 5] three times and would then serve the page, the call
    gives up with [None] after three requests: each 429 used a slot.
    Against a site whose [Retry-After] is a date, no 30-second sleep is
    made: the sleeps are the exponential ones of 1, 2 and 4 seconds. *)
Lemma rate_limit_consumes_retry_slots :
  (∃ r, Gpu.server w_429_then_ok "http://literature.awgp.org/v10.1" 3 = Resp r
        ∧ status_code r = 200%Z)
  ∧ (Gpu.make_request "http://literature.awgp.org/v10.1" w_429_then_ok).1 = None
  ∧ Gpu.trace (Gpu.make_request "http://literature.awgp.org/v10.1" w_429_then_ok).2
    = [EvGet "http://literature.awgp.org/v10.1"; EvSleep RateLimit 5000;
       EvGet "http://literature.awgp.org/v10.1"; EvSleep RateLimit 5000;
       EvGet "http://literature.awgp.org/v10.1"; EvSleep RateLimit 5000]
  ∧ Gpu.trace (Gpu.make_request "http://literature.awgp.org/v10.1" w_429_date).2
    = [EvGet "http://literature.awgp.org/v10.1"; EvSleep Backoff 1000;
       EvGet "http://literature.awgp.org/v10.1"; EvSleep Backoff 2000;
       EvGet "http://literature.awgp.org/v10.1"; EvSleep Backoff 4000].
Proof.
  split; [eexists; split; reflexivity|].
  split; [reflexivity|]. split; reflexivity.
Qed.

(** ** Content extraction *)

(** The selector loop returns the first qualifying hit when there is one. *)
Lemma select_content_first soup before selector after content c :
  Forall (fun s => qualifies soup s = false) before →
  select_one soup selector = Some c →
  text_longer 100 c = true →
  select_content soup (before ++ selector :: after) content = Some c.
Proof.
  intros Hb Hs Hl. revert content.
  induction Hb as [|s before Hq _ IH]; intros content; cbn [select_content app].
  - rewrite Hs, Hl. reflexivity.
  - unfold qualifies in Hq. destruct (select_one soup s) as [c'|].
    + rewrite Hq. apply IH.
    + apply IH.
Qed.

(** When no selector qualifies, the loop ends with what the last selector
    returned. *)
Lemma select_content_none soup selectors last content :
  Forall (fun s => qualifies soup s = false) (selectors ++ [last]) →
  select_content soup (selectors ++ [last]) content = select_one soup last.
Proof.
  revert content. induction selectors as [|s selectors IH]; intros content Hq;
    cbn [select_content app] in *.
  - apply Forall_inv in Hq. unfold qualifies in Hq.
    destruct (select_one soup last) as [c|]; [rewrite Hq|]; reflexivity.
  - pose proof (Forall_inv Hq) as Hs. apply Forall_inv_tail in Hq.
    unfold qualifies in Hs. destruct (select_one soup s) as [c|].
    + rewrite Hs. apply IH, Hq.
    + apply IH, Hq.
Qed.

(** The fallback is only reached when the last selector found nothing. *)
Lemma find_content_fallback soup selectors last :
  Forall (fun s => qualifies soup s = false) (selectors ++ [last]) →
  find_content (selectors ++ [last]) soup
  = match select_one soup last with
    | Some c => Some c
    | None => largest_block soup
    end.
Proof.
  intros Hq. unfold find_content. rewrite select_content_none by exact Hq. reflexivity.
Qed.

Lemma max_by_len_spec best blocks :
  (max_by_len best blocks = best ∨ In (max_by_len best blocks) blocks)
  ∧ Py.len (stripped_text best)
    ≤ Py.len (stripped_text (max_by_len best blocks))
  ∧ Forall (fun t => Py.len (stripped_text t)
                     ≤ Py.len (stripped_text (max_by_len best blocks))) blocks.
Proof.
  revert best. induction blocks as [|t rest IH]; intros best; cbn [max_by_len].
  - repeat split; [left; reflexivity | lia | constructor].
  - destruct (Nat.ltb_spec (Py.len (stripped_text best))
                           (Py.len (stripped_text t))) as [Hlt|Hge].
    + destruct (IH t) as (Hin & Hle & Hall). repeat split.
      * destruct Hin as [Hin|Hin]; [right; left; symmetry; exact Hin | right; right; exact Hin].
      * lia.
      * constructor; assumption.
    + destruct (IH best) as (Hin & Hle & Hall). repeat split.
      * destruct Hin as [Hin|Hin]; [left; exact Hin | right; right; exact Hin].
      * exact Hle.
      * constructor; [lia | exact Hall].
Qed.

(** The fallback picks a block of more than 500 characters that no other
    such block exceeds, and nothing when there is no such block. *)
Lemma largest_block_spec soup :
  match largest_block soup with
  | Some m =>
      In m (text_blocks soup) ∧ text_longer 500 m = true
      ∧ ∀ t, In t (text_blocks soup) → text_longer 500 t = true →
             Py.len (stripped_text t) ≤ Py.len (stripped_text m)
  | None => ∀ t, In t (text_blocks soup) → text_longer 500 t = false
  end.
Proof.
  unfold largest_block.
  destruct (List.filter (text_longer 500) (text_blocks soup)) as [|b bs] eqn:E.
  - intros t Hin. destruct (text_longer 500 t) eqn:Ht; [|reflexivity].
    assert (In t []) as []. rewrite <- E. apply List.filter_In. split; assumption.
  - destruct (max_by_len_spec b bs) as (Hin & Hle & Hall).
    assert (Hm : In (max_by_len b bs) (b :: bs)).
    { destruct Hin as [Hin|Hin]; [left; symmetry; exact Hin | right; exact Hin]. }
    rewrite <- E in Hm. apply List.filter_In in Hm. destruct Hm as [Hm1 Hm2].
    repeat split; [exact Hm1 | exact Hm2 |].
    intros t Ht1 Ht2.
    assert (Ht : In t (b :: bs)) by (rewrite <- E; apply List.filter_In; split; assumption).
    destruct Ht as [<-|Ht]; [exact Hle|].
    rewrite List.Forall_forall in Hall. apply Hall, Ht.
Qed.

(** C9 at the failing input.  On a page whose only selector hit is a
    [<main>] of four characters and which has a block of 600 characters,
    no selector qualifies and the longest block exists, yet both scripts
    return the short element the last selector of their chain found:
    the loop variable still holds it when the fallback test is made.  With
    no block at all the result is that short element too, not [None]. *)
Theorem selector_chain_keeps_short_last_hit :
  Forall (fun s => qualifies soup_short_main s = false) Final.content_selectors
  ∧ largest_block soup_short_main = Some (plain_tag (filler "x" 600))
  ∧ find_content Final.content_selectors soup_short_main = Some (plain_tag "Menu")
  ∧ Forall (fun s => qualifies soup_short_entry s = false) Gpu.content_selectors
  ∧ find_content Gpu.content_selectors soup_short_entry = Some (plain_tag "Menu")
  ∧ largest_block soup_only_short_main = None
  ∧ find_content Final.content_selectors soup_only_short_main = Some (plain_tag "Menu").
Proof.
  split; [repeat constructor|].
  split; [vm_compute; reflexivity|].
  split; [reflexivity|].
  split; [repeat constructor|].
  split; [reflexivity|].
  split; reflexivity.
Qed.

(** ** Texts *)

Lemma str_app_assoc (s1 s2 s3 : string) : (s1 +:+ s2) +:+ s3 = s1 +:+ (s2 +:+ s3).
Proof.
  induction s1 as [|c s1 IH]; [reflexivity|].
  change (String c ((s1 +:+ s2) +:+ s3) = String c (s1 +:+ s2 +:+ s3)).
  rewrite IH. reflexivity.
Qed.

Lemma str_app_empty_r (s : string) : s +:+ "" = s.
Proof.
  induction s as [|c s IH]; [reflexivity|].
  change (String c (s +:+ "") = String c s). rewrite IH. reflexivity.
Qed.

Lemma str_app_empty (s1 s2 : string) : s1 +:+ s2 = "" ↔ s1 = "" ∧ s2 = "".
Proof.
  destruct s1 as [|c s1].
  - change ("" +:+ s2) with s2.
    split; [intros ->; split; reflexivity | intros [_ ->]; reflexivity].
  - change (String c s1 +:+ s2) with (String c (s1 +:+ s2)).
    split; [discriminate | intros [H _]; discriminate].
Qed.

Lemma page_marker_nonempty n : page_marker n ≠ "".
Proof. unfold page_marker. vm_compute. discriminate. Qed.

Lemma saved_app (t1 t2 : list Event) : saved (t1 ++ t2) = saved t1 ++ saved t2.
Proof.
  induction t1 as [|e t1 IH]; [reflexivity|].
  destruct e; cbn; rewrite ?IH; reflexivity.
Qed.

(** ** The sequential client of [final_scrapping.py] *)

(** One call is one request: a pause may come first, nothing is written. *)
Lemma final_make_request_spec url w :
  ∃ pre w',
    Final.make_request url w = (ok_response (Final.server w url (gets (Final.trace w))), w')
    ∧ Final.trace w' = Final.trace w ++ pre ++ [EvGet url]
    ∧ gets pre = 0 ∧ saved pre = []
    ∧ Final.server w' = Final.server w
    ∧ Final.files w' = Final.files w.
Proof.
  unfold Final.make_request, bind, Final.bump_counter, Final.http_get.
  destruct (S (Final.request_counter w) mod Final.DELAY_AFTER_REQUESTS =? 0)%nat.
  - exists [EvSleep Pause (1000 * Final.DELAY_SECONDS)]. cbn -[gets].
    rewrite gets_app, Nat.add_0_r.
    destruct (Final.server w url (gets (Final.trace w))) as [r|]; cbn -[gets];
      [destruct (status_code r =? 200)%Z|]; eexists;
      (split; [reflexivity|]); cbn; rewrite <- ?app_assoc; repeat split.
  - exists []. cbn -[gets].
    destruct (Final.server w url (gets (Final.trace w))) as [r|]; cbn -[gets];
      [destruct (status_code r =? 200)%Z|]; eexists;
      (split; [reflexivity|]); cbn; repeat split.
Qed.

(** ** The sequential text job *)

(** Looking for the content of the pages sends one request per page and
    writes nothing. *)
Lemma final_page_contents_inv pages w :
  ∃ added,
    Final.trace (final_page_contents pages w).2 = Final.trace w ++ added
    ∧ gets added = length pages
    ∧ saved added = []
    ∧ Final.server (final_page_contents pages w).2 = Final.server w
    ∧ Final.files (final_page_contents pages w).2 = Final.files w
    ∧ length (final_page_contents pages w).1 = length pages.
Proof.
  revert w. induction pages as [|page_url rest IH]; intros w.
  - exists []. cbn. rewrite app_nil_r. repeat split.
  - cbn [final_page_contents]. unfold bind.
    destruct (final_make_request_spec page_url w)
      as (pre & w1 & E & Ht & Hg & Hsv & Hs & Hf).
    rewrite E.
    pose proof (IH w1) as (added & Ht' & Hg' & Hsv' & Hs' & Hf' & Hl').
    destruct (final_page_contents rest w1) as [cs w2]. cbn [fst snd ret length] in *.
    exists (pre ++ [EvGet page_url] ++ added).
    split; [rewrite Ht', Ht, <- !app_assoc; reflexivity|].
    split; [rewrite !gets_app, Hg, Hg'; reflexivity|].
    split; [rewrite !saved_app, Hsv, Hsv'; reflexivity|].
    split; [congruence|]. split; [congruence|]. lia.
Qed.

Lemma final_page_contents_cons page_url rest w :
  final_page_contents (page_url :: rest) w
  = (match (Final.make_request page_url w).1 with
     | Some r => find_content Final.content_selectors (body r)
     | None => None
     end :: (final_page_contents rest (Final.make_request page_url w).2).1,
     (final_page_contents rest (Final.make_request page_url w).2).2).
Proof.
  cbn [final_page_contents]. unfold bind.
  destruct (Final.make_request page_url w) as [response w1]. cbn [fst snd].
  destruct (final_page_contents rest w1) as [cs w2]. reflexivity.
Qed.

(** The page loop appends the contributions of the pages in page order and
    reports whether one of them had content. *)
Lemma text_pages_spec pages i all_text content_found w :
  Final.text_pages i pages all_text content_found w
  = ((all_text +:+ join (contributions (i + 1) (final_page_contents pages w).1),
      content_found || existsb has_content (final_page_contents pages w).1),
     (final_page_contents pages w).2).
Proof.
  revert i all_text content_found w.
  induction pages as [|page_url rest IH]; intros i all_text content_found w.
  - cbn. rewrite str_app_empty_r, orb_false_r. reflexivity.
  - rewrite final_page_contents_cons. cbn [Final.text_pages fst snd]. unfold bind.
    destruct (Final.make_request page_url w) as [response w1]. cbn [fst snd].
    replace (i + 1) with (S i) by lia.
    destruct response as [r|];
      [destruct (find_content Final.content_selectors (body r)) as [c|]|];
      rewrite IH; replace (S i + 1) with (S (S i)) by lia;
      cbn [contributions contribution join foldr existsb has_content orb].
    + rewrite !str_app_assoc, orb_true_r. reflexivity.
    + reflexivity.
    + reflexivity.
Qed.

Lemma join_empty parts : join parts = "" ↔ Forall (fun s => s = "") parts.
Proof.
  induction parts as [|s parts IH]; cbn [join foldr].
  - split; [constructor | reflexivity].
  - fold (join parts). rewrite str_app_empty, IH. split.
    + intros [-> H]. constructor; [reflexivity | exact H].
    + intros H. split; [apply (Forall_inv H) | apply (Forall_inv_tail H)].
Qed.

(** A page has content exactly when what it adds is not empty. *)
Lemma contributions_content n cs :
  existsb has_content cs = true ↔ ∃ s, In s (contributions n cs) ∧ s ≠ "".
Proof.
  revert n. induction cs as [|c cs IH]; intros n; cbn [existsb contributions].
  - split; [discriminate | intros (s & [] & _)].
  - rewrite orb_true_iff, (IH (S n)). split.
    + intros [Hc|(s & Hin & Hne)].
      * destruct c as [c|]; [|discriminate].
        eexists. split; [left; reflexivity|]. cbn [contribution].
        intros H. apply str_app_empty in H. destruct H as [H _].
        exact (page_marker_nonempty _ H).
      * exists s. split; [right; exact Hin | exact Hne].
    + intros (s & [Hs|Hin] & Hne).
      * left. destruct c as [c|]; [reflexivity|]. cbn in Hs. congruence.
      * right. exists s. split; assumption.
Qed.

(** ** The sequential image job *)

Lemma final_extends_refl w : final_extends w w.
Proof. split; [reflexivity|]. exists []. rewrite app_nil_r. reflexivity. Qed.

Lemma final_extends_trans w1 w2 w3 :
  final_extends w1 w2 → final_extends w2 w3 → final_extends w1 w3.
Proof.
  intros [Hs1 [a1 Ht1]] [Hs2 [a2 Ht2]]. split; [congruence|].
  exists (a1 ++ a2). rewrite Ht2, Ht1, app_assoc. reflexivity.
Qed.

Lemma final_make_request_extends url w : final_extends w (Final.make_request url w).2.
Proof.
  destruct (final_make_request_spec url w) as (pre & w1 & E & Ht & _ & _ & Hs & _).
  rewrite E. cbn. split; [exact Hs|]. eexists. exact Ht.
Qed.

Lemma final_save_extends path data w : final_extends w (Final.save path data w).2.
Proof. split; [reflexivity|]. eexists. reflexivity. Qed.

Lemma final_frame_images_extends urljoin output_dir frame_url page_index j images :
  ∀ k w, final_extends w
           (Final.frame_images urljoin output_dir frame_url page_index j k images w).2.
Proof.
  induction images as [|img rest IH]; intros k w; cbn [Final.frame_images].
  - apply final_extends_refl.
  - destruct (img !! "src") as [src|]; [|apply IH].
    unfold bind.
    pose proof (final_make_request_extends (urljoin frame_url src) w) as H1.
    destruct (Final.make_request (urljoin frame_url src) w) as [[r|] w1]; cbn [snd] in H1.
    + match goal with |- context [Final.save ?p ?d w1] =>
        pose proof (final_save_extends p d w1) as H2;
        destruct (Final.save p d w1) as [[] w2] end.
      cbn [snd] in H2. pose proof (IH (S k) w2) as H3.
      destruct (Final.frame_images urljoin output_dir frame_url page_index j (S k) rest w2)
        as [n w3]. cbn [snd ret] in *.
      eapply final_extends_trans; [exact H1|].
      eapply final_extends_trans; [exact H2 | exact H3].
    + eapply final_extends_trans; [exact H1 | apply IH].
Qed.

Lemma final_page_frames_extends urljoin output_dir page_url page_index frs :
  ∀ j w, final_extends w
           (Final.page_frames urljoin output_dir page_url page_index j frs w).2.
Proof.
  induction frs as [|frame rest IH]; intros j w; cbn [Final.page_frames].
  - apply final_extends_refl.
  - destruct (frame !! "src") as [src|]; [|apply IH].
    unfold bind.
    pose proof (final_make_request_extends (urljoin page_url src) w) as H1.
    destruct (Final.make_request (urljoin page_url src) w) as [[r|] w1]; cbn [snd] in H1.
    + pose proof (final_frame_images_extends urljoin output_dir (urljoin page_url src)
                    page_index j (imgs (body r)) 0 w1) as H2.
      destruct (Final.frame_images urljoin output_dir (urljoin page_url src) page_index j 0
                  (imgs (body r)) w1) as [n w2]. cbn [snd] in H2.
      pose proof (IH (S j) w2) as H3.
      destruct (Final.page_frames urljoin output_dir page_url page_index (S j) rest w2)
        as [m w3]. cbn [snd ret] in *.
      eapply final_extends_trans; [exact H1|].
      eapply final_extends_trans; [exact H2 | exact H3].
    + eapply final_extends_trans; [exact H1 | apply IH].
Qed.

Lemma final_page_images_extends urljoin output_dir page_url page_index images :
  ∀ i w, final_extends w
           (Final.page_images urljoin output_dir page_url page_index i images w).2.
Proof.
  induction images as [|img rest IH]; intros i w; cbn [Final.page_images].
  - apply final_extends_refl.
  - destruct (img !! "src") as [src|]; [|apply IH].
    destruct (denylisted src); [apply IH|].
    destruct (negb (Final.is_large_image img)); [apply IH|].
    unfold bind.
    pose proof (final_make_request_extends (urljoin page_url src) w) as H1.
    destruct (Final.make_request (urljoin page_url src) w) as [[r|] w1]; cbn [snd] in H1.
    + match goal with |- context [Final.save ?p ?d w1] =>
        pose proof (final_save_extends p d w1) as H2;
        destruct (Final.save p d w1) as [[] w2] end.
      cbn [snd] in H2. pose proof (IH (S i) w2) as H3.
      destruct (Final.page_images urljoin output_dir page_url page_index (S i) rest w2)
        as [n w3]. cbn [snd ret] in *.
      eapply final_extends_trans; [exact H1|].
      eapply final_extends_trans; [exact H2 | exact H3].
    + eapply final_extends_trans; [exact H1 | apply IH].
Qed.

Lemma final_scan_page_extends urljoin output_dir page_url page_index w :
  final_extends w (Final.scan_page urljoin output_dir page_url page_index w).2.
Proof.
  unfold Final.scan_page, bind.
  pose proof (final_make_request_extends page_url w) as H1.
  destruct (Final.make_request page_url w) as [[r|] w1]; cbn [snd ret] in *; [|exact H1].
  pose proof (final_page_images_extends urljoin output_dir page_url page_index
                (imgs (body r)) 0 w1) as H2.
  destruct (Final.page_images urljoin output_dir page_url page_index 0 (imgs (body r)) w1)
    as [n w2]. cbn [snd] in H2.
  destruct (n =? 0).
  - eapply final_extends_trans; [exact H1|].
    eapply final_extends_trans; [exact H2 | apply final_page_frames_extends].
  - cbn. eapply final_extends_trans; [exact H1 | exact H2].
Qed.

Lemma final_scan_pages_extends urljoin output_dir pages :
  ∀ page_index w,
    final_extends w (Final.scan_pages urljoin output_dir page_index pages w).2.
Proof.
  induction pages as [|page_url rest IH]; intros page_index w; cbn [Final.scan_pages].
  - apply final_extends_refl.
  - unfold bind.
    pose proof (final_scan_page_extends urljoin output_dir page_url page_index w) as H1.
    destruct (Final.scan_page urljoin output_dir page_url page_index w) as [n w1].
    pose proof (IH (S page_index) w1) as H2.
    destruct (Final.scan_pages urljoin output_dir (S page_index) rest w1) as [m w2].
    cbn [snd ret] in *. eapply final_extends_trans; [exact H1 | exact H2].
Qed.

Lemma final_pagination_head url max_pages :
  ∃ tail, Final.get_pagination_links url max_pages = url :: tail.
Proof.
  unfold Final.get_pagination_links.
  destruct (Re.search_versioned url); eexists; reflexivity.
Qed.

(** The image job begins by requesting the URL it was given. *)
Lemma final_download_scan_images_starts urljoin url output_dir w :
  ∃ pre rest,
    Final.trace (Final.download_scan_images urljoin url output_dir w).2
    = Final.trace w ++ pre ++ EvGet url :: rest
    ∧ gets pre = 0 ∧ saved pre = [].
Proof.
  unfold Final.download_scan_images, bind.
  destruct (final_pagination_head url 2) as [tail ->].
  cbn [Final.scan_pages]. unfold bind.
  assert (H : ∃ pre rest,
    Final.trace (Final.scan_page urljoin output_dir url 0 w).2
    = Final.trace w ++ pre ++ EvGet url :: rest ∧ gets pre = 0 ∧ saved pre = []).
  { unfold Final.scan_page, bind.
    destruct (final_make_request_spec url w) as (pre & w1 & E & Ht & Hg & Hsv & _).
    rewrite E. destruct (ok_response _) as [r|]; cbn [snd ret].
    - pose proof (final_page_images_extends urljoin output_dir url 0 (imgs (body r)) 0 w1)
        as H2.
      destruct (Final.page_images urljoin output_dir url 0 0 (imgs (body r)) w1) as [n w2].
      cbn [snd] in H2.
      destruct (n =? 0).
      + pose proof (final_page_frames_extends urljoin output_dir url 0
                      (frames (body r)) 0 w2) as H3.
        destruct (final_extends_trans _ _ _ H2 H3) as [_ [added Ha]].
        exists pre, added. rewrite Ha, Ht, <- !app_assoc. repeat split; assumption.
      + destruct H2 as [_ [added Ha]]. cbn [ret snd].
        exists pre, added. rewrite Ha, Ht, <- !app_assoc. repeat split; assumption.
    - exists pre, []. rewrite Ht. repeat split; assumption. }
  destruct H as (pre & rest & Ht & Hg & Hsv).
  destruct (Final.scan_page urljoin output_dir url 0 w) as [n w1]. cbn [snd] in Ht.
  pose proof (final_scan_pages_extends urljoin output_dir tail 1 w1) as [_ [added Ha]].
  destruct (Final.scan_pages urljoin output_dir 1 tail w1) as [m w2]. cbn [snd ret] in *.
  exists pre, (rest ++ added). rewrite Ha, Ht, <- !app_assoc. repeat split; assumption.
Qed.

(** The text job in one equation: the file is written exactly when a page
    had content, and it then holds the contributions in page order. *)
Lemma final_download_text_content_spec url output_file w :
  Final.download_text_content url output_file w
  = if existsb has_content (final_page_contents (Final.get_pagination_links url 3) w).1
    then (true,
          (Final.save output_file
             (join (contributions 1
                      (final_page_contents (Final.get_pagination_links url 3) w).1))
             (final_page_contents (Final.get_pagination_links url 3) w).2).2)
    else (false, (final_page_contents (Final.get_pagination_links url 3) w).2).
Proof.
  unfold Final.download_text_content, bind. rewrite text_pages_spec.
  cbn [orb Nat.add]. change ("" +:+ ?s) with s.
  destruct (existsb has_content _); reflexivity.
Qed.

Lemma final_month_text_failed year month versions url w :
  v_text versions = Some url →
  truthy (v_text versions) = true →
  Final.files w !! Final.text_file year month = None →
  (Final.download_text_content url (Final.text_file year month) w).1 = false →
  Final.month_text year month versions w
  = ((false, None, false),
     (final_page_contents (Final.get_pagination_links url 3) w).2).
Proof.
  intros Hv Ht Hf Hd. unfold Final.month_text. rewrite Ht, Hv. cbn [default].
  unfold bind, Final.exists_file. rewrite Hf.
  rewrite bool_decide_eq_false_2 by (intros [x Hx]; discriminate).
  rewrite final_download_text_content_spec in Hd |- *.
  destruct (existsb has_content _); [discriminate | reflexivity].
Qed.

(** What the text job of [final_scrapping.py] returns.  It returns [True]
    exactly when some page had a content element; the contribution of such
    a page begins with its page marker, so it is never empty even when the
    element has no text.  When it returns [False], no file is written; the
    month body of [main] then records [has_text = False], attempts the
    image job with the scan link when there is one (and takes [has_scan]
    from it), and goes on to record the month: the failure ends nothing. *)
Lemma final_text_job_result (urljoin : string → string → string)
    (url output_file : string) (w : Final.World) :
  let cs := (final_page_contents (Final.get_pagination_links url 3) w).1 in
  let w1 := (final_page_contents (Final.get_pagination_links url 3) w).2 in
  ((Final.download_text_content url output_file w).1 = true
   ↔ ∃ s, In s (contributions 1 cs) ∧ s ≠ "")
  ∧ ((Final.download_text_content url output_file w).1 = false →
     Final.download_text_content url output_file w = (false, w1)
     ∧ Final.files w1 = Final.files w
     ∧ saved (Final.trace w1) = saved (Final.trace w))
  ∧ (∀ year month versions,
       v_text versions = Some url →
       truthy (v_text versions) = true →
       output_file = Final.text_file year month →
       Final.files w !! output_file = None →
       (Final.download_text_content url output_file w).1 = false →
       has_text (Final.process_month urljoin year month versions w).1 = false
       ∧ text_source (Final.process_month urljoin year month versions w).1 = None
       ∧ (truthy (v_scan versions) = true →
          let scan := Final.download_scan_images urljoin (default "" (v_scan versions))
                        (Final.scan_dir year month) w1 in
          Final.process_month urljoin year month versions w
          = (mkMonthMetadata year month false scan.1 None
               (if scan.1 then v_scan versions else None), scan.2)
          ∧ ∃ pre rest,
              Final.trace (Final.process_month urljoin year month versions w).2
              = Final.trace w1 ++ pre ++ EvGet (default "" (v_scan versions)) :: rest
              ∧ gets pre = 0)
       ∧ (truthy (v_scan versions) = false →
          Final.process_month urljoin year month versions w
          = (mkMonthMetadata year month false false None None, w1))
       ∧ (∀ dumps metadata,
            ∃ months,
              (Final.month_body urljoin dumps year metadata (month, versions) w).1
                !! Py.str year = Some months
              ∧ months !! month
                = Some (Final.process_month urljoin year month versions w).1)).
Proof.
  intros cs w1. subst cs w1.
  split.
  { rewrite final_download_text_content_spec, <- contributions_content.
    destruct (existsb has_content _); cbn; split; congruence. }
  split.
  { intros Hd. rewrite final_download_text_content_spec in Hd |- *.
    destruct (existsb has_content _); [discriminate|].
    destruct (final_page_contents_inv (Final.get_pagination_links url 3) w)
      as (added & Ht & _ & Hsv & _ & Hf & _).
    split; [reflexivity|]. split; [exact Hf|].
    rewrite Ht, saved_app, Hsv, app_nil_r. reflexivity. }
  intros year month versions Hv Ht -> Hf Hd.
  pose proof (final_month_text_failed year month versions url w Hv Ht Hf Hd) as Hm.
  assert (Hscan : truthy (v_scan versions) = true →
    Final.process_month urljoin year month versions w
    = (mkMonthMetadata year month false
         (Final.download_scan_images urljoin (default "" (v_scan versions))
            (Final.scan_dir year month)
            (final_page_contents (Final.get_pagination_links url 3) w).2).1 None
         (if (Final.download_scan_images urljoin (default "" (v_scan versions))
                (Final.scan_dir year month)
                (final_page_contents (Final.get_pagination_links url 3) w).2).1
          then v_scan versions else None),
       (Final.download_scan_images urljoin (default "" (v_scan versions))
          (Final.scan_dir year month)
          (final_page_contents (Final.get_pagination_links url 3) w).2).2)).
  { intros Hs. unfold Final.process_month, bind. rewrite Hm, Hs. cbn [negb andb].
    destruct (Final.download_scan_images _ _ _ _) as [[|] w2]; reflexivity. }
  assert (Hnoscan : truthy (v_scan versions) = false →
    Final.process_month urljoin year month versions w
    = (mkMonthMetadata year month false false None None,
       (final_page_contents (Final.get_pagination_links url 3) w).2)).
  { intros Hs. unfold Final.process_month, bind. rewrite Hm, Hs. reflexivity. }
  assert (Hmeta : has_text (Final.process_month urljoin year month versions w).1 = false
                  ∧ text_source (Final.process_month urljoin year month versions w).1 = None).
  { destruct (truthy (v_scan versions)) eqn:Hs.
    - rewrite (Hscan eq_refl). split; reflexivity.
    - rewrite (Hnoscan eq_refl). split; reflexivity. }
  split; [apply Hmeta|]. split; [apply Hmeta|].
  split.
  { intros Hs. cbn zeta. split; [exact (Hscan Hs)|].
    rewrite (Hscan Hs). cbn [snd].
    destruct (final_download_scan_images_starts urljoin (default "" (v_scan versions))
                (Final.scan_dir year month)
                (final_page_contents (Final.get_pagination_links url 3) w).2)
      as (pre & rest & Htr & Hg & _).
    exists pre, rest. split; assumption. }
  split; [exact Hnoscan|].
  intros dumps metadata. unfold Final.month_body, bind. cbn [fst snd].
  destruct (Final.process_month urljoin year month versions w) as [m w2].
  cbn [fst snd ret Final.save]. unfold Final.record_month.
  eexists. rewrite lookup_insert_eq. split; [reflexivity|].
  rewrite lookup_insert_eq. reflexivity.
Qed.

(** C8 at the failing input.  Every page of the issue has an empty
    [<main>] as its only selector hit and no block: no page has any text.
    The text job of [final_scrapping.py] nevertheless returns [True] and
    writes a file that holds the three page markers and nothing else, and
    the month body of [main] records [has_text = True] without trying the
    scan link the month has.  The empty element is accepted because the
    selector loop leaves its last hit in [content]. *)
Theorem text_job_succeeds_without_content :
  find_content Final.content_selectors soup_empty_main = Some (plain_tag "")
  ∧ clean_text (plain_tag "") = ""
  ∧ Forall (fun s => qualifies soup_empty_main s = false) Final.content_selectors
  ∧ largest_block soup_empty_main = None
  ∧ (Final.download_text_content
       "http://literature.awgp.org/hindi/akhandjyoti/1950/v10.1" "out.txt"
       final_empty_pages).1 = true
  ∧ Final.files (Final.download_text_content
                   "http://literature.awgp.org/hindi/akhandjyoti/1950/v10.1" "out.txt"
                   final_empty_pages).2 !! "out.txt"
    = Some (page_marker "1" +:+ page_marker "2" +:+ page_marker "3")
  ∧ has_text (Final.process_month (fun _ src => src) 1950 "January" both_links
                final_empty_pages).1 = true
  ∧ has_scan (Final.process_month (fun _ src => src) 1950 "January" both_links
                final_empty_pages).1 = false
  ∧ gets (Final.trace (Final.process_month (fun _ src => src) 1950 "January" both_links
                         final_empty_pages).2) = 3
  ∧ ¬ In (EvGet "http://literature.awgp.org/hindi/akhandjyoti/1950/scan/v10.1")
         (Final.trace (Final.process_month (fun _ src => src) 1950 "January" both_links
                         final_empty_pages).2).
Proof.
  split; [reflexivity|]. split; [reflexivity|].
  split; [repeat constructor|]. split; [reflexivity|].
  split; [vm_compute; reflexivity|]. split; [vm_compute; reflexivity|].
  split; [vm_compute; reflexivity|]. split; [vm_compute; reflexivity|].
  split; [vm_compute; reflexivity|].
  vm_compute. intros H. repeat (destruct H as [H|H]; [discriminate H|]). exact H.
Qed.

(** ** Resuming *)

Lemma final_process_month_present urljoin year month versions w :
  truthy (v_text versions) = true →
  is_Some (Final.files w !! Final.text_file year month) →
  Final.process_month urljoin year month versions w
  = (mkMonthMetadata year month true false (v_text versions) None, w).
Proof.
  intros Ht Hf. unfold Final.process_month, Final.month_text, bind, Final.exists_file.
  rewrite Ht, bool_decide_eq_true_2 by exact Hf. reflexivity.
Qed.

Lemma gpu_process_month_present urljoin md5_hex8 order year month versions w :
  truthy (v_text versions) = true →
  is_Some (Gpu.files w !! Gpu.text_file year month) →
  Gpu.process_month urljoin md5_hex8 order year month versions w
  = (mkMonthMetadata year month true false (v_text versions) None, w).
Proof.
  intros Ht Hf. unfold Gpu.process_month, Gpu.month_text, bind, Gpu.exists_file.
  rewrite Ht, bool_decide_eq_true_2 by exact Hf. reflexivity.
Qed.

(** The month body by cases. *)
Lemma final_month_text_cases year month versions w :
  Final.month_text year month versions w
  = if truthy (v_text versions) then
      if bool_decide (is_Some (Final.files w !! Final.text_file year month))
      then ((true, v_text versions, true), w)
      else
        if (Final.download_text_content (default "" (v_text versions))
              (Final.text_file year month) w).1
        then ((true, v_text versions, true),
              (Final.download_text_content (default "" (v_text versions))
                 (Final.text_file year month) w).2)
        else ((false, None, false),
              (Final.download_text_content (default "" (v_text versions))
                 (Final.text_file year month) w).2)
    else ((false, None, false), w).
Proof.
  unfold Final.month_text, bind, Final.exists_file.
  destruct (truthy (v_text versions)); [|reflexivity].
  destruct (bool_decide _); [reflexivity|].
  destruct (Final.download_text_content _ _ w) as [[|] w1]; reflexivity.
Qed.

Lemma final_process_month_cases urljoin year month versions w :
  Final.process_month urljoin year month versions w
  = let t := Final.month_text year month versions w in
    if negb t.1.2 && truthy (v_scan versions) then
      let scan := Final.download_scan_images urljoin (default "" (v_scan versions))
                    (Final.scan_dir year month) t.2 in
      (mkMonthMetadata year month t.1.1.1 scan.1 t.1.1.2
         (if scan.1 then v_scan versions else None), scan.2)
    else (mkMonthMetadata year month t.1.1.1 false t.1.1.2 None, t.2).
Proof.
  unfold Final.process_month, bind.
  destruct (Final.month_text year month versions w) as [[[ht ts] td] w1]. cbn [fst snd].
  destruct (negb td && truthy (v_scan versions)); [|reflexivity].
  destruct (Final.download_scan_images _ _ _ w1) as [[|] w2]; reflexivity.
Qed.

Lemma gpu_month_text_cases order year month versions w :
  Gpu.month_text order year month versions w
  = if truthy (v_text versions) then
      if bool_decide (is_Some (Gpu.files w !! Gpu.text_file year month))
      then ((true, v_text versions, true), w)
      else
        if (Gpu.download_text_content order (default "" (v_text versions))
              (Gpu.text_file year month) w).1
        then ((true, v_text versions, true),
              (Gpu.download_text_content order (default "" (v_text versions))
                 (Gpu.text_file year month) w).2)
        else ((false, None, false),
              (Gpu.download_text_content order (default "" (v_text versions))
                 (Gpu.text_file year month) w).2)
    else ((false, None, false), w).
Proof.
  unfold Gpu.month_text, bind, Gpu.exists_file.
  destruct (truthy (v_text versions)); [|reflexivity].
  destruct (bool_decide _); [reflexivity|]. cbn [negb].
  destruct (Gpu.download_text_content _ _ _ w) as [[|] w1]; reflexivity.
Qed.

Lemma gpu_process_month_cases urljoin md5_hex8 order year month versions w :
  Gpu.process_month urljoin md5_hex8 order year month versions w
  = let t := Gpu.month_text order year month versions w in
    if negb t.1.2 && truthy (v_scan versions) then
      let scan := Gpu.download_scan_images urljoin md5_hex8 order
                    (default "" (v_scan versions)) (Gpu.scan_dir year month) t.2 in
      (mkMonthMetadata year month t.1.1.1 scan.1 t.1.1.2
         (if scan.1 then v_scan versions else None), scan.2)
    else (mkMonthMetadata year month t.1.1.1 false t.1.1.2 None, t.2).
Proof.
  unfold Gpu.process_month, bind.
  destruct (Gpu.month_text order year month versions w) as [[[ht ts] td] w1]. cbn [fst snd].
  destruct (negb td && truthy (v_scan versions)); [|reflexivity].
  destruct (Gpu.download_scan_images _ _ _ _ _ w1) as [[|] w2]; reflexivity.
Qed.

(** A month recorded with text has its text file on disk, and its record
    is the one a run that finds the file makes. *)
Lemma final_has_text_file urljoin year month versions w :
  has_text (Final.process_month urljoin year month versions w).1 = true →
  truthy (v_text versions) = true
  ∧ is_Some (Final.files (Final.process_month urljoin year month versions w).2
               !! Final.text_file year month)
  ∧ (Final.process_month urljoin year month versions w).1
    = mkMonthMetadata year month true false (v_text versions) None.
Proof.
  rewrite final_process_month_cases, final_month_text_cases. cbn zeta.
  destruct (truthy (v_text versions)) eqn:Ht.
  - destruct (bool_decide (is_Some (Final.files w !! Final.text_file year month))) eqn:Hf.
    + simpl. intros _. split; [reflexivity|]. split; [|reflexivity].
      eapply bool_decide_eq_true_1, Hf.
    + rewrite final_download_text_content_spec.
      destruct (existsb has_content _); simpl.
      * intros _. split; [reflexivity|]. split; [|reflexivity].
        unfold write_file. rewrite lookup_insert_eq. eexists. reflexivity.
      * destruct (truthy (v_scan versions)); simpl; discriminate.
  - simpl. destruct (truthy (v_scan versions)); simpl; discriminate.
Qed.

Lemma gpu_download_text_content_file order url output_file w :
  (Gpu.download_text_content order url output_file w).1 = true →
  is_Some (Gpu.files (Gpu.download_text_content order url output_file w).2 !! output_file).
Proof.
  unfold Gpu.download_text_content, bind.
  destruct (Gpu.get_pagination_links url 36 w) as [page_urls w1].
  destruct (Gpu.text_results page_urls (order page_urls) "" false w1)
    as [[all_text content_found] w2].
  destruct content_found; cbn; [|discriminate].
  intros _. unfold write_file. rewrite lookup_insert_eq. eexists. reflexivity.
Qed.

Lemma gpu_has_text_file urljoin md5_hex8 order year month versions w :
  has_text (Gpu.process_month urljoin md5_hex8 order year month versions w).1 = true →
  truthy (v_text versions) = true
  ∧ is_Some (Gpu.files (Gpu.process_month urljoin md5_hex8 order year month versions w).2
               !! Gpu.text_file year month)
  ∧ (Gpu.process_month urljoin md5_hex8 order year month versions w).1
    = mkMonthMetadata year month true false (v_text versions) None.
Proof.
  rewrite gpu_process_month_cases, gpu_month_text_cases. cbn zeta.
  destruct (truthy (v_text versions)) eqn:Ht.
  - destruct (bool_decide (is_Some (Gpu.files w !! Gpu.text_file year month))) eqn:Hf.
    + simpl. intros _. split; [reflexivity|]. split; [|reflexivity].
      eapply bool_decide_eq_true_1, Hf.
    + pose proof (gpu_download_text_content_file order (default "" (v_text versions))
                    (Gpu.text_file year month) w) as Hd.
      destruct (Gpu.download_text_content order (default "" (v_text versions))
                  (Gpu.text_file year month) w) as [[|] w1]; simpl in *.
      * intros _. split; [reflexivity|]. split; [|reflexivity]. apply Hd. reflexivity.
      * destruct (truthy (v_scan versions)); simpl; discriminate.
  - simpl. destruct (truthy (v_scan versions)); simpl; discriminate.
Qed.

(** C6.  When a month has a text link and its text file is already on
    disk, the month body of [main] (in both scripts) records
    [has_text = True] with the link as [text_source] and leaves the world
    as it found it: no request is sent, nothing is written.  Hence a month
    whose body ended with [has_text = True] gives the same record and
    changes nothing when the body is run again. *)
Theorem existing_text_file_skips_fetch (urljoin : string → string → string)
    (md5_hex8 : string → string) (order : list string → list nat)
    (year : nat) (month : string) (versions : Versions) :
  truthy (v_text versions) = true →
  (∀ w, is_Some (Final.files w !! Final.text_file year month) →
        Final.process_month urljoin year month versions w
        = (mkMonthMetadata year month true false (v_text versions) None, w)
        ∧ gets (Final.trace (Final.process_month urljoin year month versions w).2)
          = gets (Final.trace w))
  ∧ (∀ w, is_Some (Gpu.files w !! Gpu.text_file year month) →
          Gpu.process_month urljoin md5_hex8 order year month versions w
          = (mkMonthMetadata year month true false (v_text versions) None, w)
          ∧ gets (Gpu.trace (Gpu.process_month urljoin md5_hex8 order year month versions w).2)
            = gets (Gpu.trace w))
  ∧ (∀ w, has_text (Final.process_month urljoin year month versions w).1 = true →
          Final.process_month urljoin year month versions
            (Final.process_month urljoin year month versions w).2
          = Final.process_month urljoin year month versions w)
  ∧ (∀ w, has_text (Gpu.process_month urljoin md5_hex8 order year month versions w).1 = true →
          Gpu.process_month urljoin md5_hex8 order year month versions
            (Gpu.process_month urljoin md5_hex8 order year month versions w).2
          = Gpu.process_month urljoin md5_hex8 order year month versions w).
Proof.
  intros Ht.
  split.
  { intros w Hf. rewrite final_process_month_present by assumption.
    split; reflexivity. }
  split.
  { intros w Hf. rewrite gpu_process_month_present by assumption.
    split; reflexivity. }
  split.
  - intros w Hh.
    destruct (final_has_text_file urljoin year month versions w Hh) as (_ & Hf & Hm).
    rewrite final_process_month_present by assumption.
    rewrite <- Hm. destruct (Final.process_month urljoin year month versions w); reflexivity.
  - intros w Hh.
    destruct (gpu_has_text_file urljoin md5_hex8 order year month versions w Hh)
      as (_ & Hf & Hm).
    rewrite gpu_process_month_present by assumption.
    rewrite <- Hm.
    destruct (Gpu.process_month urljoin md5_hex8 order year month versions w); reflexivity.
Qed.

Lemma existing_text_file_skips_fetch_witness :
  truthy (v_text january_links) = true
  ∧ is_Some (Final.files final_resumed !! Final.text_file 1950 "January")
  ∧ Final.process_month (fun _ u => u) 1950 "January" january_links final_resumed
    = (mkMonthMetadata 1950 "January" true false (v_text january_links) None, final_resumed)
  ∧ Gpu.process_month (fun _ u => u) (fun u => u) (fun _ => []) 1950 "January"
      january_links gpu_resumed
    = (mkMonthMetadata 1950 "January" true false (v_text january_links) None, gpu_resumed).
Proof.
  destruct (existing_text_file_skips_fetch (fun _ u => u) (fun u => u) (fun _ => [])
              1950 "January" january_links eq_refl) as (HF & HG & _).
  split; [reflexivity|].
  split; [eexists; apply lookup_singleton_eq|].
  split.
  - apply HF. eexists. apply lookup_singleton_eq.
  - apply HG. eexists. apply lookup_singleton_eq.
Defined.

(** ** Rewriting the metadata file *)

Lemma write_states_lookup path chunks :
  ∀ acc (fs : Files) k,
    k ≤ length chunks →
    write_states path chunks (<[path := acc]> fs) !! k
    = Some (<[path := acc +:+ join (take k chunks)]> fs).
Proof.
  induction chunks as [|c cs IH]; intros acc fs k Hk.
  - assert (k = 0) as -> by (cbn in Hk; lia). cbn. rewrite str_app_empty_r. reflexivity.
  - destruct k as [|k].
    + cbn. rewrite str_app_empty_r. reflexivity.
    + cbn [write_states lookup list_lookup]. unfold append_chunk.
      rewrite alter_insert_eq. change ((?x :: ?l) !! S k) with (l !! k).
      rewrite IH by (cbn in Hk; lia).
      cbn [take join foldr]. fold (join (take k cs)).
      rewrite str_app_assoc. reflexivity.
Qed.

Lemma write_states_length path chunks :
  ∀ fs : Files, length (write_states path chunks fs) = S (length chunks).
Proof.
  induction chunks as [|c cs IH]; intros fs; cbn; [reflexivity|].
  rewrite IH. reflexivity.
Qed.

(** C3, as the code has it.  After every month body the metadata file has
    been rewritten: the last thing the body does is to write the
    serialization of the metadata it holds, which contains the record of
    the month, and the file then holds exactly that text.  The write is a
    rewrite in place and not an atomic replace: [open(..., 'w')] empties
    the file first, and while the text is being written the file holds
    the part written so far; only a write that runs to completion leaves
    the whole new text. *)
Theorem metadata_rewritten_in_place (urljoin : string → string → string)
    (md5_hex8 : string → string) (order : list string → list nat)
    (dumps : Metadata → string) (year : nat) (metadata : Metadata)
    (entry : string * Versions) :
  (∀ w, let r := Final.month_body urljoin dumps year metadata entry w in
        Final.files r.2 !! Final.metadata_file = Some (dumps r.1)
        ∧ last (Final.trace r.2) = Some (EvSave Final.metadata_file (dumps r.1))
        ∧ r.1 = Final.record_month year entry.1
                  (Final.process_month urljoin year entry.1 entry.2 w).1 metadata)
  ∧ (∀ w, let r := Gpu.month_body urljoin md5_hex8 dumps order year metadata entry w in
          Gpu.files r.2 !! Gpu.metadata_file = Some (dumps r.1)
          ∧ last (Gpu.trace r.2) = Some (EvSave Gpu.metadata_file (dumps r.1))
          ∧ r.1 = Gpu.record_month year entry.1
                    (Gpu.process_month urljoin md5_hex8 order year entry.1 entry.2 w).1
                    metadata)
  ∧ (∀ path chunks (fs : Files),
        save_states path chunks fs !! 0 = Some fs
        ∧ save_states path chunks fs !! 1 = Some (<[path := ""]> fs)
        ∧ (∀ k, k ≤ length chunks →
                save_states path chunks fs !! (S k)
                = Some (<[path := join (take k chunks)]> fs))
        ∧ last (save_states path chunks fs) = Some (write_file path (join chunks) fs)).
Proof.
  split.
  { intros w. unfold Final.month_body, bind.
    destruct (Final.process_month urljoin year entry.1 entry.2 w) as [m w1].
    cbn. unfold write_file. rewrite lookup_insert_eq, last_snoc. repeat split. }
  split.
  { intros w. unfold Gpu.month_body, bind.
    destruct (Gpu.process_month urljoin md5_hex8 order year entry.1 entry.2 w) as [m w1].
    cbn. unfold write_file. rewrite lookup_insert_eq, last_snoc. repeat split. }
  intros path chunks fs.
  assert (Hk : ∀ k, k ≤ length chunks →
            save_states path chunks fs !! (S k)
            = Some (<[path := join (take k chunks)]> fs)).
  { intros k Hk. unfold save_states, open_w.
    change ((?x :: ?l) !! S k) with (l !! k).
    rewrite <- (insert_insert_eq fs path "" ""), write_states_lookup by exact Hk.
    rewrite insert_insert_eq. reflexivity. }
  split; [reflexivity|].
  split; [rewrite (Hk 0) by lia; reflexivity|].
  split; [exact Hk|].
  rewrite last_lookup. unfold save_states at 1. cbn [length Nat.pred].
  rewrite write_states_length.
  rewrite (Hk (length chunks)) by lia. rewrite firstn_all. reflexivity.
Qed.

(** C3 as stated fails: when the metadata file of an earlier month is
    rewritten, the state right after [open] has an empty file, which is
    neither the earlier record nor the new one. *)
Lemma metadata_write_not_atomic :
  ¬ atomic_replace Final.metadata_file new_metadata_chunks old_metadata_files.
Proof.
  intros H.
  destruct (H (open_w Final.metadata_file old_metadata_files)) as [E|E].
  - right. left. reflexivity.
  - vm_compute in E. discriminate.
  - vm_compute in E. discriminate.
Qed.

(** ** The frame fallback of the sequential image job *)





(** An image on the denylist, 16 by 16, served as a PNG: shown in a frame
    it is fetched and saved as [.jpg]; shown on the page itself it is not
    even requested. *)
Example framed_logo_is_saved :
  Final.scan_page absolute_ref "scans" "http://literature.awgp.org/scan/v1.1" 0 w_framed_logo
  = (1, Final.mkWorld framed_logo_site
          [EvGet "http://literature.awgp.org/scan/v1.1"; EvGet "frame.html";
           EvSleep Pause 10000; EvGet "logo.png";
           EvSave "scans/page_001frame01img01.jpg" "PNG bytes"]
          3 {[ "scans/page_001frame01img01.jpg" := "PNG bytes" ]})
  ∧ Final.trace (Final.scan_page absolute_ref "scans"
                   "http://literature.awgp.org/scan/v1.1" 0 w_direct_logo).2
    = [EvGet "http://literature.awgp.org/scan/v1.1"].
Proof. split; vm_compute; reflexivity. Qed.

(** ** The size filter *)

(** The size test of [final_scrapping.py]: with both attributes present
    and numeric the image passes exactly when both are at least 300; with
    an attribute missing or not numeric it passes. *)
Lemma final_size_filter (img : Attrs) :
  (∀ w h width height,
      img !! "width" = Some w → img !! "height" = Some h →
      parse_px w = Some width → parse_px h = Some height →
      (Final.is_large_image img = true ↔ (300 ≤ width ∧ 300 ≤ height)%Z))
  ∧ (img !! "width" = None → Final.is_large_image img = true)
  ∧ (img !! "height" = None → Final.is_large_image img = true)
  ∧ (∀ w, img !! "width" = Some w → parse_px w = None → Final.is_large_image img = true)
  ∧ (∀ h, img !! "height" = Some h → parse_px h = None → Final.is_large_image img = true).
Proof.
  unfold Final.is_large_image.
  split.
  { intros w h width height -> -> -> ->.
    rewrite negb_true_iff, orb_false_iff, !Z.ltb_ge. reflexivity. }
  split; [intros ->; reflexivity|].
  split; [intros ->; destruct (img !! "width"); reflexivity|].
  split; [intros w -> ->; destruct (img !! "height"); reflexivity|].
  intros h -> Hh. destruct (img !! "width") as [w|]; [|reflexivity].
  rewrite Hh. destruct (parse_px w); reflexivity.
Qed.

(** An image that passes the three tests is requested next; one that fails
    the size test is passed over. *)
Lemma final_page_images_head urljoin output_dir page_url page_index i img rest src w :
  img !! "src" = Some src →
  denylisted src = false →
  (Final.is_large_image img = true →
   ∃ pre after,
     Final.trace (Final.page_images urljoin output_dir page_url page_index i
                    (img :: rest) w).2
     = Final.trace w ++ pre ++ EvGet (urljoin page_url src) :: after
     ∧ gets pre = 0)
  ∧ (Final.is_large_image img = false →
     Final.page_images urljoin output_dir page_url page_index i (img :: rest) w
     = Final.page_images urljoin output_dir page_url page_index (S i) rest w).
Proof.
  intros Hsrc Hdeny. cbn [Final.page_images]. rewrite Hsrc, Hdeny. split; intros ->;
    [|reflexivity].
  cbn [negb]. unfold bind.
  destruct (final_make_request_spec (urljoin page_url src) w)
    as (pre & w1 & E & Ht & Hg & _). rewrite E.
  destruct (ok_response _) as [r|].
  - match goal with |- context [Final.save ?p ?d w1] =>
      pose proof (final_save_extends p d w1) as H2;
      destruct (Final.save p d w1) as [[] w2] end.
    cbn [snd] in H2.
    pose proof (final_page_images_extends urljoin output_dir page_url page_index rest
                  (S i) w2) as H3.
    destruct (final_extends_trans _ _ _ H2 H3) as [_ [added Ha]].
    destruct (Final.page_images urljoin output_dir page_url page_index (S i) rest w2)
      as [n w3]. cbn [snd ret] in *.
    exists pre, added. rewrite Ha, Ht, <- !app_assoc. split; [reflexivity | exact Hg].
  - pose proof (final_page_images_extends urljoin output_dir page_url page_index rest
                  (S i) w1) as [_ [added Ha]].
    exists pre, added. rewrite Ha, Ht, <- !app_assoc. split; [reflexivity | exact Hg].
Qed.

(** C4 at the failing input.  [process_scan_page] of [gpu_optimised.py]
    reads a missing [width] or [height] as 0: an image without size
    attributes is skipped as small and never requested, where
    [final_scrapping.py] fetches and saves it.  It also skips an image
    whose width is 200 and whose height is not a number.  On images of 200
    by 200 and 400 by 400 the two scripts agree. *)
Theorem gpu_size_filter_rejects_unsized :
  Gpu.is_small_image unsized_scan = true
  ∧ Final.is_large_image unsized_scan = true
  ∧ Gpu.process_scan_page absolute_ref (fun _ => "0a1b2c3d")
      "http://literature.awgp.org/scan/v1.1" 0 "scans" (gpu_one_image unsized_scan)
    = (0, Gpu.mkWorld (one_image_site unsized_scan)
            [EvGet "http://literature.awgp.org/scan/v1.1"]
            1000 (Gpu.mkRM 1000 1 1000 0) ∅)
  ∧ Final.scan_page absolute_ref "scans" "http://literature.awgp.org/scan/v1.1" 0
      (final_one_image unsized_scan)
    = (1, Final.mkWorld (one_image_site unsized_scan)
            [EvGet "http://literature.awgp.org/scan/v1.1"; EvGet "scan_001.jpg";
             EvSave "scans/page_001img001.jpg" "JPEG bytes"]
            2 {[ "scans/page_001img001.jpg" := "JPEG bytes" ]})
  ∧ Gpu.is_small_image odd_sized_scan = true
  ∧ Final.is_large_image odd_sized_scan = true
  ∧ Gpu.is_small_image (sized_scan "200" "200") = true
  ∧ Final.is_large_image (sized_scan "200" "200") = false
  ∧ Gpu.is_small_image (sized_scan "400" "400") = false
  ∧ Final.is_large_image (sized_scan "400" "400") = true.
Proof. repeat split; vm_compute; reflexivity. Qed.

(** ** Page order of the combined text *)

Lemma contributions_sections n cs : join (contributions n cs) = sections (numbered n cs).
Proof.
  revert n. induction cs as [|c cs IH]; intros n; [reflexivity|].
  cbn [contributions join foldr]. fold (join (contributions (S n) cs)). rewrite IH.
  destruct c as [c|]; reflexivity.
Qed.

Lemma numbered_bounds n cs :
  Forall (fun p => n ≤ p.1 < n + length cs) (numbered n cs).
Proof.
  revert n. induction cs as [|c cs IH]; intros n; [constructor|].
  assert (H : Forall (fun p => n ≤ p.1 < n + length (c :: cs)) (numbered (S n) cs)).
  { eapply Forall_impl; [apply IH|]. cbn. intros p Hp. lia. }
  destruct c as [c|]; cbn [numbered]; [constructor; [cbn; lia|]|]; exact H.
Qed.

Lemma numbered_sorted n cs : StronglySorted lt (map fst (numbered n cs)).
Proof.
  revert n. induction cs as [|c cs IH]; intros n; [constructor|].
  destruct c as [c|]; cbn [numbered map]; [|apply IH].
  constructor; [apply IH|].
  apply Forall_map. eapply Forall_impl; [apply numbered_bounds|].
  cbn. intros p Hp. lia.
Qed.

(** The sequential text job writes its pages in ascending page order: the
    file is a sequence of numbered sections, one per page with content,
    with strictly increasing page numbers. *)
Lemma final_text_in_page_order url output_file w :
  (Final.download_text_content url output_file w).1 = true →
  ∃ parts,
    Final.files (Final.download_text_content url output_file w).2 !! output_file
    = Some (sections parts)
    ∧ parts = numbered 1 (final_page_contents (Final.get_pagination_links url 3) w).1
    ∧ StronglySorted lt (map fst parts)
    ∧ Forall (fun p => 1 ≤ p.1 ≤ length (Final.get_pagination_links url 3)) parts.
Proof.
  rewrite final_download_text_content_spec.
  destruct (existsb has_content _); [|discriminate]. intros _.
  eexists. split.
  { cbn. unfold write_file. rewrite lookup_insert_eq, contributions_sections. reflexivity. }
  split; [reflexivity|]. split; [apply numbered_sorted|].
  eapply Forall_impl; [apply numbered_bounds|]. cbn. intros p Hp.
  destruct (final_page_contents_inv (Final.get_pagination_links url 3) w)
    as (_ & _ & _ & _ & _ & _ & Hl).
  rewrite Hl in Hp. lia.
Qed.

(** C1 at the failing input.  [download_text_content] of
    [gpu_optimised.py] appends the page texts in the order in which the
    pool completes them.  For an issue of three pages whose third page
    completes first, then the first, then the second, the file holds the
    sections 3, 1, 2 in that order.  (Completion in submission order gives
    1, 2, 3, and so does the sequential script.) *)
Theorem gpu_text_follows_completion_order :
  (Gpu.download_text_content completion_3_1_2
     "http://literature.awgp.org/hindi/akhandjyoti/1950/v10.1" "out.txt" gpu_three_pages).1
  = true
  ∧ Gpu.files (Gpu.download_text_content completion_3_1_2
                 "http://literature.awgp.org/hindi/akhandjyoti/1950/v10.1" "out.txt"
                 gpu_three_pages).2 !! "out.txt"
    = Some (sections [(3, filler "c" 120); (1, filler "a" 120); (2, filler "b" 120)])
  ∧ Gpu.files (Gpu.download_text_content completion_in_order
                 "http://literature.awgp.org/hindi/akhandjyoti/1950/v10.1" "out.txt"
                 gpu_three_pages).2 !! "out.txt"
    = Some (sections [(1, filler "a" 120); (2, filler "b" 120); (3, filler "c" 120)])
  ∧ Final.files (Final.download_text_content
                   "http://literature.awgp.org/hindi/akhandjyoti/1950/v10.1" "out.txt"
                   final_three_pages).2 !! "out.txt"
    = Some (sections [(1, filler "a" 120); (2, filler "b" 120); (3, filler "c" 120)]).
Proof. repeat split; vm_compute; reflexivity. Qed.

(** ** Pagination *)

Lemma take_digits_split s :
  ∃ rest, s = Re.take_digits s +:+ rest ∧ all_digits (Re.take_digits s) = true.
Proof.
  induction s as [|c s (rest & E & H)]; cbn [Re.take_digits].
  - exists "". split; reflexivity.
  - destruct (Py.is_digit c) eqn:Hc.
    + exists rest. change (String c ?a +:+ ?b) with (String c (a +:+ b)).
      rewrite <- E. cbn [all_digits]. rewrite Hc, H. split; reflexivity.
    + exists (String c s). split; reflexivity.
Qed.

Lemma slash_v_digits_shape s m :
  Re.slash_v_digits s = Some m →
  ∃ ds rest, s = m +:+ rest ∧ m = "/v" +:+ ds ∧ ds ≠ "" ∧ all_digits ds = true.
Proof.
  unfold Re.slash_v_digits.
  destruct s as [|c0 [|c1 [|d s]]]; try discriminate.
  destruct (Ascii.eqb_spec c0 "/") as [->|Hne]; [|discriminate].
  destruct (Ascii.eqb_spec c1 "v") as [->|Hne]; [|discriminate].
  destruct (Py.is_digit d) eqn:Hd; [|discriminate]. cbn [andb]. intros [= <-].
  destruct (take_digits_split s) as (rest & E & H).
  exists (String d (Re.take_digits s)), rest.
  split; [|split; [reflexivity|split; [discriminate|]]].
  - change (String "/" (String "v" (String d s))
            = String "/" (String "v" (String d (Re.take_digits s +:+ rest)))).
    do 3 f_equal. exact E.
  - cbn [all_digits]. rewrite Hd, H. reflexivity.
Qed.

Lemma versioned_here_shape s m :
  Re.versioned_here s = Some m →
  ∃ pre ds rest, s = m +:+ rest ∧ m = pre +:+ "/v" +:+ ds ∧ ds ≠ "" ∧ all_digits ds = true.
Proof.
  revert m. induction s as [|c s IH]; intros m; [discriminate|].
  cbn [Re.versioned_here].
  destruct (if Ascii.eqb c Py.nl then None else Re.versioned_here s) as [m'|] eqn:E.
  - intros [= <-]. destruct (Ascii.eqb c Py.nl); [discriminate|].
    destruct (IH m' E) as (pre & ds & rest & -> & -> & Hne & Hd).
    exists (String c pre), ds, rest. repeat split; assumption.
  - intros H. destruct (slash_v_digits_shape _ _ H) as (ds & rest & Hs & Hm & Hne & Hd).
    exists "", ds, rest. repeat split; assumption.
Qed.

(** What the pattern [(.*/v\d+)] captures is a slice of the URL that ends
    in [/v] and at least one digit. *)
Lemma search_versioned_shape url base :
  Re.search_versioned url = Some base →
  ∃ skipped pre ds rest,
    url = skipped +:+ base +:+ rest ∧ base = pre +:+ "/v" +:+ ds
    ∧ ds ≠ "" ∧ all_digits ds = true.
Proof.
  induction url as [|c url IH].
  - cbn. discriminate.
  - cbn [Re.search_versioned].
    destruct (Re.versioned_here (String c url)) as [m|] eqn:E.
    + intros [= <-]. destruct (versioned_here_shape _ _ E) as (pre & ds & rest & H).
      exists "", pre, ds, rest. exact H.
    + intros H. destruct (IH H) as (skipped & pre & ds & rest & -> & Hb).
      exists (String c skipped), pre, ds, rest. split; [reflexivity | exact Hb].
Qed.

Lemma str_length_app (s1 s2 : string) :
  String.length (s1 +:+ s2) = String.length s1 + String.length s2.
Proof.
  induction s1 as [|c s1 IH]; [reflexivity|].
  change (S (String.length (s1 +:+ s2)) = S (String.length s1 + String.length s2)).
  rewrite IH. reflexivity.
Qed.

Lemma take_chars_app (s1 s2 : string) : Gpu.take_chars (String.length s1) (s1 +:+ s2) = s1.
Proof.
  induction s1 as [|c s1 IH]; [destruct s2; reflexivity|].
  change (String c (Gpu.take_chars (String.length s1) (s1 +:+ s2)) = String c s1).
  rewrite IH. reflexivity.
Qed.

Lemma contains_dot_suffix (base : string) (c : ascii) :
  Py.contains "." (base +:+ "." +:+ String c "") = true.
Proof.
  induction base as [|a base IH]; [reflexivity|].
  change (String a base +:+ "." +:+ String c "")
    with (String a (base +:+ "." +:+ String c "")).
  cbn [Py.contains]. rewrite IH. destruct (String.prefix _ _); reflexivity.
Qed.

(** For an issue URL of the form [base.c] the page rule of
    [gpu_optimised.py] gives [base.page]. *)
Lemma page_url_of_suffixed (base : string) (c : ascii) (page : nat) :
  Gpu.page_url_of (base +:+ "." +:+ String c "") page = base +:+ "." +:+ Py.str page.
Proof.
  unfold Gpu.page_url_of, Gpu.drop_last2. rewrite contains_dot_suffix. cbn [negb].
  rewrite str_length_app. change (String.length ("." +:+ String c "")) with 2.
  replace (String.length base + 2 - 2) with (String.length base) by lia.
  rewrite take_chars_app. reflexivity.
Qed.

Lemma page_url_of_stem url :
  ∃ stem, ∀ page, Gpu.page_url_of url page = stem +:+ "." +:+ Py.str page.
Proof.
  unfold Gpu.page_url_of. destruct (negb (Py.contains "." url)); eexists; reflexivity.
Qed.

Lemma max_detected_ge links : ∀ acc, (acc ≤ Gpu.max_detected links acc)%Z.
Proof.
  induction links as [|link rest IH]; intros acc; cbn [Gpu.max_detected]; [lia|].
  destruct (Py.int link) as [n|]; [|apply IH].
  destruct (Z.ltb_spec acc n); [|apply IH]. specialize (IH n). lia.
Qed.

Lemma max_detected_upper links :
  ∀ acc link n, In link links → Py.int link = Some n → (n ≤ Gpu.max_detected links acc)%Z.
Proof.
  induction links as [|link0 rest IH]; intros acc link n Hin Hn; [destruct Hin|].
  cbn [Gpu.max_detected]. destruct Hin as [->|Hin].
  - rewrite Hn. destruct (Z.ltb_spec acc n).
    + apply max_detected_ge.
    + pose proof (max_detected_ge rest acc). lia.
  - destruct (Py.int link0) as [n0|]; [|eapply IH; eassumption].
    destruct (Z.ltb_spec acc n0); eapply IH; eassumption.
Qed.

Lemma max_detected_attained links :
  ∀ acc, Gpu.max_detected links acc = acc
         ∨ ∃ link, In link links ∧ Py.int link = Some (Gpu.max_detected links acc).
Proof.
  induction links as [|link0 rest IH]; intros acc; cbn [Gpu.max_detected]; [left; reflexivity|].
  destruct (Py.int link0) as [n0|] eqn:E0.
  - destruct (Z.ltb_spec acc n0).
    + destruct (IH n0) as [->|(link & Hin & Hl)].
      * right. exists link0. split; [left; reflexivity | exact E0].
      * right. exists link. split; [right; exact Hin | exact Hl].
    + destruct (IH acc) as [->|(link & Hin & Hl)]; [left; reflexivity|].
      right. exists link. split; [right; exact Hin | exact Hl].
  - destruct (IH acc) as [->|(link & Hin & Hl)]; [left; reflexivity|].
    right. exists link. split; [right; exact Hin | exact Hl].
Qed.

Lemma detect_max_pages_le response max_pages :
  (Gpu.detect_max_pages response max_pages ≤ max_pages)%Z.
Proof.
  unfold Gpu.detect_max_pages. destruct response as [r|]; [|lia].
  destruct (pagination (body r)) as [links|]; [|lia].
  destruct (0 <? Gpu.max_detected links 0)%Z; lia.
Qed.

(** C7, as the code has it.  Both scripts return a sequence that begins
    with the issue URL.  [final_scrapping.py] reads no pagination marker:
    when the URL has a versioned path (what [(.*/v\d+)] captures, ending in
    [/v] and digits) the sequence goes on with that path followed by [.2]
    up to [.max_pages], and when it has none the sequence is the issue URL
    alone.  [gpu_optimised.py] fetches page 1 and takes as count the
    minimum of the ceiling and the highest number among the pagination
    links when there is a pagination element with a positive number, and
    the ceiling unchanged otherwise, so the count never exceeds the
    ceiling; it goes on with one URL per page from 2 to the count, each
    ending in [.page], which for an issue URL [base.c] is [base.page]. *)
Theorem pagination_links_enumerated (url : string) :
  (∀ max_pages,
      head (Final.get_pagination_links url max_pages) = Some url
      ∧ (∀ base, Re.search_versioned url = Some base →
           Final.get_pagination_links url max_pages
           = url :: map (fun page => base +:+ "." +:+ Py.str page) (seq 2 (max_pages - 1))
           ∧ (1 ≤ max_pages → length (Final.get_pagination_links url max_pages) = max_pages)
           ∧ ∃ skipped pre ds rest,
               url = skipped +:+ base +:+ rest ∧ base = pre +:+ "/v" +:+ ds
               ∧ ds ≠ "" ∧ all_digits ds = true)
      ∧ (Re.search_versioned url = None → Final.get_pagination_links url max_pages = [url]))
  ∧ (∀ max_pages w,
      let response := (Gpu.make_request url w).1 in
      let count := Gpu.detect_max_pages response max_pages in
      (Gpu.get_pagination_links url max_pages w).1
      = url :: map (Gpu.page_url_of url) (seq 2 (Z.to_nat count - 1))
      ∧ (count ≤ max_pages)%Z
      ∧ (∀ r links, response = Some r → pagination (body r) = Some links →
           (0 < Gpu.max_detected links 0)%Z →
           count = Z.min max_pages (Gpu.max_detected links 0)
           ∧ (∀ link n, In link links → Py.int link = Some n →
                        (n ≤ Gpu.max_detected links 0)%Z)
           ∧ ∃ link, In link links ∧ Py.int link = Some (Gpu.max_detected links 0))
      ∧ (response = None → count = max_pages)
      ∧ (∀ r, response = Some r → pagination (body r) = None → count = max_pages)
      ∧ (∀ r links, response = Some r → pagination (body r) = Some links →
           (Gpu.max_detected links 0 ≤ 0)%Z → count = max_pages))
  ∧ (∃ stem, ∀ page, Gpu.page_url_of url page = stem +:+ "." +:+ Py.str page)
  ∧ (∀ base c page, url = base +:+ "." +:+ String c "" →
       Gpu.page_url_of url page = base +:+ "." +:+ Py.str page).
Proof.
  split.
  { intros max_pages. unfold Final.get_pagination_links.
    destruct (Re.search_versioned url) as [base|] eqn:E.
    - split; [reflexivity|]. split; [|discriminate].
      intros base' [= <-]. split; [reflexivity|].
      split; [intros H; cbn; rewrite length_map, length_seq; lia|].
      apply search_versioned_shape, E.
    - split; [reflexivity|]. split; [discriminate | reflexivity]. }
  split.
  { intros max_pages w. cbn zeta. unfold Gpu.get_pagination_links, bind, Gpu.page_range.
    destruct (Gpu.make_request url w) as [response w1]. cbn [fst snd ret].
    split; [reflexivity|]. split; [apply detect_max_pages_le|].
    unfold Gpu.detect_max_pages.
    split.
    { intros r links -> -> Hpos.
      rewrite (proj2 (Z.ltb_lt _ _) Hpos). split; [reflexivity|].
      split; [intros link n; apply max_detected_upper|].
      destruct (max_detected_attained links 0) as [H0|H]; [lia | exact H]. }
    split; [intros ->; reflexivity|].
    split; [intros r -> ->; reflexivity|].
    intros r links -> -> Hle. rewrite (proj2 (Z.ltb_ge _ _) Hle). reflexivity. }
  split; [apply page_url_of_stem|].
  intros base c page ->. apply page_url_of_suffixed.
Qed.

(** C7 as stated fails.  For an issue URL without a versioned path the
    sequential script returns the URL alone, whatever the ceiling.  When
    the first page shows pagination links up to 2, the thread-pool script
    stops at page 2 but the sequential one, which never looks, still
    enumerates the three pages of its ceiling. *)
Lemma pagination_without_version_or_marker :
  Final.get_pagination_links "http://literature.awgp.org/hindi/akhandjyoti/1950/January" 3
  = ["http://literature.awgp.org/hindi/akhandjyoti/1950/January"]
  ∧ (Gpu.get_pagination_links "http://literature.awgp.org/hindi/akhandjyoti/1950/v10.1" 3
       gpu_marker_2).1
    = ["http://literature.awgp.org/hindi/akhandjyoti/1950/v10.1";
       "http://literature.awgp.org/hindi/akhandjyoti/1950/v10.2"]
  ∧ Final.get_pagination_links "http://literature.awgp.org/hindi/akhandjyoti/1950/v10.1" 3
    = ["http://literature.awgp.org/hindi/akhandjyoti/1950/v10.1";
       "http://literature.awgp.org/hindi/akhandjyoti/1950/v10.2";
       "http://literature.awgp.org/hindi/akhandjyoti/1950/v10.3"].
Proof. repeat split; vm_compute; reflexivity. Qed.

(** The page rule of the thread-pool script on an issue URL that does not
    end in a page suffix: the last two characters go all the same. *)
Example gpu_page_rule_without_suffix :
  map (Gpu.page_url_of "http://literature.awgp.org/hindi/akhandjyoti/1950/v10") [2; 3]
  = ["http://literature.awgp.org/hindi/akhandjyoti/1950/v.2";
     "http://literature.awgp.org/hindi/akhandjyoti/1950/v.3"].
Proof. vm_compute. reflexivity. Qed.

(** * Further properties of the scripts *)

(** ** The clean-up of extracted text *)

Lemma contains_cons_other x c s :
  String.prefix x (String c s) = false → Py.contains x (String c s) = Py.contains x s.
Proof. intros H. cbn [Py.contains]. rewrite H. reflexivity. Qed.

Lemma newlines3_prefix_false c s :
  Ascii.eqb c Py.nl = false → String.prefix (Py.newlines 3) (String c s) = false.
Proof.
  intros H. cbn. destruct (ascii_dec Py.nl c) as [<-|_]; [|reflexivity].
  rewrite Ascii.eqb_refl in H. discriminate.
Qed.

(** A text made of at most two line feeds followed by a text that does not
    begin with a line feed has a run of three only if the latter has. *)
Lemma contains_newlines3_short k t :
  k ≤ 2 →
  (t = "" ∨ ∃ c t', t = String c t' ∧ Ascii.eqb c Py.nl = false) →
  Py.contains (Py.newlines 3) (Py.newlines k +:+ t) = Py.contains (Py.newlines 3) t.
Proof.
  intros Hk Ht.
  assert (H1 : Py.contains (Py.newlines 3) (String Py.nl t)
               = Py.contains (Py.newlines 3) t).
  { apply contains_cons_other. destruct Ht as [->|(c & t' & -> & Hc)]; [reflexivity|].
    cbn. destruct (ascii_dec Py.nl Py.nl); [|reflexivity].
    destruct (ascii_dec Py.nl c) as [<-|_]; [|reflexivity].
    rewrite Ascii.eqb_refl in Hc. discriminate. }
  assert (H2 : Py.contains (Py.newlines 3) (String Py.nl (String Py.nl t))
               = Py.contains (Py.newlines 3) t).
  { rewrite contains_cons_other; [exact H1|].
    destruct Ht as [->|(c & t' & -> & Hc)]; [reflexivity|].
    cbn. destruct (ascii_dec Py.nl Py.nl); [|reflexivity].
    destruct (ascii_dec Py.nl c) as [<-|_]; [|reflexivity].
    rewrite Ascii.eqb_refl in Hc. discriminate. }
  destruct k as [|[|[|k]]]; [reflexivity | exact H1 | exact H2 | lia].
Qed.

Lemma flush_run_short run : ∃ k, k ≤ 2 ∧ Py.flush_run run = Py.newlines k.
Proof.
  unfold Py.flush_run. destruct (Nat.leb_spec 3 run).
  - exists 2. split; [lia | reflexivity].
  - exists run. split; [lia | reflexivity].
Qed.

Lemma collapse_go_shape s :
  ∀ run, ∃ k t,
    Py.collapse_go s run = Py.newlines k +:+ t ∧ k ≤ 2
    ∧ (t = "" ∨ ∃ c t', t = String c t' ∧ Ascii.eqb c Py.nl = false)
    ∧ Py.contains (Py.newlines 3) t = false.
Proof.
  induction s as [|c s IH]; intros run; cbn [Py.collapse_go].
  - destruct (flush_run_short run) as (k & Hk & ->).
    exists k, "". rewrite str_app_empty_r. repeat split; [exact Hk | left; reflexivity].
  - destruct (Ascii.eqb c Py.nl) eqn:Hc; [apply IH|].
    destruct (flush_run_short run) as (k & Hk & ->).
    destruct (IH 0) as (k' & t' & E & Hk' & Ht' & Hno).
    exists k, (String c (Py.collapse_go s 0)).
    split; [reflexivity|]. split; [exact Hk|]. split; [right; eauto|].
    rewrite contains_cons_other by (apply newlines3_prefix_false, Hc).
    rewrite E, contains_newlines3_short by assumption. exact Hno.
Qed.

Lemma without_newlines_app s1 s2 :
  without_newlines (s1 +:+ s2) = without_newlines s1 +:+ without_newlines s2.
Proof.
  induction s1 as [|c s1 IH]; [reflexivity|].
  change (String c s1 +:+ s2) with (String c (s1 +:+ s2)). cbn [without_newlines].
  rewrite IH. destruct (Ascii.eqb c Py.nl); reflexivity.
Qed.

Lemma without_newlines_newlines k : without_newlines (Py.newlines k) = "".
Proof. induction k as [|k IH]; [reflexivity|]. cbn. exact IH. Qed.

Lemma collapse_go_without_newlines s :
  ∀ run, without_newlines (Py.collapse_go s run) = without_newlines s.
Proof.
  induction s as [|c s IH]; intros run; cbn [Py.collapse_go without_newlines].
  - destruct (flush_run_short run) as (k & _ & ->). apply without_newlines_newlines.
  - destruct (Ascii.eqb c Py.nl) eqn:Hc; [apply IH|].
    destruct (flush_run_short run) as (k & _ & ->).
    rewrite without_newlines_app, without_newlines_newlines.
    cbn [without_newlines]. rewrite Hc, IH. reflexivity.
Qed.

Lemma newlines_length k : String.length (Py.newlines k) = k.
Proof. induction k as [|k IH]; [reflexivity|]. cbn. rewrite IH. reflexivity. Qed.

Lemma collapse_go_length s :
  ∀ run, String.length (Py.collapse_go s run) ≤ run + String.length s.
Proof.
  induction s as [|c s IH]; intros run; cbn [Py.collapse_go String.length].
  - unfold Py.flush_run. destruct (Nat.leb_spec 3 run); rewrite newlines_length; lia.
  - destruct (Ascii.eqb c Py.nl).
    + specialize (IH (S run)). lia.
    + rewrite str_length_app. cbn [String.length]. specialize (IH 0).
      unfold Py.flush_run. destruct (Nat.leb_spec 3 run); rewrite newlines_length; lia.
Qed.

(** X1.  The clean-up [re.sub(r'\n{3,}', '\n\n', text)] that both scripts
    apply to the text of a page leaves no run of three line feeds, removes
    nothing but line feeds (every other character is kept, in order), and
    never makes the text longer. *)
Theorem clean_text_has_no_triple_newline (c : Tag) :
  Py.contains (Py.newlines 3) (clean_text c) = false
  ∧ without_newlines (clean_text c) = without_newlines (separated_text c)
  ∧ String.length (clean_text c) ≤ String.length (separated_text c).
Proof.
  unfold clean_text, Py.collapse_newlines.
  split; [|split].
  - destruct (collapse_go_shape (separated_text c) 0) as (k & t & E & Hk & Ht & Hno).
    rewrite E, contains_newlines3_short by assumption. exact Hno.
  - apply collapse_go_without_newlines.
  - apply (collapse_go_length (separated_text c) 0).
Qed.

(** ** Decimal numbers in URLs and file names *)

Lemma pretty_N_char_digit x : Py.is_digit (pretty_N_char x) = true.
Proof. unfold pretty_N_char. repeat case_match; reflexivity. Qed.

Lemma pretty_N_char_nonzero x : (0 < x < 10)%N → pretty_N_char x ≠ "0"%char.
Proof.
  intros H.
  assert (x = 1 ∨ x = 2 ∨ x = 3 ∨ x = 4 ∨ x = 5 ∨ x = 6 ∨ x = 7 ∨ x = 8 ∨ x = 9)%N
    as Hx by lia.
  repeat (destruct Hx as [->|Hx]; [discriminate|]). subst x. discriminate.
Qed.

Lemma all_digits_app s1 s2 :
  all_digits (s1 +:+ s2) = all_digits s1 && all_digits s2.
Proof.
  induction s1 as [|c s1 IH]; [reflexivity|].
  change (String c s1 +:+ s2) with (String c (s1 +:+ s2)). cbn [all_digits].
  rewrite IH, andb_assoc. reflexivity.
Qed.

(** The digits that [pretty_N_go] puts before the accumulator: decimal
    digits, the first of which is not a zero. *)
Lemma pretty_N_go_digits x :
  ∀ s, ∃ p, pretty_N_go x s = p +:+ s ∧ all_digits p = true
            ∧ ((0 < x)%N → ∃ c p', p = String c p' ∧ c ≠ "0"%char).
Proof.
  induction (N.lt_wf_0 x) as [x _ IH]; intros s.
  assert (x = 0 ∨ 0 < x < 10 ∨ 10 ≤ x)%N as [->|[Hx|Hx]] by lia.
  - exists "". rewrite pretty_N_go_0. split; [reflexivity|]. split; [reflexivity|lia].
  - rewrite pretty_N_go_step by lia.
    rewrite (N.div_small x 10), (N.mod_small x 10), pretty_N_go_0 by lia.
    exists (String (pretty_N_char x) ""). split; [reflexivity|].
    split; [cbn; rewrite pretty_N_char_digit; reflexivity|].
    intros _. eexists _, _. split; [reflexivity|]. apply pretty_N_char_nonzero, Hx.
  - rewrite pretty_N_go_step by lia.
    destruct (IH (x `div` 10)%N) with (s := String (pretty_N_char (x `mod` 10)) s)
      as (p & E & Hd & Hnz).
    { apply N.div_lt; lia. }
    exists (p +:+ String (pretty_N_char (x `mod` 10)) "").
    rewrite E, str_app_assoc. split; [reflexivity|].
    split.
    { rewrite all_digits_app, Hd. cbn. rewrite pretty_N_char_digit. reflexivity. }
    intros _. destruct Hnz as (c & p' & -> & Hc).
    { apply N.div_str_pos. lia. }
    exists c, (p' +:+ String (pretty_N_char (x `mod` 10)) ""). split; [reflexivity|exact Hc].
Qed.

(** [str(n)] is a non-empty run of decimal digits. *)
Lemma str_digits n : all_digits (Py.str n) = true ∧ Py.str n ≠ "".
Proof.
  unfold Py.str, pretty, pretty_nat, pretty, pretty_N.
  destruct (decide (N.of_nat n = 0%N)) as [_|Hn]; [split; [reflexivity|discriminate]|].
  destruct (pretty_N_go_digits (N.of_nat n) "") as (p & E & Hd & Hnz).
  rewrite E, str_app_empty_r. split; [exact Hd|].
  destruct Hnz as (c & p' & -> & _); [lia | discriminate].
Qed.

(** [str(n)] has no leading zero unless [n] is zero. *)
Lemma str_leading n : n ≠ 0 → ∃ c s, Py.str n = String c s ∧ c ≠ "0"%char.
Proof.
  intros Hn. unfold Py.str, pretty, pretty_nat, pretty, pretty_N.
  destruct (decide (N.of_nat n = 0%N)) as [H0|_]; [lia|].
  destruct (pretty_N_go_digits (N.of_nat n) "") as (p & E & _ & Hnz).
  rewrite E, str_app_empty_r. apply Hnz. lia.
Qed.

Lemma str_inj n m : Py.str n = Py.str m → n = m.
Proof. unfold Py.str. apply pretty_nat_inj. Qed.

(** A run of digits ends where the first character that is no digit
    stands: two texts that agree split alike. *)
Lemma digits_split d1 :
  ∀ d2 c1 c2 r1 r2,
    all_digits d1 = true → all_digits d2 = true →
    Py.is_digit c1 = false → Py.is_digit c2 = false →
    d1 +:+ String c1 r1 = d2 +:+ String c2 r2 →
    d1 = d2 ∧ String c1 r1 = String c2 r2.
Proof.
  induction d1 as [|a d1 IH]; intros [|b d2] c1 c2 r1 r2 H1 H2 Hc1 Hc2 E.
  - split; [reflexivity | exact E].
  - change ("" +:+ String c1 r1) with (String c1 r1) in E.
    change (String b d2 +:+ String c2 r2) with (String b (d2 +:+ String c2 r2)) in E.
    injection E as -> _. cbn in H2. rewrite Hc1 in H2. discriminate.
  - change ("" +:+ String c2 r2) with (String c2 r2) in E.
    change (String a d1 +:+ String c1 r1) with (String a (d1 +:+ String c1 r1)) in E.
    injection E as -> _. cbn in H1. rewrite Hc2 in H1. discriminate.
  - change (String a d1 +:+ String c1 r1) with (String a (d1 +:+ String c1 r1)) in E.
    change (String b d2 +:+ String c2 r2) with (String b (d2 +:+ String c2 r2)) in E.
    injection E as -> E. cbn in H1, H2.
    apply andb_true_iff in H1 as [_ H1]. apply andb_true_iff in H2 as [_ H2].
    destruct (IH d2 c1 c2 r1 r2 H1 H2 Hc1 Hc2 E) as [-> E']. split; [reflexivity|exact E'].
Qed.

(** ** Page numbers: from the enumerated URL back to the page marker *)

Lemma digits_to_end_digits ds :
  ds ≠ "" → all_digits ds = true → Re.digits_to_end ds = Some ds.
Proof.
  induction ds as [|c ds IH]; intros Hne Hd; [contradiction|].
  cbn in Hd. apply andb_true_iff in Hd as [Hc Hd].
  cbn [Re.digits_to_end]. rewrite Hc.
  destruct ds as [|c' ds']; [reflexivity|].
  rewrite IH by (discriminate || exact Hd). reflexivity.
Qed.

Lemma digits_to_end_dot x :
  ∀ ds, ds ≠ "" → Re.digits_to_end (x +:+ "." +:+ ds) = None.
Proof.
  induction x as [|c x IH]; intros ds Hne.
  - reflexivity.
  - change (String c x +:+ "." +:+ ds) with (String c (x +:+ "." +:+ ds)).
    cbn [Re.digits_to_end]. rewrite IH by exact Hne.
    destruct (Py.is_digit c); [|reflexivity].
    destruct x as [|a x].
    + change ("" +:+ "." +:+ ds) with (String "." ds).
      destruct ds as [|d ds]; [contradiction | reflexivity].
    + change (String a x +:+ "." +:+ ds) with (String a (x +:+ "." +:+ ds)).
      destruct x as [|b x]; reflexivity.
Qed.

(** The pattern [\.(\d+)$] gives back the number appended after the dot. *)
Lemma search_page_suffix_app stem ds :
  ds ≠ "" → all_digits ds = true →
  Re.search_page_suffix (stem +:+ "." +:+ ds) = Some ds.
Proof.
  intros Hne Hd. induction stem as [|c stem IH].
  - change ("" +:+ "." +:+ ds) with (String "." ds).
    cbn [Re.search_page_suffix]. rewrite Ascii.eqb_refl, digits_to_end_digits by assumption.
    reflexivity.
  - change (String c stem +:+ "." +:+ ds) with (String c (stem +:+ "." +:+ ds)).
    cbn [Re.search_page_suffix]. rewrite IH.
    destruct (Ascii.eqb c "."); [rewrite digits_to_end_dot by exact Hne|]; reflexivity.
Qed.

(** X2.  In [gpu_optimised.py] the page marker agrees with the page
    enumeration: the URL that [get_pagination_links] builds for page
    [page] is read back by [process_text_page] as that number, so the text
    found there is labelled [--- PAGE page ---], whatever the issue URL. *)
Theorem gpu_page_marker_matches_enumeration (url : string) (page : nat) (w : Gpu.World) :
  Re.search_page_suffix (Gpu.page_url_of url page) = Some (Py.str page)
  ∧ Gpu.process_text_page (Gpu.page_url_of url page) w
    = (match (Gpu.make_request (Gpu.page_url_of url page) w).1 with
       | Some r =>
           match find_content Gpu.content_selectors (body r) with
           | Some c => Some (page_marker (Py.str page) +:+ clean_text c)
           | None => None
           end
       | None => None
       end,
       (Gpu.make_request (Gpu.page_url_of url page) w).2).
Proof.
  assert (H : Re.search_page_suffix (Gpu.page_url_of url page) = Some (Py.str page)).
  { destruct (page_url_of_stem url) as [stem ->].
    destruct (str_digits page) as [Hd Hne]. apply search_page_suffix_app; assumption. }
  split; [exact H|].
  unfold Gpu.process_text_page, bind. rewrite H.
  destruct (Gpu.make_request (Gpu.page_url_of url page) w) as [[r|] w']; cbn [fst snd];
    [|reflexivity].
  destruct (find_content Gpu.content_selectors (body r)); reflexivity.
Qed.

(** ** [RequestManager.make_request] against any site *)

Lemma only_requests_app url t1 t2 :
  only_requests url t1 → only_requests url t2 → only_requests url (t1 ++ t2).
Proof. unfold only_requests. intros H1 H2. rewrite Forall_app. split; assumption. Qed.

Lemma two_pow_pos (attempt : nat) : (0 < 1000 * 2 ^ Z.of_nat attempt)%Z.
Proof. apply Z.mul_pos_pos; [lia|]. apply Z.pow_pos_nonneg; lia. Qed.

(** The retry loop in general: it sends at least one and at most as many
    requests as there are attempts, all to [url]; time only moves forward;
    a response comes back only with status 200 and is then counted; a
    [None] comes back only when all attempts are used. *)
Lemma retry_loop_general url attempts :
  ∀ w, ∃ added,
    Gpu.trace (Gpu.retry_loop url attempts w).2 = Gpu.trace w ++ added
    ∧ gets added ≤ length attempts
    ∧ (attempts ≠ [] → 1 ≤ gets added)
    ∧ saved added = []
    ∧ only_requests url added
    ∧ Gpu.server (Gpu.retry_loop url attempts w).2 = Gpu.server w
    ∧ Gpu.files (Gpu.retry_loop url attempts w).2 = Gpu.files w
    ∧ (Gpu.clock w ≤ Gpu.clock (Gpu.retry_loop url attempts w).2)%Z
    ∧ (∀ r, (Gpu.retry_loop url attempts w).1 = Some r →
            status_code r = 200%Z
            ∧ Gpu.request_manager (Gpu.retry_loop url attempts w).2
              = Gpu.mkRM (Gpu.clock (Gpu.retry_loop url attempts w).2)
                  (S (Gpu.request_count (Gpu.request_manager w)))
                  (Gpu.session_start (Gpu.request_manager w))
                  (Gpu.session_no (Gpu.request_manager w)))
    ∧ ((Gpu.retry_loop url attempts w).1 = None →
       gets added = length attempts
       ∧ Gpu.request_manager (Gpu.retry_loop url attempts w).2 = Gpu.request_manager w).
Proof.
  induction attempts as [|attempt rest IH]; intros w.
  - exists []. cbn. rewrite app_nil_r. repeat split; try (constructor || lia || discriminate).
    intros H; contradiction.
  - assert (Hnext : ∀ k ms, (0 ≤ ms)%Z → ∃ added,
      let w1 := Gpu.mkWorld (Gpu.server w)
                  ((Gpu.trace w ++ [EvGet url]) ++ [EvSleep k ms])
                  (Gpu.clock w + ms) (Gpu.request_manager w) (Gpu.files w) in
      Gpu.trace (Gpu.retry_loop url rest w1).2 = Gpu.trace w ++ added
      ∧ gets added ≤ length (attempt :: rest)
      ∧ (attempt :: rest ≠ [] → 1 ≤ gets added)
      ∧ saved added = []
      ∧ only_requests url added
      ∧ Gpu.server (Gpu.retry_loop url rest w1).2 = Gpu.server w
      ∧ Gpu.files (Gpu.retry_loop url rest w1).2 = Gpu.files w
      ∧ (Gpu.clock w ≤ Gpu.clock (Gpu.retry_loop url rest w1).2)%Z
      ∧ (∀ r, (Gpu.retry_loop url rest w1).1 = Some r →
              status_code r = 200%Z
              ∧ Gpu.request_manager (Gpu.retry_loop url rest w1).2
                = Gpu.mkRM (Gpu.clock (Gpu.retry_loop url rest w1).2)
                    (S (Gpu.request_count (Gpu.request_manager w)))
                    (Gpu.session_start (Gpu.request_manager w))
                    (Gpu.session_no (Gpu.request_manager w)))
      ∧ ((Gpu.retry_loop url rest w1).1 = None →
         gets added = length (attempt :: rest)
         ∧ Gpu.request_manager (Gpu.retry_loop url rest w1).2 = Gpu.request_manager w)).
    { intros k ms Hms. cbn zeta.
      match goal with |- context [Gpu.retry_loop url rest ?w1] =>
        destruct (IH w1) as (added & Ht & Hle & _ & Hsv & Hon & Hs & Hf & Hc & Hsome & Hnone)
      end.
      cbn [Gpu.trace Gpu.server Gpu.files Gpu.clock Gpu.request_manager] in *.
      exists ([EvGet url; EvSleep k ms] ++ added).
      split; [rewrite Ht, <- !app_assoc; reflexivity|].
      rewrite gets_app, saved_app, Hsv. cbn [gets List.filter is_get length Nat.add saved app].
      split; [lia|]. split; [lia|]. split; [reflexivity|].
      split.
      { apply (only_requests_app url [EvGet url; EvSleep k ms]); [|exact Hon].
        repeat constructor; discriminate. }
      split; [exact Hs|]. split; [exact Hf|]. split; [lia|].
      split; [exact Hsome|].
      intros Hn. destruct (Hnone Hn) as [Hg Hrm]. split; [lia | exact Hrm]. }
    remember (Gpu.retry_loop url (attempt :: rest) w) as res eqn:Eres.
    cbn [Gpu.retry_loop] in Eres. unfold bind at 1 in Eres.
    unfold Gpu.http_get at 1 in Eres.
    destruct (Gpu.server w url (gets (Gpu.trace w))) as [r|].
    + destruct (status_code r =? 200)%Z eqn:H200.
      * subst res. exists [EvGet url]. cbn.
        split; [reflexivity|]. split; [lia|]. split; [lia|]. split; [reflexivity|].
        split; [repeat constructor|]. split; [reflexivity|]. split; [reflexivity|].
        split; [lia|]. split; [|discriminate].
        intros r' [= <-]. split; [apply Z.eqb_eq, H200 | reflexivity].
      * destruct (status_code r =? 429)%Z.
        -- destruct (Gpu.retry_after r) as [seconds|].
           ++ destruct (Gpu.sleep_accepts seconds) eqn:Hacc.
              ** unfold Gpu.sleep_accepts in Hacc. apply andb_true_iff in Hacc as [H0 _].
                 apply Z.leb_le in H0. subst res.
                 apply (Hnext RateLimit (1000 * seconds)%Z). lia.
              ** subst res. apply (Hnext Backoff). pose proof (two_pow_pos attempt). lia.
           ++ subst res. apply (Hnext Backoff). pose proof (two_pow_pos attempt). lia.
        -- subst res. apply (Hnext Backoff). pose proof (two_pow_pos attempt). lia.
    + subst res. apply (Hnext Backoff). pose proof (two_pow_pos attempt). lia.
Qed.

(** What [make_request] does before its first attempt, in full: it waits
    until [MIN_DELAY] has passed since the last successful request, and it
    opens a new session when the current one has expired. *)
Lemma make_request_preamble_full url w :
  ∃ pre w0,
    Gpu.make_request url w = Gpu.retry_loop url (seq 0 Gpu.MAX_RETRIES) w0
    ∧ Gpu.trace w0 = Gpu.trace w ++ pre
    ∧ gets pre = 0 ∧ saved pre = [] ∧ only_requests url pre
    ∧ Gpu.server w0 = Gpu.server w
    ∧ Gpu.files w0 = Gpu.files w
    ∧ Gpu.clock w0
      = Z.max (Gpu.clock w)
              (Gpu.last_request_time (Gpu.request_manager w) + Gpu.MIN_DELAY)
    ∧ ((session_expired (Gpu.request_manager w) (Gpu.clock w0)
        ∧ Gpu.request_manager w0
          = Gpu.mkRM (Gpu.last_request_time (Gpu.request_manager w)) 0 (Gpu.clock w0)
              (S (Gpu.session_no (Gpu.request_manager w))))
       ∨ (¬ session_expired (Gpu.request_manager w) (Gpu.clock w0)
          ∧ Gpu.request_manager w0 = Gpu.request_manager w)).
Proof.
  unfold Gpu.make_request, bind, Gpu.now, Gpu.get_rm.
  cbn -[Gpu.retry_loop seq Gpu.MAX_RETRIES Z.max Nat.leb Z.ltb Z.sub Z.add Gpu.SESSION_REQUESTS Gpu.SESSION_DURATION Gpu.MIN_DELAY].
  assert (Hcond : ∀ t,
    (Gpu.SESSION_DURATION <? t - Gpu.session_start (Gpu.request_manager w))%Z
    || (Gpu.SESSION_REQUESTS <=? Gpu.request_count (Gpu.request_manager w)) = true
    ↔ session_expired (Gpu.request_manager w) t).
  { intros t. unfold session_expired. rewrite orb_true_iff, Z.ltb_lt, Nat.leb_le.
    reflexivity. }
  destruct (Z.ltb_spec (Gpu.clock w - Gpu.last_request_time (Gpu.request_manager w))
                       Gpu.MIN_DELAY) as [Hlt|Hge];
    cbn -[Gpu.retry_loop seq Gpu.MAX_RETRIES Z.max Nat.leb Z.ltb Z.sub Z.add Gpu.SESSION_REQUESTS Gpu.SESSION_DURATION Gpu.MIN_DELAY].
  - match goal with |- context [if ?c then _ else _] => destruct c eqn:Hc end;
      cbn -[Gpu.retry_loop seq Gpu.MAX_RETRIES Z.max Nat.leb Z.ltb Z.sub Z.add Gpu.SESSION_REQUESTS Gpu.SESSION_DURATION Gpu.MIN_DELAY];
      eexists [_], _; (split; [reflexivity|]);
      cbn -[Z.max Nat.leb Z.ltb Z.sub Z.add Gpu.SESSION_REQUESTS Gpu.SESSION_DURATION Gpu.MIN_DELAY]; (split; [reflexivity|]); (split; [reflexivity|]);
      (split; [reflexivity|]); (split; [repeat constructor; discriminate|]);
      (split; [reflexivity|]); (split; [reflexivity|]); (split; [lia|]).
    + left. split; [apply Hcond, Hc | reflexivity].
    + right. split; [|destruct (Gpu.request_manager w); reflexivity].
      intros H. apply Hcond in H. congruence.
  - match goal with |- context [if ?c then _ else _] => destruct c eqn:Hc end;
      cbn -[Gpu.retry_loop seq Gpu.MAX_RETRIES Z.max Nat.leb Z.ltb Z.sub Z.add Gpu.SESSION_REQUESTS Gpu.SESSION_DURATION Gpu.MIN_DELAY].
    + eexists [], _; (split; [reflexivity|]);
        cbn -[Z.max Nat.leb Z.ltb Z.sub Z.add Gpu.SESSION_REQUESTS Gpu.SESSION_DURATION Gpu.MIN_DELAY]; rewrite ?app_nil_r; (split; [reflexivity|]); (split; [reflexivity|]);
        (split; [reflexivity|]); (split; [constructor|]);
        (split; [reflexivity|]); (split; [reflexivity|]); (split; [lia|]).
      left. split; [apply Hcond, Hc | reflexivity].
    + exists [], w; (split; [destruct w; reflexivity|]);
        cbn -[Z.max Nat.leb Z.ltb Z.sub Z.add Gpu.SESSION_REQUESTS Gpu.SESSION_DURATION Gpu.MIN_DELAY]; rewrite ?app_nil_r; (split; [reflexivity|]); (split; [reflexivity|]);
        (split; [reflexivity|]); (split; [constructor|]);
        (split; [reflexivity|]); (split; [reflexivity|]); (split; [lia|]).
      right. split; [|reflexivity]. intros H. apply Hcond in H. congruence.
Qed.

(** X3.  Whatever the site answers, one call of
    [RequestManager.make_request] sends at least one and at most
    [MAX_RETRIES] requests, all of them to the URL it was given, and writes
    no file.  A response it returns has status 200; it returns [None] only
    after [MAX_RETRIES] requests. *)
Theorem gpu_make_request_bounded (url : string) (w : Gpu.World) :
  ∃ added,
    Gpu.trace (Gpu.make_request url w).2 = Gpu.trace w ++ added
    ∧ 1 ≤ gets added ≤ Gpu.MAX_RETRIES
    ∧ only_requests url added
    ∧ saved added = []
    ∧ Gpu.files (Gpu.make_request url w).2 = Gpu.files w
    ∧ Gpu.server (Gpu.make_request url w).2 = Gpu.server w
    ∧ (∀ r, (Gpu.make_request url w).1 = Some r → status_code r = 200%Z)
    ∧ ((Gpu.make_request url w).1 = None → gets added = Gpu.MAX_RETRIES).
Proof.
  destruct (make_request_preamble_full url w)
    as (pre & w0 & E & Ht0 & Hg0 & Hsv0 & Hon0 & Hs0 & Hf0 & _).
  destruct (retry_loop_general url (seq 0 Gpu.MAX_RETRIES) w0)
    as (added & Ht & Hle & Hge & Hsv & Hon & Hs & Hf & _ & Hsome & Hnone).
  rewrite E. exists (pre ++ added).
  split; [rewrite Ht, Ht0, app_assoc; reflexivity|].
  rewrite gets_app, saved_app, Hg0, Hsv0, Hsv. rewrite length_seq in Hle.
  split; [split; [apply Hge; discriminate | exact Hle]|].
  split; [apply only_requests_app; assumption|].
  split; [reflexivity|]. split; [congruence|]. split; [congruence|].
  split; [intros r Hr; apply (Hsome r Hr)|].
  intros Hn. destruct (Hnone Hn) as [Hg _]. rewrite length_seq in Hg. exact Hg.
Qed.

(** X4.  A call of [RequestManager.make_request] that no other call of
    the manager overlaps.  The calls of the main thread are such calls: the
    request of [get_month_links] and the first-page request of
    [get_pagination_links] are made while no pool is alive.  When such a
    call returns a response, the time it records as [last_request_time] is
    the current time and lies at least [MIN_DELAY] after the
    [last_request_time] it found.  (The workers of a pool share the manager
    without a lock; nothing is said here of calls that overlap.) *)
Theorem gpu_unshared_request_is_spaced (url : string) (w w' : Gpu.World) (r : Response) :
  Gpu.make_request url w = (Some r, w') →
  Gpu.last_request_time (Gpu.request_manager w') = Gpu.clock w'
  ∧ (Gpu.last_request_time (Gpu.request_manager w) + Gpu.MIN_DELAY
     ≤ Gpu.last_request_time (Gpu.request_manager w'))%Z
  ∧ (∀ max_pages, (Gpu.get_pagination_links url max_pages w).2 = w')
  ∧ (∀ urljoin potential_elements,
       (GpuMain.get_month_links urljoin potential_elements url w).2 = w').
Proof.
  intros Hm.
  destruct (make_request_preamble_full url w)
    as (pre & w0 & E & _ & _ & _ & _ & _ & _ & Hc0 & _).
  destruct (retry_loop_general url (seq 0 Gpu.MAX_RETRIES) w0)
    as (added & _ & _ & _ & _ & _ & _ & _ & Hc & Hsome & _).
  rewrite <- E, Hm in Hc, Hsome. cbn [fst snd] in *.
  destruct (Hsome r eq_refl) as [_ Hrm].
  split; [rewrite Hrm; reflexivity|].
  split; [rewrite Hrm; cbn; lia|].
  split.
  - intros max_pages. unfold Gpu.get_pagination_links, bind. rewrite Hm. reflexivity.
  - intros urljoin potential_elements. unfold GpuMain.get_month_links, bind.
    rewrite Hm. reflexivity.
Qed.

Lemma gpu_unshared_request_is_spaced_witness :
  Gpu.last_request_time
    (Gpu.request_manager (Gpu.make_request "http://literature.awgp.org/v1.1" w_up).2)
  = 1400%Z
  ∧ (Gpu.last_request_time (Gpu.request_manager w_up) + Gpu.MIN_DELAY
     ≤ Gpu.last_request_time
         (Gpu.request_manager (Gpu.make_request "http://literature.awgp.org/v1.1" w_up).2))%Z.
Proof.
  destruct (gpu_unshared_request_is_spaced "http://literature.awgp.org/v1.1" w_up
              (Gpu.make_request "http://literature.awgp.org/v1.1" w_up).2
              (bare_response 200 ∅) eq_refl) as (H1 & H2 & _).
  split; [reflexivity | exact H2].
Defined.

(** X5.  Sessions across a call of [RequestManager.make_request] that no
    other call of the manager overlaps (as for the calls of the main
    thread: the request of [get_month_links] and the first-page request of
    [get_pagination_links]).  A call made when the session has expired
    (more than [SESSION_DURATION] old at the time of the test, or
    [SESSION_REQUESTS] requests served) opens a new session whose counter
    starts again; otherwise the session is kept and the counter grows by
    one when the call succeeds.  Across such a call a counter that is at
    most [SESSION_REQUESTS] stays so.  (The workers of a pool share the
    manager without a lock; nothing is said here of calls that overlap.) *)
Theorem gpu_unshared_call_sessions (url : string) (w : Gpu.World) :
  let rm := Gpu.request_manager w in
  let rm' := Gpu.request_manager (Gpu.make_request url w).2 in
  let t := Z.max (Gpu.clock w) (Gpu.last_request_time rm + Gpu.MIN_DELAY) in
  (session_expired rm t →
     Gpu.session_no rm' = S (Gpu.session_no rm)
     ∧ Gpu.session_start rm' = t
     ∧ Gpu.request_count rm'
       = match (Gpu.make_request url w).1 with Some _ => 1 | None => 0 end)
  ∧ (¬ session_expired rm t →
     Gpu.session_no rm' = Gpu.session_no rm
     ∧ Gpu.session_start rm' = Gpu.session_start rm
     ∧ Gpu.request_count rm'
       = match (Gpu.make_request url w).1 with
         | Some _ => S (Gpu.request_count rm)
         | None => Gpu.request_count rm
         end)
  ∧ (Gpu.request_count rm ≤ Gpu.SESSION_REQUESTS →
     Gpu.request_count rm' ≤ Gpu.SESSION_REQUESTS)
  ∧ (∀ max_pages,
       (Gpu.get_pagination_links url max_pages w).2 = (Gpu.make_request url w).2)
  ∧ (∀ urljoin potential_elements,
       (GpuMain.get_month_links urljoin potential_elements url w).2
       = (Gpu.make_request url w).2).
Proof.
  cbn zeta.
  assert (Hcallers :
    (∀ max_pages,
       (Gpu.get_pagination_links url max_pages w).2 = (Gpu.make_request url w).2)
    ∧ (∀ urljoin potential_elements,
         (GpuMain.get_month_links urljoin potential_elements url w).2
         = (Gpu.make_request url w).2)).
  { split.
    - intros max_pages. unfold Gpu.get_pagination_links, bind.
      destruct (Gpu.make_request url w) as [response w1]. reflexivity.
    - intros urljoin potential_elements. unfold GpuMain.get_month_links, bind.
      destruct (Gpu.make_request url w) as [[r|] w1]; reflexivity. }
  destruct (make_request_preamble_full url w)
    as (pre & w0 & E & _ & _ & _ & _ & _ & _ & Hc0 & Hrot).
  destruct (retry_loop_general url (seq 0 Gpu.MAX_RETRIES) w0)
    as (added & _ & _ & _ & _ & _ & _ & _ & _ & Hsome & Hnone).
  rewrite <- E in Hsome, Hnone. rewrite <- Hc0.
  assert (Hrm : Gpu.request_manager (Gpu.make_request url w).2
                = match (Gpu.make_request url w).1 with
                  | Some _ =>
                      Gpu.mkRM (Gpu.clock (Gpu.make_request url w).2)
                        (S (Gpu.request_count (Gpu.request_manager w0)))
                        (Gpu.session_start (Gpu.request_manager w0))
                        (Gpu.session_no (Gpu.request_manager w0))
                  | None => Gpu.request_manager w0
                  end).
  { destruct (Gpu.make_request url w).1 as [r|] eqn:Er.
    - apply (Hsome r eq_refl).
    - apply (Hnone eq_refl). }
  rewrite Hrm.
  split; [|split; [|split; [|exact Hcallers]]].
  - intros Hexp. destruct Hrot as [[_ ->]|[Hn _]]; [|contradiction].
    destruct (Gpu.make_request url w).1; cbn; repeat split.
  - intros Hexp. destruct Hrot as [[Hy _]|[_ ->]]; [contradiction|].
    destruct (Gpu.make_request url w).1; cbn; repeat split.
  - intros Hle. destruct Hrot as [[_ ->]|[Hn ->]].
    + destruct (Gpu.make_request url w).1; cbn; unfold Gpu.SESSION_REQUESTS; lia.
    + assert (Gpu.request_count (Gpu.request_manager w) < Gpu.SESSION_REQUESTS).
      { unfold session_expired in Hn. lia. }
      destruct (Gpu.make_request url w).1; cbn; lia.
Qed.

(** ** What every part of the sequential script preserves *)

(** A relation between an earlier and a later state that holds across a
    request and across a file write holds across every function of the
    script that is built from the two. *)
Section FinalRuns.

Variable R : Final.World → Final.World → Prop.
Hypothesis R_refl : ∀ w, R w w.
Hypothesis R_trans : ∀ w1 w2 w3, R w1 w2 → R w2 w3 → R w1 w3.
Hypothesis R_request : ∀ url w, R w (Final.make_request url w).2.
Hypothesis R_save : ∀ path data w, R w (Final.save path data w).2.

Variable urljoin : string → string → string.

Lemma final_inv_frame_images output_dir frame_url page_index j images :
  ∀ k w, R w (Final.frame_images urljoin output_dir frame_url page_index j k images w).2.
Proof using R_refl R_trans R_request R_save.
  induction images as [|img rest IH]; intros k w; cbn [Final.frame_images].
  - apply R_refl.
  - destruct (img !! "src") as [src|]; [|apply IH].
    unfold bind.
    pose proof (R_request (urljoin frame_url src) w) as H1.
    destruct (Final.make_request (urljoin frame_url src) w) as [[r|] w1]; cbn [snd] in H1.
    + match goal with |- context [Final.save ?p ?d w1] =>
        pose proof (R_save p d w1) as H2;
        destruct (Final.save p d w1) as [[] w2] end.
      cbn [snd] in H2. pose proof (IH (S k) w2) as H3.
      destruct (Final.frame_images urljoin output_dir frame_url page_index j (S k) rest w2)
        as [n w3]. cbn [snd ret] in *. eauto.
    + eapply R_trans; [exact H1 | apply IH].
Qed.

Lemma final_inv_page_frames output_dir page_url page_index frs :
  ∀ j w, R w (Final.page_frames urljoin output_dir page_url page_index j frs w).2.
Proof using R_refl R_trans R_request R_save.
  induction frs as [|frame rest IH]; intros j w; cbn [Final.page_frames].
  - apply R_refl.
  - destruct (frame !! "src") as [src|]; [|apply IH].
    unfold bind.
    pose proof (R_request (urljoin page_url src) w) as H1.
    destruct (Final.make_request (urljoin page_url src) w) as [[r|] w1]; cbn [snd] in H1.
    + pose proof (final_inv_frame_images output_dir (urljoin page_url src)
                    page_index j (imgs (body r)) 0 w1) as H2.
      destruct (Final.frame_images urljoin output_dir (urljoin page_url src) page_index j 0
                  (imgs (body r)) w1) as [n w2]. cbn [snd] in H2.
      pose proof (IH (S j) w2) as H3.
      destruct (Final.page_frames urljoin output_dir page_url page_index (S j) rest w2)
        as [m w3]. cbn [snd ret] in *. eauto.
    + eapply R_trans; [exact H1 | apply IH].
Qed.

Lemma final_inv_page_images output_dir page_url page_index images :
  ∀ i w, R w (Final.page_images urljoin output_dir page_url page_index i images w).2.
Proof using R_refl R_trans R_request R_save.
  induction images as [|img rest IH]; intros i w; cbn [Final.page_images].
  - apply R_refl.
  - destruct (img !! "src") as [src|]; [|apply IH].
    destruct (denylisted src); [apply IH|].
    destruct (negb (Final.is_large_image img)); [apply IH|].
    unfold bind.
    pose proof (R_request (urljoin page_url src) w) as H1.
    destruct (Final.make_request (urljoin page_url src) w) as [[r|] w1]; cbn [snd] in H1.
    + match goal with |- context [Final.save ?p ?d w1] =>
        pose proof (R_save p d w1) as H2;
        destruct (Final.save p d w1) as [[] w2] end.
      cbn [snd] in H2. pose proof (IH (S i) w2) as H3.
      destruct (Final.page_images urljoin output_dir page_url page_index (S i) rest w2)
        as [n w3]. cbn [snd ret] in *. eauto.
    + eapply R_trans; [exact H1 | apply IH].
Qed.

Lemma final_inv_scan_page output_dir page_url page_index w :
  R w (Final.scan_page urljoin output_dir page_url page_index w).2.
Proof using R_refl R_trans R_request R_save.
  unfold Final.scan_page, bind.
  pose proof (R_request page_url w) as H1.
  destruct (Final.make_request page_url w) as [[r|] w1]; cbn [snd ret] in *; [|exact H1].
  pose proof (final_inv_page_images output_dir page_url page_index (imgs (body r)) 0 w1)
    as H2.
  destruct (Final.page_images urljoin output_dir page_url page_index 0 (imgs (body r)) w1)
    as [n w2]. cbn [snd] in H2.
  destruct (n =? 0).
  - eapply R_trans; [exact H1|].
    eapply R_trans; [exact H2 | apply final_inv_page_frames].
  - cbn. eauto.
Qed.

Lemma final_inv_scan_pages output_dir pages :
  ∀ page_index w, R w (Final.scan_pages urljoin output_dir page_index pages w).2.
Proof using R_refl R_trans R_request R_save.
  induction pages as [|page_url rest IH]; intros page_index w; cbn [Final.scan_pages].
  - apply R_refl.
  - unfold bind.
    pose proof (final_inv_scan_page output_dir page_url page_index w) as H1.
    destruct (Final.scan_page urljoin output_dir page_url page_index w) as [n w1].
    pose proof (IH (S page_index) w1) as H2.
    destruct (Final.scan_pages urljoin output_dir (S page_index) rest w1) as [m w2].
    cbn [snd ret] in *. eauto.
Qed.

Lemma final_inv_download_scan_images url output_dir w :
  R w (Final.download_scan_images urljoin url output_dir w).2.
Proof using R_refl R_trans R_request R_save.
  unfold Final.download_scan_images, bind.
  pose proof (final_inv_scan_pages output_dir (Final.get_pagination_links url 2) 0 w) as H.
  destruct (Final.scan_pages urljoin output_dir 0 (Final.get_pagination_links url 2) w)
    as [n w1]. exact H.
Qed.

Lemma final_inv_text_pages pages :
  ∀ i all_text content_found w,
    R w (Final.text_pages i pages all_text content_found w).2.
Proof using R_refl R_trans R_request.
  induction pages as [|page_url rest IH]; intros i all_text content_found w;
    cbn [Final.text_pages].
  - apply R_refl.
  - unfold bind. pose proof (R_request page_url w) as H1.
    destruct (Final.make_request page_url w) as [[r|] w1]; cbn [snd] in H1.
    + destruct (find_content Final.content_selectors (body r));
        (eapply R_trans; [exact H1 | apply IH]).
    + eapply R_trans; [exact H1 | apply IH].
Qed.

Lemma final_inv_download_text_content url output_file w :
  R w (Final.download_text_content url output_file w).2.
Proof using R_refl R_trans R_request R_save.
  unfold Final.download_text_content, bind.
  pose proof (final_inv_text_pages (Final.get_pagination_links url 3) 0 "" false w) as H.
  destruct (Final.text_pages 0 (Final.get_pagination_links url 3) "" false w)
    as [[all_text content_found] w1]. cbn [snd] in H.
  destruct content_found; cbn [negb]; [|exact H].
  eapply R_trans; [exact H | apply R_save].
Qed.

Lemma final_inv_process_month year month versions w :
  R w (Final.process_month urljoin year month versions w).2.
Proof using R_refl R_trans R_request R_save.
  rewrite final_process_month_cases, final_month_text_cases. cbn zeta.
  assert (Ht : R w (Final.download_text_content (default "" (v_text versions))
                      (Final.text_file year month) w).2)
    by apply final_inv_download_text_content.
  assert (Hs : ∀ w1, R w w1 →
            R w (Final.download_scan_images urljoin (default "" (v_scan versions))
                   (Final.scan_dir year month) w1).2).
  { intros w1 H1. eapply R_trans; [exact H1 | apply final_inv_download_scan_images]. }
  destruct (truthy (v_text versions)).
  - destruct (bool_decide _).
    + cbn. apply R_refl.
    + destruct (Final.download_text_content _ _ w).1; cbn [fst snd negb andb].
      * exact Ht.
      * destruct (truthy (v_scan versions)); cbn [snd]; [apply Hs, Ht | exact Ht].
  - cbn [fst snd negb andb].
    destruct (truthy (v_scan versions)); cbn [snd]; [apply Hs, R_refl | apply R_refl].
Qed.

Lemma final_inv_month_body dumps year metadata entry w :
  R w (Final.month_body urljoin dumps year metadata entry w).2.
Proof using R_refl R_trans R_request R_save.
  unfold Final.month_body, bind.
  pose proof (final_inv_process_month year entry.1 entry.2 w) as H.
  destruct (Final.process_month urljoin year entry.1 entry.2 w) as [m w1]. cbn [snd] in H.
  eapply R_trans; [exact H|].
  match goal with |- context [Final.save ?p ?d w1] =>
    pose proof (R_save p d w1) as H2; destruct (Final.save p d w1) as [[] w2] end.
  exact H2.
Qed.

Lemma final_inv_month_loop dumps year months_data :
  ∀ metadata w, R w (Final.month_loop urljoin dumps year months_data metadata w).2.
Proof using R_refl R_trans R_request R_save.
  induction months_data as [|entry rest IH]; intros metadata w; cbn [Final.month_loop].
  - apply R_refl.
  - unfold bind. pose proof (final_inv_month_body dumps year metadata entry w) as H.
    destruct (Final.month_body urljoin dumps year metadata entry w) as [metadata' w1].
    eapply R_trans; [exact H | apply IH].
Qed.

End FinalRuns.

(** ** The request discipline of the sequential script *)

Lemma final_paced_save path data w :
  final_paced w → final_paced (Final.save path data w).2.
Proof.
  unfold final_paced. cbn -[gets sleeps Nat.div Z.mul].
  rewrite gets_app, !sleeps_app.
  change (gets [EvSave path data]) with 0.
  change (sleeps Pause [EvSave path data]) with (@nil Z).
  change (sleeps Throttle [EvSave path data]) with (@nil Z).
  change (sleeps RateLimit [EvSave path data]) with (@nil Z).
  change (sleeps Backoff [EvSave path data]) with (@nil Z).
  rewrite Nat.add_0_r, !app_nil_r. tauto.
Qed.

Lemma final_paced_request url w :
  final_paced w → final_paced (Final.make_request url w).2.
Proof.
  unfold final_paced. intros (Hc & Hp & Ht & Hr & Hb).
  unfold Final.make_request, bind, Final.bump_counter, Final.http_get.
  cbn -[Nat.div Nat.modulo gets sleeps Z.mul].
  destruct (Nat.eqb_spec (S (Final.request_counter w) mod Final.DELAY_AFTER_REQUESTS) 0)
    as [Hm|Hm]; cbn -[Nat.div Nat.modulo gets sleeps Z.mul].
  - assert (Hd : S (Final.request_counter w) / Final.DELAY_AFTER_REQUESTS
                 = S (Final.request_counter w / Final.DELAY_AFTER_REQUESTS)).
    { unfold Final.DELAY_AFTER_REQUESTS in *.
      pose proof (Nat.div_mod_eq (S (Final.request_counter w)) 3) as Hq.
      rewrite Hm, Nat.add_0_r in Hq.
      assert (Hu : S (Final.request_counter w) / 3 - 1 = Final.request_counter w / 3)
        by (apply (Nat.div_unique _ 3 _ 2); lia).
      lia. }
    destruct (Final.server w url _) as [r|];
      [destruct (status_code r =? 200)%Z|];
      cbn -[Nat.div Nat.modulo gets sleeps Z.mul];
      rewrite !gets_app, !sleeps_app, Hd, Hp, Ht, Hr, Hb; cbn -[Nat.div Z.mul];
      rewrite !app_nil_r, <- repeat_cons; (split; [lia|]); repeat split.
  - assert (Hd : S (Final.request_counter w) / Final.DELAY_AFTER_REQUESTS
                 = Final.request_counter w / Final.DELAY_AFTER_REQUESTS).
    { unfold Final.DELAY_AFTER_REQUESTS in *.
      pose proof (Nat.div_mod_eq (S (Final.request_counter w)) 3) as Hq.
      pose proof (Nat.mod_upper_bound (S (Final.request_counter w)) 3) as Hr3.
      apply (Nat.div_unique _ 3 _ (S (Final.request_counter w) mod 3 - 1)); lia. }
    destruct (Final.server w url _) as [r|];
      [destruct (status_code r =? 200)%Z|];
      cbn -[Nat.div Nat.modulo gets sleeps Z.mul];
      rewrite !gets_app, !sleeps_app, Hd, Hp, Ht, Hr, Hb; cbn -[Nat.div Z.mul];
      rewrite ?app_nil_r; (split; [lia|]); repeat split.
Qed.

(** X6.  Throughout [final_scrapping.py] the requests are paced: in a run
    that starts with the counter at the number of requests sent so far,
    every function keeps the global counter equal to the number of
    requests sent, has paused [DELAY_SECONDS] once for every
    [DELAY_AFTER_REQUESTS] requests, and never sleeps otherwise. *)
Theorem final_requests_are_paced (urljoin : string → string → string)
    (dumps : Metadata → string) (w : Final.World) :
  final_paced w →
  (∀ url, final_paced (Final.make_request url w).2)
  ∧ (∀ url output_file, final_paced (Final.download_text_content url output_file w).2)
  ∧ (∀ url output_dir, final_paced (Final.download_scan_images urljoin url output_dir w).2)
  ∧ (∀ year month versions,
       final_paced (Final.process_month urljoin year month versions w).2)
  ∧ (∀ year months_data metadata,
       final_paced (Final.month_loop urljoin dumps year months_data metadata w).2).
Proof.
  intros Hw.
  pose (R := fun w1 w2 : Final.World => final_paced w1 → final_paced w2).
  assert (R_refl : ∀ w1, R w1 w1) by (intros w1 H; exact H).
  assert (R_trans : ∀ w1 w2 w3, R w1 w2 → R w2 w3 → R w1 w3)
    by (intros w1 w2 w3 H1 H2 H; apply H2, H1, H).
  assert (R_request : ∀ url w1, R w1 (Final.make_request url w1).2)
    by (intros url w1 H; apply final_paced_request, H).
  assert (R_save : ∀ path data w1, R w1 (Final.save path data w1).2)
    by (intros path data w1 H; apply final_paced_save, H).
  split; [intros url; apply R_request, Hw|].
  split; [intros url output_file;
          apply (final_inv_download_text_content R R_refl R_trans R_request R_save), Hw|].
  split; [intros url output_dir;
          apply (final_inv_download_scan_images R R_refl R_trans R_request R_save), Hw|].
  split; [intros year month versions;
          apply (final_inv_process_month R R_refl R_trans R_request R_save), Hw|].
  intros year months_data metadata.
  apply (final_inv_month_loop R R_refl R_trans R_request R_save), Hw.
Qed.

Lemma final_requests_are_paced_witness :
  final_paced (final_start three_page_site ∅)
  ∧ final_paced
      (Final.download_text_content
         "http://literature.awgp.org/hindi/akhandjyoti/1950/v10.1" "out.txt"
         (final_start three_page_site ∅)).2.
Proof.
  assert (H : final_paced (final_start three_page_site ∅)) by (repeat split).
  split; [exact H|].
  apply (final_requests_are_paced (fun _ u => u) (fun _ => "") _ H).
Defined.

(** ** The requests and writes of the sequential text job *)

Lemma requests_app (t1 t2 : list Event) : requests (t1 ++ t2) = requests t1 ++ requests t2.
Proof.
  induction t1 as [|e t1 IH]; [reflexivity|].
  destruct e; cbn; rewrite ?IH; reflexivity.
Qed.

Lemma requests_none (t : list Event) : gets t = 0 → requests t = [].
Proof.
  induction t as [|e t IH]; [reflexivity|].
  destruct e; cbn; [discriminate | exact IH | exact IH].
Qed.

Lemma requests_length (t : list Event) : length (requests t) = gets t.
Proof.
  induction t as [|e t IH]; [reflexivity|].
  destruct e; cbn; [f_equal| |]; exact IH.
Qed.

(** One call of [make_request] of [final_scrapping.py] is one request. *)
Lemma final_make_request_requests url w :
  ∃ added,
    Final.trace (Final.make_request url w).2 = Final.trace w ++ added
    ∧ requests added = [url] ∧ saved added = []
    ∧ Final.files (Final.make_request url w).2 = Final.files w
    ∧ Final.server (Final.make_request url w).2 = Final.server w.
Proof.
  destruct (final_make_request_spec url w) as (pre & w1 & E & Ht & Hg & Hsv & Hs & Hf).
  rewrite E. exists (pre ++ [EvGet url]). cbn [snd].
  rewrite requests_app, saved_app, Hsv, (requests_none pre Hg).
  repeat split; assumption.
Qed.

Lemma final_page_contents_requests pages :
  ∀ w, ∃ added,
    Final.trace (final_page_contents pages w).2 = Final.trace w ++ added
    ∧ requests added = pages ∧ saved added = []
    ∧ Final.files (final_page_contents pages w).2 = Final.files w.
Proof.
  induction pages as [|page_url rest IH]; intros w.
  - exists []. cbn. rewrite app_nil_r. repeat split.
  - rewrite final_page_contents_cons. cbn [snd].
    destruct (final_make_request_requests page_url w) as (a1 & Ht1 & Hr1 & Hs1 & Hf1 & _).
    destruct (IH (Final.make_request page_url w).2) as (a2 & Ht2 & Hr2 & Hs2 & Hf2).
    exists (a1 ++ a2). rewrite Ht2, Ht1, requests_app, saved_app, Hr1, Hr2, Hs1, Hs2, Hf2, Hf1.
    rewrite <- app_assoc. repeat split.
Qed.

(** X7.  The text job of [final_scrapping.py] requests each enumerated
    page exactly once, in page order, and nothing else (one or three
    requests).  It writes the output file once when it succeeds and writes
    nothing when it fails; every other file is left as it was. *)
Theorem final_text_job_requests_and_writes (url output_file : string) (w : Final.World) :
  ∃ added,
    Final.trace (Final.download_text_content url output_file w).2 = Final.trace w ++ added
    ∧ requests added = Final.get_pagination_links url 3
    ∧ (length (requests added) = 1 ∨ length (requests added) = 3)
    ∧ (if (Final.download_text_content url output_file w).1
       then ∃ text, saved added = [(output_file, text)]
                    ∧ Final.files (Final.download_text_content url output_file w).2
                      = <[output_file := text]> (Final.files w)
       else saved added = []
            ∧ Final.files (Final.download_text_content url output_file w).2
              = Final.files w)
    ∧ (∀ path, path ≠ output_file →
         Final.files (Final.download_text_content url output_file w).2 !! path
         = Final.files w !! path).
Proof.
  rewrite final_download_text_content_spec.
  destruct (final_page_contents_requests (Final.get_pagination_links url 3) w)
    as (added & Ht & Hr & Hs & Hf).
  assert (Hlen : length (Final.get_pagination_links url 3) = 1
                 ∨ length (Final.get_pagination_links url 3) = 3).
  { unfold Final.get_pagination_links. destruct (Re.search_versioned url); [right|left];
      reflexivity. }
  destruct (existsb has_content _).
  - eexists (added ++ [EvSave output_file _]). cbn [fst snd Final.save Final.trace Final.files].
    rewrite Ht, requests_app, saved_app, Hr, Hs, Hf, app_nil_r, <- app_assoc.
    split; [reflexivity|]. split; [reflexivity|]. split; [exact Hlen|].
    split; [eexists; split; reflexivity|].
    intros path Hne. unfold write_file. apply lookup_insert_ne. congruence.
  - exists added. cbn [fst snd]. rewrite Hr.
    split; [exact Ht|]. split; [reflexivity|]. split; [exact Hlen|].
    split; [split; assumption|]. intros path _. rewrite Hf. reflexivity.
Qed.

(** ** The writes of the sequential image job *)

(** A relation between states that is indexed by a count: when it holds
    with 0 across a request and with 1 across the write of an image file,
    it holds across the functions of the image job with the count they
    return. *)
Section FinalScanRuns.

Variable urljoin : string → string → string.
Variable output_dir : string.
Variable R : nat → Final.World → Final.World → Prop.
Hypothesis R_refl : ∀ w, R 0 w w.
Hypothesis R_trans : ∀ n m w1 w2 w3, R n w1 w2 → R m w2 w3 → R (n + m) w1 w3.
Hypothesis R_request : ∀ url w, R 0 w (Final.make_request url w).2.
Hypothesis R_save :
  ∀ name data w,
    R 1 w (Final.save (Py.path_join output_dir ("page_" +:+ name)) data w).2.

Lemma final_count_frame_images frame_url page_index j images :
  ∀ k w,
    R (Final.frame_images urljoin output_dir frame_url page_index j k images w).1 w
      (Final.frame_images urljoin output_dir frame_url page_index j k images w).2.
Proof using R_refl R_trans R_request R_save.
  induction images as [|img rest IH]; intros k w; cbn [Final.frame_images].
  - apply R_refl.
  - destruct (img !! "src") as [src|]; [|apply IH].
    unfold bind.
    pose proof (R_request (urljoin frame_url src) w) as H1.
    destruct (Final.make_request (urljoin frame_url src) w) as [[r|] w1]; cbn [snd] in H1.
    + match goal with |- context [Final.save (Py.path_join output_dir ("page_" +:+ ?nm)) ?d w1] =>
        pose proof (R_save nm d w1) as H2;
        destruct (Final.save (Py.path_join output_dir ("page_" +:+ nm)) d w1) as [[] w2] end.
      cbn [snd] in H2. pose proof (IH (S k) w2) as H3.
      destruct (Final.frame_images urljoin output_dir frame_url page_index j (S k) rest w2)
        as [n w3]. cbn [fst snd ret] in *.
      exact (R_trans 0 (S n) _ _ _ H1 (R_trans 1 n _ _ _ H2 H3)).
    + exact (R_trans 0 _ _ _ _ H1 (IH (S k) w1)).
Qed.

Lemma final_count_page_frames page_url page_index frs :
  ∀ j w,
    R (Final.page_frames urljoin output_dir page_url page_index j frs w).1 w
      (Final.page_frames urljoin output_dir page_url page_index j frs w).2.
Proof using R_refl R_trans R_request R_save.
  induction frs as [|frame rest IH]; intros j w; cbn [Final.page_frames].
  - apply R_refl.
  - destruct (frame !! "src") as [src|]; [|apply IH].
    unfold bind.
    pose proof (R_request (urljoin page_url src) w) as H1.
    destruct (Final.make_request (urljoin page_url src) w) as [[r|] w1]; cbn [snd] in H1.
    + pose proof (final_count_frame_images (urljoin page_url src) page_index j
                    (imgs (body r)) 0 w1) as H2.
      destruct (Final.frame_images urljoin output_dir (urljoin page_url src) page_index j 0
                  (imgs (body r)) w1) as [n w2]. cbn [fst snd] in H2.
      pose proof (IH (S j) w2) as H3.
      destruct (Final.page_frames urljoin output_dir page_url page_index (S j) rest w2)
        as [m w3]. cbn [fst snd ret] in *.
      exact (R_trans 0 (n + m) _ _ _ H1 (R_trans n m _ _ _ H2 H3)).
    + exact (R_trans 0 _ _ _ _ H1 (IH (S j) w1)).
Qed.

Lemma final_count_page_images page_url page_index images :
  ∀ i w,
    R (Final.page_images urljoin output_dir page_url page_index i images w).1 w
      (Final.page_images urljoin output_dir page_url page_index i images w).2.
Proof using R_refl R_trans R_request R_save.
  induction images as [|img rest IH]; intros i w; cbn [Final.page_images].
  - apply R_refl.
  - destruct (img !! "src") as [src|]; [|apply IH].
    destruct (denylisted src); [apply IH|].
    destruct (negb (Final.is_large_image img)); [apply IH|].
    unfold bind.
    pose proof (R_request (urljoin page_url src) w) as H1.
    destruct (Final.make_request (urljoin page_url src) w) as [[r|] w1]; cbn [snd] in H1.
    + match goal with |- context [Final.save (Py.path_join output_dir ("page_" +:+ ?nm)) ?d w1] =>
        pose proof (R_save nm d w1) as H2;
        destruct (Final.save (Py.path_join output_dir ("page_" +:+ nm)) d w1) as [[] w2] end.
      cbn [snd] in H2. pose proof (IH (S i) w2) as H3.
      destruct (Final.page_images urljoin output_dir page_url page_index (S i) rest w2)
        as [n w3]. cbn [fst snd ret] in *.
      exact (R_trans 0 (S n) _ _ _ H1 (R_trans 1 n _ _ _ H2 H3)).
    + exact (R_trans 0 _ _ _ _ H1 (IH (S i) w1)).
Qed.

Lemma final_count_scan_page page_url page_index w :
  R (Final.scan_page urljoin output_dir page_url page_index w).1 w
    (Final.scan_page urljoin output_dir page_url page_index w).2.
Proof using R_refl R_trans R_request R_save.
  unfold Final.scan_page, bind.
  pose proof (R_request page_url w) as H1.
  destruct (Final.make_request page_url w) as [[r|] w1]; cbn [fst snd ret] in *; [|exact H1].
  pose proof (final_count_page_images page_url page_index (imgs (body r)) 0 w1) as H2.
  destruct (Final.page_images urljoin output_dir page_url page_index 0 (imgs (body r)) w1)
    as [n w2]. cbn [fst snd] in H2.
  destruct (Nat.eqb_spec n 0) as [->|Hn].
  - exact (R_trans 0 _ _ _ _ H1 (R_trans 0 _ _ _ _ H2
             (final_count_page_frames page_url page_index (frames (body r)) 0 w2))).
  - exact (R_trans 0 n _ _ _ H1 H2).
Qed.

Lemma final_count_scan_pages pages :
  ∀ page_index w,
    R (Final.scan_pages urljoin output_dir page_index pages w).1 w
      (Final.scan_pages urljoin output_dir page_index pages w).2.
Proof using R_refl R_trans R_request R_save.
  induction pages as [|page_url rest IH]; intros page_index w; cbn [Final.scan_pages].
  - apply R_refl.
  - unfold bind.
    pose proof (final_count_scan_page page_url page_index w) as H1.
    destruct (Final.scan_page urljoin output_dir page_url page_index w) as [n w1].
    pose proof (IH (S page_index) w1) as H2.
    destruct (Final.scan_pages urljoin output_dir (S page_index) rest w1) as [m w2].
    cbn [fst snd ret] in *. exact (R_trans n m _ _ _ H1 H2).
Qed.

Lemma final_count_download_scan_images url w :
  ∃ n, R n w (Final.download_scan_images urljoin url output_dir w).2
       ∧ (Final.download_scan_images urljoin url output_dir w).1 = (0 <? n).
Proof using R_refl R_trans R_request R_save.
  unfold Final.download_scan_images, bind.
  pose proof (final_count_scan_pages (Final.get_pagination_links url 2) 0 w) as H.
  destruct (Final.scan_pages urljoin output_dir 0 (Final.get_pagination_links url 2) w)
    as [n w1]. exists n. split; [exact H | reflexivity].
Qed.

End FinalScanRuns.

(** X8.  [download_scan_images] of [final_scrapping.py] returns [True]
    exactly when it saved at least one image.  Every file it writes is an
    image file of its output directory (a name beginning with [page_]
    joined to [output_dir]); every other file is left as it was. *)
Theorem final_scan_job_writes (urljoin : string → string → string)
    (url output_dir : string) (w : Final.World) :
  ∃ added,
    Final.trace (Final.download_scan_images urljoin url output_dir w).2
    = Final.trace w ++ added
    ∧ (Final.download_scan_images urljoin url output_dir w).1
      = (0 <? length (saved added))
    ∧ Forall (fun pd => scan_image_path output_dir pd.1) (saved added)
    ∧ (∀ path, ¬ scan_image_path output_dir path →
         Final.files (Final.download_scan_images urljoin url output_dir w).2 !! path
         = Final.files w !! path).
Proof.
  pose (R := fun (n : nat) (w1 w2 : Final.World) =>
    ∃ added, Final.trace w2 = Final.trace w1 ++ added
             ∧ length (saved added) = n
             ∧ Forall (fun pd => scan_image_path output_dir pd.1) (saved added)
             ∧ (∀ path, ¬ scan_image_path output_dir path →
                        Final.files w2 !! path = Final.files w1 !! path)).
  assert (R_refl : ∀ w1, R 0 w1 w1).
  { intros w1. exists []. rewrite app_nil_r. repeat split. constructor. }
  assert (R_trans : ∀ n m w1 w2 w3, R n w1 w2 → R m w2 w3 → R (n + m) w1 w3).
  { intros n m w1 w2 w3 (a1 & Ht1 & Hl1 & Hp1 & Hf1) (a2 & Ht2 & Hl2 & Hp2 & Hf2).
    exists (a1 ++ a2). rewrite Ht2, Ht1, saved_app, length_app, Hl1, Hl2, app_assoc.
    split; [reflexivity|]. split; [reflexivity|].
    split; [apply Forall_app; split; assumption|].
    intros path Hp. rewrite Hf2, Hf1 by exact Hp. reflexivity. }
  assert (R_request : ∀ u w1, R 0 w1 (Final.make_request u w1).2).
  { intros u w1. destruct (final_make_request_requests u w1) as (a & Ht & _ & Hs & Hf & _).
    exists a. rewrite Hs, Hf. repeat split; [exact Ht | constructor]. }
  assert (R_save : ∀ name data w1,
            R 1 w1 (Final.save (Py.path_join output_dir ("page_" +:+ name)) data w1).2).
  { intros name data w1. eexists [_]. cbn. split; [reflexivity|]. split; [reflexivity|].
    split; [repeat constructor; exists name; reflexivity|].
    intros path Hp. unfold write_file. apply lookup_insert_ne.
    intros <-. apply Hp. exists name. reflexivity. }
  destruct (final_count_download_scan_images urljoin output_dir R R_refl R_trans R_request
              R_save url w) as (n & (added & Ht & Hl & Hp & Hf) & Hb).
  exists added. rewrite Hb, Hl. repeat split; assumption.
Qed.

(** X9.  The direct image loop of [final_scrapping.py] requests exactly the
    images that have a [src], are not on the denylist and pass the size
    test: one request each, in document order, and no other request. *)
Theorem final_direct_loop_requests (urljoin : string → string → string)
    (output_dir page_url : string) (page_index : nat) (images : list Attrs) :
  ∀ i w, ∃ added,
    Final.trace (Final.page_images urljoin output_dir page_url page_index i images w).2
    = Final.trace w ++ added
    ∧ requests added = map (urljoin page_url) (omap final_eligible_src images).
Proof.
  induction images as [|img rest IH]; intros i w; cbn [Final.page_images].
  - exists []. cbn. rewrite app_nil_r. split; reflexivity.
  - cbn [omap list_omap]. fold (omap final_eligible_src rest).
    unfold final_eligible_src at 1.
    destruct (img !! "src") as [src|]; [|apply IH].
    destruct (denylisted src); [apply IH|].
    destruct (Final.is_large_image img); cbn [negb]; [|apply IH].
    unfold bind.
    destruct (final_make_request_requests (urljoin page_url src) w)
      as (a1 & Ht1 & Hr1 & _).
    destruct (Final.make_request (urljoin page_url src) w) as [[r|] w1]; cbn [snd] in Ht1.
    + cbn [Final.save].
      match goal with |- context [Final.page_images _ _ _ _ _ rest ?w2] =>
        destruct (IH (S i) w2) as (a2 & Ht2 & Hr2);
        destruct (Final.page_images urljoin output_dir page_url page_index (S i) rest w2)
          as [n w3] end.
      cbn [snd ret Final.trace] in *.
      eexists (a1 ++ [EvSave _ _] ++ a2).
      rewrite Ht2, Ht1, !requests_app, Hr1, Hr2, <- !app_assoc. split; reflexivity.
    + destruct (IH (S i) w1) as (a2 & Ht2 & Hr2).
      exists (a1 ++ a2). rewrite Ht2, Ht1, requests_app, Hr1, Hr2, <- app_assoc.
      split; reflexivity.
Qed.

(** ** File names of the sequential image job *)

Lemma lstrip_zeros_zeros k s : lstrip_zeros (Py.zeros k +:+ s) = lstrip_zeros s.
Proof. induction k as [|k IH]; [reflexivity|]. exact IH. Qed.

Lemma lstrip_zeros_str n : lstrip_zeros (Py.str n) = if decide (n = 0) then "" else Py.str n.
Proof.
  destruct (decide (n = 0)) as [->|Hn]; [reflexivity|].
  destruct (str_leading n Hn) as (c & s & -> & Hc). cbn.
  destruct (Ascii.eqb_spec c "0"); [contradiction | reflexivity].
Qed.

(** Zero padding keeps numbers apart. *)
Lemma zfill_inj width n m : Py.zfill width n = Py.zfill width m → n = m.
Proof.
  unfold Py.zfill. intros E. apply (f_equal lstrip_zeros) in E.
  rewrite !lstrip_zeros_zeros, !lstrip_zeros_str in E.
  destruct (decide (n = 0)) as [->|Hn], (decide (m = 0)) as [->|Hm]; try reflexivity.
  - destruct (str_digits m) as [_ H]. congruence.
  - destruct (str_digits n) as [_ H]. congruence.
  - apply str_inj, E.
Qed.

Lemma zeros_digits k : all_digits (Py.zeros k) = true.
Proof. induction k as [|k IH]; [reflexivity|]. exact IH. Qed.

Lemma zfill_digits width n : all_digits (Py.zfill width n) = true.
Proof.
  unfold Py.zfill. rewrite all_digits_app, zeros_digits.
  destruct (str_digits n) as [-> _]. reflexivity.
Qed.

Lemma path_join_inj d a b : Py.path_join d a = Py.path_join d b → a = b.
Proof.
  unfold Py.path_join. destruct (String.eqb d ""); [auto|].
  destruct (Py.ends_with_slash d); intros E.
  - apply (String.app_inj d), E.
  - apply (String.app_inj d) in E. apply (String.app_inj "/"), E.
Qed.

(** The file names separate pages, images and frames. *)
Lemma direct_image_file_inj d p i e p' i' e' :
  direct_image_file d p i e = direct_image_file d p' i' e' → p = p' ∧ i = i'.
Proof.
  unfold direct_image_file. intros E. apply path_join_inj in E.
  apply (String.app_inj "page_") in E.
  apply (digits_split _ _ "i" "i") in E as [Ep E];
    [|apply zfill_digits|apply zfill_digits|reflexivity|reflexivity].
  apply zfill_inj in Ep.
  apply (String.app_inj "img") in E.
  apply (digits_split _ _ "." ".") in E as [Ei _];
    [|apply zfill_digits|apply zfill_digits|reflexivity|reflexivity].
  apply zfill_inj in Ei. lia.
Qed.

Lemma frame_image_file_inj d p j k p' j' k' :
  frame_image_file d p j k = frame_image_file d p' j' k' → p = p' ∧ j = j' ∧ k = k'.
Proof.
  unfold frame_image_file. intros E. apply path_join_inj in E.
  apply (String.app_inj "page_") in E.
  apply (digits_split _ _ "f" "f") in E as [Ep E];
    [|apply zfill_digits|apply zfill_digits|reflexivity|reflexivity].
  apply zfill_inj in Ep.
  apply (String.app_inj "frame") in E.
  apply (digits_split _ _ "i" "i") in E as [Ej E];
    [|apply zfill_digits|apply zfill_digits|reflexivity|reflexivity].
  apply zfill_inj in Ej.
  apply (String.app_inj "img") in E.
  apply (digits_split _ _ "." ".") in E as [Ek _];
    [|apply zfill_digits|apply zfill_digits|reflexivity|reflexivity].
  apply zfill_inj in Ek. lia.
Qed.

Lemma direct_frame_file_ne d p i e p' j k :
  direct_image_file d p i e ≠ frame_image_file d p' j k.
Proof.
  unfold direct_image_file, frame_image_file. intros E. apply path_join_inj in E.
  apply (String.app_inj "page_") in E.
  apply (digits_split _ _ "i" "f") in E as [_ E];
    [|apply zfill_digits|apply zfill_digits|reflexivity|reflexivity].
  discriminate.
Qed.

Lemma image_file_page_inj d p p' path :
  image_file_of_page d p path → image_file_of_page d p' path → p = p'.
Proof.
  intros [(i & e & ->)|(j & k & ->)] [(i' & e' & E)|(j' & k' & E)].
  - apply direct_image_file_inj in E. lia.
  - destruct (direct_frame_file_ne _ _ _ _ _ _ _ E).
  - symmetry in E. destruct (direct_frame_file_ne _ _ _ _ _ _ _ E).
  - apply frame_image_file_inj in E. lia.
Qed.

Lemma final_page_images_paths urljoin output_dir page_url page_index images :
  ∀ i w, ∃ added,
    Final.trace (Final.page_images urljoin output_dir page_url page_index i images w).2
    = Final.trace w ++ added
    ∧ (Final.page_images urljoin output_dir page_url page_index i images w).1
      = length (saved added)
    ∧ NoDup (map fst (saved added))
    ∧ Forall (fun path => ∃ i' ext, i ≤ i'
                ∧ path = direct_image_file output_dir page_index i' ext)
             (map fst (saved added)).
Proof.
  induction images as [|img rest IH]; intros i w; cbn [Final.page_images].
  - exists []. cbn. rewrite app_nil_r. repeat split; constructor.
  - assert (Hnext : ∀ w0 a0,
      Final.trace w0 = Final.trace w ++ a0 → saved a0 = [] →
      ∃ added,
        Final.trace (Final.page_images urljoin output_dir page_url page_index (S i)
                       rest w0).2 = Final.trace w ++ added
        ∧ (Final.page_images urljoin output_dir page_url page_index (S i) rest w0).1
          = length (saved added)
        ∧ NoDup (map fst (saved added))
        ∧ Forall (fun path => ∃ i' ext, i ≤ i'
                    ∧ path = direct_image_file output_dir page_index i' ext)
                 (map fst (saved added))).
    { intros w0 a0 Ht0 Hs0. destruct (IH (S i) w0) as (a & Ht & Hn & Hnd & Hall).
      exists (a0 ++ a). rewrite Ht, Ht0, saved_app, Hs0, app_assoc.
      split; [reflexivity|]. split; [exact Hn|]. split; [exact Hnd|].
      eapply Forall_impl; [exact Hall|]. cbn. intros path (i' & e & Hi & ->).
      exists i', e. split; [lia | reflexivity]. }
    assert (Hskip := Hnext w [] (eq_sym (app_nil_r _)) eq_refl).
    destruct (img !! "src") as [src|]; [|exact Hskip].
    destruct (denylisted src); [exact Hskip|].
    destruct (negb (Final.is_large_image img)); [exact Hskip|].
    unfold bind.
    destruct (final_make_request_requests (urljoin page_url src) w)
      as (a1 & Ht1 & _ & Hs1 & _).
    destruct (Final.make_request (urljoin page_url src) w) as [[r|] w1]; cbn [snd] in Ht1;
      [|exact (Hnext w1 a1 Ht1 Hs1)].
    cbn [Final.save].
    match goal with |- context [Final.page_images _ _ _ _ _ rest ?w2] =>
      destruct (IH (S i) w2) as (a2 & Ht2 & Hn2 & Hnd2 & Hall2);
      destruct (Final.page_images urljoin output_dir page_url page_index (S i) rest w2)
        as [n w3] end.
    cbn [fst snd ret Final.trace] in *.
    exists (a1 ++ [EvSave (direct_image_file output_dir page_index i (pick_ext r))
                     (content r)] ++ a2).
    rewrite !saved_app, Hs1. cbn [saved app map fst length].
    split; [rewrite Ht2, Ht1, <- !app_assoc; reflexivity|].
    split; [rewrite Hn2; reflexivity|].
    split.
    + apply NoDup_cons. split; [|exact Hnd2].
      intros Hin. rewrite Forall_forall in Hall2.
      destruct (Hall2 _ Hin) as (i' & e & Hi & E).
      apply direct_image_file_inj in E. lia.
    + constructor.
      * exists i, (pick_ext r). split; [lia | reflexivity].
      * eapply Forall_impl; [exact Hall2|]. cbn. intros path (i' & e & Hi & ->).
        exists i', e. split; [lia | reflexivity].
Qed.

Lemma final_frame_images_paths urljoin output_dir frame_url page_index j images :
  ∀ k w, ∃ added,
    Final.trace (Final.frame_images urljoin output_dir frame_url page_index j k images w).2
    = Final.trace w ++ added
    ∧ NoDup (map fst (saved added))
    ∧ Forall (fun path => ∃ k', k ≤ k'
                ∧ path = frame_image_file output_dir page_index j k')
             (map fst (saved added)).
Proof.
  induction images as [|img rest IH]; intros k w; cbn [Final.frame_images].
  - exists []. cbn. rewrite app_nil_r. repeat split; constructor.
  - assert (Hnext : ∀ w0 a0,
      Final.trace w0 = Final.trace w ++ a0 → saved a0 = [] →
      ∃ added,
        Final.trace (Final.frame_images urljoin output_dir frame_url page_index j (S k)
                       rest w0).2 = Final.trace w ++ added
        ∧ NoDup (map fst (saved added))
        ∧ Forall (fun path => ∃ k', k ≤ k'
                    ∧ path = frame_image_file output_dir page_index j k')
                 (map fst (saved added))).
    { intros w0 a0 Ht0 Hs0. destruct (IH (S k) w0) as (a & Ht & Hnd & Hall).
      exists (a0 ++ a). rewrite Ht, Ht0, saved_app, Hs0, app_assoc.
      split; [reflexivity|]. split; [exact Hnd|].
      eapply Forall_impl; [exact Hall|]. cbn. intros path (k' & Hk & ->).
      exists k'. split; [lia | reflexivity]. }
    destruct (img !! "src") as [src|];
      [|exact (Hnext w [] (eq_sym (app_nil_r _)) eq_refl)].
    unfold bind.
    destruct (final_make_request_requests (urljoin frame_url src) w)
      as (a1 & Ht1 & _ & Hs1 & _).
    destruct (Final.make_request (urljoin frame_url src) w) as [[r|] w1]; cbn [snd] in Ht1;
      [|exact (Hnext w1 a1 Ht1 Hs1)].
    cbn [Final.save].
    match goal with |- context [Final.frame_images _ _ _ _ _ _ rest ?w2] =>
      destruct (IH (S k) w2) as (a2 & Ht2 & Hnd2 & Hall2);
      destruct (Final.frame_images urljoin output_dir frame_url page_index j (S k) rest w2)
        as [n w3] end.
    cbn [fst snd ret Final.trace] in *.
    exists (a1 ++ [EvSave (frame_image_file output_dir page_index j k) (content r)] ++ a2).
    rewrite !saved_app, Hs1. cbn [saved app map fst].
    split; [rewrite Ht2, Ht1, <- !app_assoc; reflexivity|].
    split.
    + apply NoDup_cons. split; [|exact Hnd2].
      intros Hin. rewrite Forall_forall in Hall2.
      destruct (Hall2 _ Hin) as (k' & Hk & E).
      apply frame_image_file_inj in E. lia.
    + constructor.
      * exists k. split; [lia | reflexivity].
      * eapply Forall_impl; [exact Hall2|]. cbn. intros path (k' & Hk & ->).
        exists k'. split; [lia | reflexivity].
Qed.

Lemma final_page_frames_paths urljoin output_dir page_url page_index frs :
  ∀ j w, ∃ added,
    Final.trace (Final.page_frames urljoin output_dir page_url page_index j frs w).2
    = Final.trace w ++ added
    ∧ NoDup (map fst (saved added))
    ∧ Forall (fun path => ∃ j' k, j ≤ j'
                ∧ path = frame_image_file output_dir page_index j' k)
             (map fst (saved added)).
Proof.
  induction frs as [|frame rest IH]; intros j w; cbn [Final.page_frames].
  - exists []. cbn. rewrite app_nil_r. repeat split; constructor.
  - assert (Hnext : ∀ w0 a0,
      Final.trace w0 = Final.trace w ++ a0 → saved a0 = [] →
      ∃ added,
        Final.trace (Final.page_frames urljoin output_dir page_url page_index (S j)
                       rest w0).2 = Final.trace w ++ added
        ∧ NoDup (map fst (saved added))
        ∧ Forall (fun path => ∃ j' k, j ≤ j'
                    ∧ path = frame_image_file output_dir page_index j' k)
                 (map fst (saved added))).
    { intros w0 a0 Ht0 Hs0. destruct (IH (S j) w0) as (a & Ht & Hnd & Hall).
      exists (a0 ++ a). rewrite Ht, Ht0, saved_app, Hs0, app_assoc.
      split; [reflexivity|]. split; [exact Hnd|].
      eapply Forall_impl; [exact Hall|]. cbn. intros path (j' & k & Hj & ->).
      exists j', k. split; [lia | reflexivity]. }
    destruct (frame !! "src") as [src|];
      [|exact (Hnext w [] (eq_sym (app_nil_r _)) eq_refl)].
    unfold bind.
    destruct (final_make_request_requests (urljoin page_url src) w)
      as (a1 & Ht1 & _ & Hs1 & _).
    destruct (Final.make_request (urljoin page_url src) w) as [[r|] w1]; cbn [snd] in Ht1;
      [|exact (Hnext w1 a1 Ht1 Hs1)].
    destruct (final_frame_images_paths urljoin output_dir (urljoin page_url src) page_index j
                (imgs (body r)) 0 w1) as (a2 & Ht2 & Hnd2 & Hall2).
    destruct (Final.frame_images urljoin output_dir (urljoin page_url src) page_index j 0
                (imgs (body r)) w1) as [n w2]. cbn [snd] in Ht2.
    destruct (IH (S j) w2) as (a3 & Ht3 & Hnd3 & Hall3).
    destruct (Final.page_frames urljoin output_dir page_url page_index (S j) rest w2)
      as [m w3]. cbn [fst snd ret] in *.
    exists (a1 ++ a2 ++ a3). rewrite !saved_app, Hs1. cbn [app]. rewrite map_app.
    split; [rewrite Ht3, Ht2, Ht1, <- !app_assoc; reflexivity|].
    rewrite Forall_forall in Hall2, Hall3.
    split.
    + apply NoDup_app. split; [exact Hnd2|]. split; [|exact Hnd3].
      intros path H2 H3.
      destruct (Hall2 _ H2) as (k & _ & ->). destruct (Hall3 _ H3) as (j' & k' & Hj & E).
      apply frame_image_file_inj in E. lia.
    + apply Forall_app. split; apply Forall_forall; intros path Hin.
      * destruct (Hall2 _ Hin) as (k & _ & ->). exists j, k. split; [lia | reflexivity].
      * destruct (Hall3 _ Hin) as (j' & k & Hj & ->). exists j', k.
        split; [lia | reflexivity].
Qed.

Lemma final_scan_page_paths urljoin output_dir page_url page_index w :
  ∃ added,
    Final.trace (Final.scan_page urljoin output_dir page_url page_index w).2
    = Final.trace w ++ added
    ∧ NoDup (map fst (saved added))
    ∧ Forall (image_file_of_page output_dir page_index) (map fst (saved added)).
Proof.
  unfold Final.scan_page, bind.
  destruct (final_make_request_requests page_url w) as (a1 & Ht1 & _ & Hs1 & _).
  destruct (Final.make_request page_url w) as [[r|] w1]; cbn [snd ret] in *.
  - destruct (final_page_images_paths urljoin output_dir page_url page_index
                (imgs (body r)) 0 w1) as (a2 & Ht2 & Hn2 & Hnd2 & Hall2).
    destruct (Final.page_images urljoin output_dir page_url page_index 0 (imgs (body r)) w1)
      as [n w2]. cbn [fst snd] in *.
    destruct (Nat.eqb_spec n 0) as [Hn|Hn].
    + destruct (final_page_frames_paths urljoin output_dir page_url page_index
                  (frames (body r)) 0 w2) as (a3 & Ht3 & Hnd3 & Hall3).
      assert (Hs2 : saved a2 = []) by (apply length_zero_iff_nil; lia).
      exists (a1 ++ a2 ++ a3). rewrite !saved_app, Hs1, Hs2. cbn [app].
      split; [rewrite Ht3, Ht2, Ht1, <- !app_assoc; reflexivity|].
      split; [exact Hnd3|].
      eapply Forall_impl; [exact Hall3|]. cbn. intros path (j & k & _ & ->).
      right. exists j, k. reflexivity.
    + exists (a1 ++ a2). rewrite saved_app, Hs1. cbn [app ret snd].
      split; [rewrite Ht2, Ht1, <- app_assoc; reflexivity|].
      split; [exact Hnd2|].
      eapply Forall_impl; [exact Hall2|]. cbn. intros path (i & e & _ & ->).
      left. exists i, e. reflexivity.
  - exists a1. rewrite Hs1. split; [exact Ht1|]. split; constructor.
Qed.

Lemma final_scan_pages_paths urljoin output_dir pages :
  ∀ page_index w, ∃ added,
    Final.trace (Final.scan_pages urljoin output_dir page_index pages w).2
    = Final.trace w ++ added
    ∧ NoDup (map fst (saved added))
    ∧ Forall (fun path => ∃ p, page_index ≤ p ∧ image_file_of_page output_dir p path)
             (map fst (saved added)).
Proof.
  induction pages as [|page_url rest IH]; intros page_index w; cbn [Final.scan_pages].
  - exists []. cbn. rewrite app_nil_r. repeat split; constructor.
  - unfold bind.
    destruct (final_scan_page_paths urljoin output_dir page_url page_index w)
      as (a1 & Ht1 & Hnd1 & Hall1).
    destruct (Final.scan_page urljoin output_dir page_url page_index w) as [n w1].
    destruct (IH (S page_index) w1) as (a2 & Ht2 & Hnd2 & Hall2).
    destruct (Final.scan_pages urljoin output_dir (S page_index) rest w1) as [m w2].
    cbn [fst snd ret] in *.
    exists (a1 ++ a2). rewrite saved_app, map_app.
    split; [rewrite Ht2, Ht1, <- app_assoc; reflexivity|].
    rewrite Forall_forall in Hall1, Hall2.
    split.
    + apply NoDup_app. split; [exact Hnd1|]. split; [|exact Hnd2].
      intros path H1 H2. destruct (Hall2 _ H2) as (p & Hp & Hpath).
      pose proof (image_file_page_inj _ _ _ _ (Hall1 _ H1) Hpath). lia.
    + apply Forall_app. split; apply Forall_forall; intros path Hin.
      * exists page_index. split; [lia | apply Hall1, Hin].
      * destruct (Hall2 _ Hin) as (p & Hp & Hpath). exists p. split; [lia | exact Hpath].
Qed.

Lemma apply_saves_app l1 l2 (fs : Files) :
  apply_saves (l1 ++ l2) fs = apply_saves l2 (apply_saves l1 fs).
Proof. unfold apply_saves. apply foldl_app. Qed.

Lemma apply_saves_other l :
  ∀ (fs : Files) path, path ∉ map fst l → apply_saves l fs !! path = fs !! path.
Proof.
  induction l as [|[p d] l IH]; intros fs path Hnot; [reflexivity|].
  cbn in Hnot. apply not_elem_of_cons in Hnot as [Hne Hnot].
  change (apply_saves ((p, d) :: l) fs) with (apply_saves l (write_file p d fs)).
  rewrite IH by exact Hnot. unfold write_file. apply lookup_insert_ne. congruence.
Qed.

Lemma apply_saves_lookup l :
  ∀ (fs : Files) path data,
    NoDup (map fst l) → (path, data) ∈ l → apply_saves l fs !! path = Some data.
Proof.
  induction l as [|[p d] l IH]; intros fs path data Hnd Hin.
  - apply elem_of_nil in Hin. contradiction.
  - cbn in Hnd. apply NoDup_cons in Hnd as [Hnot Hnd].
    change (apply_saves ((p, d) :: l) fs) with (apply_saves l (write_file p d fs)).
    apply elem_of_cons in Hin as [[= -> ->]|Hin].
    + rewrite apply_saves_other by exact Hnot. unfold write_file. apply lookup_insert_eq.
    + apply IH; assumption.
Qed.

(** X10.  In one run of [download_scan_images] of [final_scrapping.py] no
    two saved images share a file name, so none overwrites another: every
    image saved is on disk with its content when the job returns. *)
Theorem final_saved_images_keep_their_files (urljoin : string → string → string)
    (url output_dir : string) (w : Final.World) :
  ∃ added,
    Final.trace (Final.download_scan_images urljoin url output_dir w).2
    = Final.trace w ++ added
    ∧ NoDup (map fst (saved added))
    ∧ (∀ path data, (path, data) ∈ saved added →
         Final.files (Final.download_scan_images urljoin url output_dir w).2 !! path
         = Some data).
Proof.
  pose (R := fun w1 w2 : Final.World =>
    ∃ added, Final.trace w2 = Final.trace w1 ++ added
             ∧ Final.files w2 = apply_saves (saved added) (Final.files w1)).
  assert (R_refl : ∀ w1, R w1 w1).
  { intros w1. exists []. rewrite app_nil_r. split; reflexivity. }
  assert (R_trans : ∀ w1 w2 w3, R w1 w2 → R w2 w3 → R w1 w3).
  { intros w1 w2 w3 (a1 & Ht1 & Hf1) (a2 & Ht2 & Hf2).
    exists (a1 ++ a2). rewrite Ht2, Ht1, Hf2, Hf1, saved_app, apply_saves_app, app_assoc.
    split; reflexivity. }
  assert (R_request : ∀ u w1, R w1 (Final.make_request u w1).2).
  { intros u w1. destruct (final_make_request_requests u w1) as (a & Ht & _ & Hs & Hf & _).
    exists a. rewrite Hs, Hf. split; [exact Ht | reflexivity]. }
  assert (R_save : ∀ path data w1, R w1 (Final.save path data w1).2).
  { intros path data w1. eexists [_]. split; reflexivity. }
  destruct (final_inv_download_scan_images R R_refl R_trans R_request R_save urljoin
              url output_dir w) as (added & Ht & Hf).
  assert (Hp : ∃ added',
    Final.trace (Final.download_scan_images urljoin url output_dir w).2
    = Final.trace w ++ added' ∧ NoDup (map fst (saved added'))).
  { unfold Final.download_scan_images, bind.
    destruct (final_scan_pages_paths urljoin output_dir (Final.get_pagination_links url 2)
                0 w) as (a & Hta & Hnd & _).
    destruct (Final.scan_pages urljoin output_dir 0 (Final.get_pagination_links url 2) w)
      as [n w1]. exists a. split; assumption. }
  destruct Hp as (added' & Ht' & Hnd).
  assert (added' = added) as -> by (apply (app_inv_head (Final.trace w)); congruence).
  exists added. split; [exact Ht|]. split; [exact Hnd|].
  intros path data Hin. rewrite Hf. apply apply_saves_lookup; assumption.
Qed.

(** ** The month records *)

Lemma final_process_month_fields urljoin year month versions w :
  md_year (Final.process_month urljoin year month versions w).1 = year
  ∧ md_month (Final.process_month urljoin year month versions w).1 = month
  ∧ well_formed_record versions (Final.process_month urljoin year month versions w).1.
Proof.
  rewrite final_process_month_cases, final_month_text_cases. cbn zeta.
  unfold well_formed_record.
  destruct (truthy (v_text versions)) eqn:Ht.
  - destruct (bool_decide _).
    + cbn. repeat split; (discriminate || auto).
    + destruct (Final.download_text_content _ _ w).1; cbn [fst snd negb andb].
      * cbn. repeat split; (discriminate || auto).
      * destruct (truthy (v_scan versions)) eqn:Hs; cbn [fst snd].
        -- destruct (Final.download_scan_images _ _ _ _).1; cbn;
             repeat split; (discriminate || auto).
        -- cbn. repeat split; (discriminate || auto).
  - cbn [fst snd negb andb]. destruct (truthy (v_scan versions)) eqn:Hs; cbn [fst snd].
    + destruct (Final.download_scan_images _ _ _ _).1; cbn;
        repeat split; (discriminate || auto).
    + cbn. repeat split; (discriminate || auto).
Qed.

Lemma gpu_process_month_fields urljoin md5_hex8 order year month versions w :
  md_year (Gpu.process_month urljoin md5_hex8 order year month versions w).1 = year
  ∧ md_month (Gpu.process_month urljoin md5_hex8 order year month versions w).1 = month
  ∧ well_formed_record versions
      (Gpu.process_month urljoin md5_hex8 order year month versions w).1.
Proof.
  rewrite gpu_process_month_cases, gpu_month_text_cases. cbn zeta.
  unfold well_formed_record.
  destruct (truthy (v_text versions)) eqn:Ht.
  - destruct (bool_decide _).
    + cbn. repeat split; (discriminate || auto).
    + destruct (Gpu.download_text_content _ _ _ w).1; cbn [fst snd negb andb].
      * cbn. repeat split; (discriminate || auto).
      * destruct (truthy (v_scan versions)) eqn:Hs; cbn [fst snd].
        -- destruct (Gpu.download_scan_images _ _ _ _ _ _).1; cbn;
             repeat split; (discriminate || auto).
        -- cbn. repeat split; (discriminate || auto).
  - cbn [fst snd negb andb]. destruct (truthy (v_scan versions)) eqn:Hs; cbn [fst snd].
    + destruct (Gpu.download_scan_images _ _ _ _ _ _).1; cbn;
        repeat split; (discriminate || auto).
    + cbn. repeat split; (discriminate || auto).
Qed.

(** X11.  The record that the month body of [main] builds (in both
    scripts) carries the year and the month it was built for; a source is
    recorded exactly when its flag is set and is then the link of that
    kind, which exists; and [has_text] and [has_scan] are never both set:
    the scan is only tried when no text was obtained. *)
Theorem month_record_is_well_formed (urljoin : string → string → string)
    (md5_hex8 : string → string) (order : list string → list nat)
    (year : nat) (month : string) (versions : Versions) :
  (∀ w, md_year (Final.process_month urljoin year month versions w).1 = year
        ∧ md_month (Final.process_month urljoin year month versions w).1 = month
        ∧ well_formed_record versions
            (Final.process_month urljoin year month versions w).1)
  ∧ (∀ w, md_year (Gpu.process_month urljoin md5_hex8 order year month versions w).1 = year
          ∧ md_month (Gpu.process_month urljoin md5_hex8 order year month versions w).1
            = month
          ∧ well_formed_record versions
              (Gpu.process_month urljoin md5_hex8 order year month versions w).1).
Proof.
  split; intros w;
    [apply final_process_month_fields | apply gpu_process_month_fields].
Qed.

Lemma record_month_same year month m (metadata : Metadata) :
  month_record (Final.record_month year month m metadata) year month = Some m.
Proof.
  unfold month_record, Final.record_month.
  rewrite lookup_insert_eq. cbn. apply lookup_insert_eq.
Qed.

Lemma record_month_other_month year month month' m (metadata : Metadata) :
  month' ≠ month →
  month_record (Final.record_month year month m metadata) year month'
  = month_record metadata year month'.
Proof.
  intros Hne. unfold month_record, Final.record_month.
  rewrite lookup_insert_eq. cbn. rewrite lookup_insert_ne by congruence.
  destruct (metadata !! Py.str year); reflexivity.
Qed.

Lemma record_month_other_year year month m (metadata : Metadata) key :
  key ≠ Py.str year →
  Final.record_month year month m metadata !! key = metadata !! key.
Proof.
  intros Hne. unfold Final.record_month. apply lookup_insert_ne. congruence.
Qed.

Lemma final_month_body_eq urljoin dumps year metadata entry w :
  Final.month_body urljoin dumps year metadata entry w
  = (Final.record_month year entry.1
       (Final.process_month urljoin year entry.1 entry.2 w).1 metadata,
     (Final.save Final.metadata_file
        (dumps (Final.record_month year entry.1
                  (Final.process_month urljoin year entry.1 entry.2 w).1 metadata))
        (Final.process_month urljoin year entry.1 entry.2 w).2).2).
Proof.
  unfold Final.month_body, bind.
  destruct (Final.process_month urljoin year entry.1 entry.2 w) as [m w1].
  reflexivity.
Qed.

Lemma final_month_loop_cons urljoin dumps year entry rest metadata w :
  Final.month_loop urljoin dumps year (entry :: rest) metadata w
  = Final.month_loop urljoin dumps year rest
      (Final.month_body urljoin dumps year metadata entry w).1
      (Final.month_body urljoin dumps year metadata entry w).2.
Proof.
  cbn [Final.month_loop]. unfold bind.
  destruct (Final.month_body urljoin dumps year metadata entry w). reflexivity.
Qed.

Lemma final_month_body_records urljoin dumps all year metadata entry w :
  entry ∈ all →
  recorded_from all year (Final.month_body urljoin dumps year metadata entry w).1 entry.1.
Proof.
  intros Hin. rewrite final_month_body_eq. cbn [fst].
  destruct (final_process_month_fields urljoin year entry.1 entry.2 w) as (Hy & Hm & Hwf).
  eexists _, entry.2. split; [destruct entry; exact Hin|].
  split; [apply record_month_same|]. auto.
Qed.

Lemma final_month_body_keeps urljoin dumps all year metadata entry w month :
  entry ∈ all →
  recorded_from all year metadata month →
  recorded_from all year (Final.month_body urljoin dumps year metadata entry w).1 month.
Proof.
  intros Hin Hrec. destruct (decide (month = entry.1)) as [->|Hne].
  - apply final_month_body_records, Hin.
  - destruct Hrec as (m & versions & H1 & H2 & H3).
    exists m, versions. split; [exact H1|]. split; [|exact H3].
    rewrite final_month_body_eq. cbn [fst].
    rewrite record_month_other_month by exact Hne. exact H2.
Qed.

Lemma final_month_loop_keeps urljoin dumps all year rest :
  ∀ metadata w month,
    rest ⊆ all →
    recorded_from all year metadata month →
    recorded_from all year (Final.month_loop urljoin dumps year rest metadata w).1 month.
Proof.
  induction rest as [|entry rest IH]; intros metadata w month Hsub Hrec.
  - exact Hrec.
  - rewrite final_month_loop_cons. apply IH.
    + intros x Hx. apply Hsub. now right.
    + apply final_month_body_keeps; [apply Hsub; now left | exact Hrec].
Qed.

Lemma final_month_loop_records urljoin dumps all year rest :
  ∀ metadata w month versions,
    rest ⊆ all →
    (month, versions) ∈ rest →
    recorded_from all year (Final.month_loop urljoin dumps year rest metadata w).1 month.
Proof.
  induction rest as [|entry rest IH]; intros metadata w month versions Hsub Hin.
  - apply elem_of_nil in Hin. contradiction.
  - rewrite final_month_loop_cons.
    apply elem_of_cons in Hin as [Heq|Hr].
    + subst entry. apply final_month_loop_keeps; [intros x Hx; apply Hsub; now right|].
      apply (final_month_body_records urljoin dumps all year metadata (month, versions) w).
      apply Hsub. now left.
    + eapply IH; [|exact Hr]. intros x Hx. apply Hsub. now right.
Qed.

Lemma final_month_loop_untouched urljoin dumps year rest :
  ∀ metadata w,
    (∀ month, month ∉ rest.*1 →
       month_record (Final.month_loop urljoin dumps year rest metadata w).1 year month
       = month_record metadata year month)
    ∧ (∀ key, key ≠ Py.str year →
         (Final.month_loop urljoin dumps year rest metadata w).1 !! key = metadata !! key).
Proof.
  induction rest as [|entry rest IH]; intros metadata w.
  - split; reflexivity.
  - rewrite final_month_loop_cons.
    destruct (IH (Final.month_body urljoin dumps year metadata entry w).1
                 (Final.month_body urljoin dumps year metadata entry w).2) as [IH1 IH2].
    split.
    + intros month Hnot. cbn in Hnot. apply not_elem_of_cons in Hnot as [Hne Hnot].
      rewrite IH1 by exact Hnot. rewrite final_month_body_eq. cbn [fst].
      apply record_month_other_month, Hne.
    + intros key Hne. rewrite IH2 by exact Hne. rewrite final_month_body_eq. cbn [fst].
      apply record_month_other_year, Hne.
Qed.

Lemma final_month_loop_file urljoin dumps year rest :
  ∀ metadata w entry,
    Final.files (Final.month_loop urljoin dumps year (entry :: rest) metadata w).2
      !! Final.metadata_file
    = Some (dumps (Final.month_loop urljoin dumps year (entry :: rest) metadata w).1)
    ∧ last (Final.trace (Final.month_loop urljoin dumps year (entry :: rest) metadata w).2)
      = Some (EvSave Final.metadata_file
                (dumps (Final.month_loop urljoin dumps year (entry :: rest) metadata w).1)).
Proof.
  induction rest as [|entry' rest IH]; intros metadata w entry.
  - rewrite final_month_loop_cons. cbn [Final.month_loop ret fst snd].
    rewrite final_month_body_eq. cbn [fst snd Final.save Final.files Final.trace].
    split; [apply lookup_insert_eq | apply last_snoc].
  - rewrite final_month_loop_cons. apply IH.
Qed.

(** X12.  The month loop of [main] of [final_scrapping.py].  After the
    loop every month of the listing has a record under the year, built for
    that year and month and well formed for a link pair the listing gives
    the month; the records of months that are not in the listing and the
    records of other years are those the loop started with.  If the
    listing is not empty, the metadata file ends up holding the dump of
    the very metadata the loop returns, written by the last action of the
    loop; for an empty listing nothing is written at all. *)
Theorem final_month_loop_metadata (urljoin : string → string → string)
    (dumps : Metadata → string) (year : nat)
    (months_data : list (string * Versions)) (metadata : Metadata) (w : Final.World) :
  (∀ month versions, (month, versions) ∈ months_data →
     recorded_from months_data year
       (Final.month_loop urljoin dumps year months_data metadata w).1 month)
  ∧ (∀ month, month ∉ months_data.*1 →
       month_record (Final.month_loop urljoin dumps year months_data metadata w).1
         year month
       = month_record metadata year month)
  ∧ (∀ key, key ≠ Py.str year →
       (Final.month_loop urljoin dumps year months_data metadata w).1 !! key
       = metadata !! key)
  ∧ match months_data with
    | [] => Final.month_loop urljoin dumps year months_data metadata w = (metadata, w)
    | _ :: _ =>
        Final.files (Final.month_loop urljoin dumps year months_data metadata w).2
          !! Final.metadata_file
        = Some (dumps (Final.month_loop urljoin dumps year months_data metadata w).1)
        ∧ last (Final.trace (Final.month_loop urljoin dumps year months_data metadata w).2)
          = Some (EvSave Final.metadata_file
                    (dumps (Final.month_loop urljoin dumps year months_data metadata w).1))
    end.
Proof.
  split.
  { intros month versions Hin. eapply final_month_loop_records; [|exact Hin].
    intros x Hx. exact Hx. }
  destruct (final_month_loop_untouched urljoin dumps year months_data metadata w)
    as [H1 H2].
  split; [exact H1|]. split; [exact H2|].
  destruct months_data as [|entry rest]; [reflexivity|].
  apply final_month_loop_file.
Qed.

(** ** The test of the URL format *)

Lemma try_alternatives_spec alternatives :
  ∀ base_url w, ∃ added,
    Final.trace (FinalMain.try_alternatives alternatives base_url w).2
    = Final.trace w ++ added
    ∧ saved added = []
    ∧ Final.files (FinalMain.try_alternatives alternatives base_url w).2 = Final.files w
    ∧ ((∃ k base,
          alternatives !! k = Some base
          ∧ serves_test_page w k base = true
          ∧ (∀ j b, j < k → alternatives !! j = Some b → serves_test_page w j b = false)
          ∧ requests added = map test_url (take (S k) alternatives)
          ∧ (FinalMain.try_alternatives alternatives base_url w).1 = base)
       ∨ ((∀ j b, alternatives !! j = Some b → serves_test_page w j b = false)
          ∧ requests added = map test_url alternatives
          ∧ (FinalMain.try_alternatives alternatives base_url w).1 = base_url)).
Proof.
  induction alternatives as [|alt_url rest IH]; intros base_url w.
  - exists []. rewrite app_nil_r. cbn [FinalMain.try_alternatives ret fst snd].
    split; [reflexivity|]. split; [reflexivity|]. split; [reflexivity|]. right.
    split; [intros j b H; discriminate H | split; reflexivity].
  - cbn [FinalMain.try_alternatives]. unfold bind.
    destruct (final_make_request_spec (alt_url +:+ Py.str FinalMain.test_year) w)
      as (pre & w1 & E & Ht & Hg & Hsv & Hs & Hf).
    rewrite E.
    assert (Hreq : requests (pre ++ [EvGet (test_url alt_url)]) = [test_url alt_url]).
    { rewrite requests_app, (requests_none pre Hg). reflexivity. }
    destruct (ok_response _) as [r|] eqn:Hok.
    + exists (pre ++ [EvGet (test_url alt_url)]). cbn [fst snd ret].
      split; [exact Ht|]. split; [rewrite saved_app, Hsv; reflexivity|].
      split; [exact Hf|]. left. exists 0, alt_url.
      split; [reflexivity|].
      split; [unfold serves_test_page, test_url; rewrite Nat.add_0_r, Hok;
              apply bool_decide_eq_true_2; eexists; reflexivity|].
      split; [intros j b Hj; lia|]. split; [exact Hreq | reflexivity].
    + destruct (IH base_url w1) as (added & Ht' & Hsv' & Hf' & Hcase).
      assert (Hshift : ∀ j b, serves_test_page w1 j b = serves_test_page w (S j) b).
      { intros j b. unfold serves_test_page. rewrite Hs, Ht, !gets_app, Hg.
        change (gets [EvGet (alt_url +:+ Py.str FinalMain.test_year)]) with 1.
        replace (gets (Final.trace w) + (0 + 1) + j) with (gets (Final.trace w) + S j)
          by lia.
        reflexivity. }
      assert (Hhere : serves_test_page w 0 alt_url = false).
      { unfold serves_test_page, test_url. rewrite Nat.add_0_r, Hok.
        apply bool_decide_eq_false_2. intros [x Hx]. discriminate Hx. }
      exists ((pre ++ [EvGet (test_url alt_url)]) ++ added).
      split; [rewrite Ht', Ht, <- !app_assoc; reflexivity|].
      split; [rewrite !saved_app, Hsv, Hsv'; reflexivity|].
      split; [congruence|].
      rewrite requests_app, Hreq.
      destruct Hcase as [(k & base & Hk & Hserved & Hearlier & Hr & Hres)
                        |(Hnone & Hr & Hres)].
      * left. exists (S k), base. split; [exact Hk|].
        split; [rewrite <- Hshift; exact Hserved|].
        split; [|split; [rewrite Hr; reflexivity | exact Hres]].
        intros [|j] b Hj Hb.
        -- cbn in Hb. injection Hb as <-. exact Hhere.
        -- rewrite <- Hshift. apply Hearlier; [lia | exact Hb].
      * right. split; [|split; [rewrite Hr; reflexivity | exact Hres]].
        intros [|j] b Hb.
        -- cbn in Hb. injection Hb as <-. exact Hhere.
        -- rewrite <- Hshift. apply Hnone. exact Hb.
Qed.

(** X13.  The test of the URL format at the start of [main] of
    [final_scrapping.py].  The formats are tried in a fixed order, the
    configured one first, each by one request for its page of 1948, and
    the trial stops at the first format whose page is served with status
    200: that format becomes the base URL.  When no format is served, all
    four have been requested and the base URL is still the configured one.
    The trial writes no file. *)
Theorem final_base_url_probe (w : Final.World) :
  ∃ added,
    Final.trace (FinalMain.probe_base_url w).2 = Final.trace w ++ added
    ∧ saved added = []
    ∧ Final.files (FinalMain.probe_base_url w).2 = Final.files w
    ∧ ((∃ k base,
          url_formats !! k = Some base
          ∧ serves_test_page w k base = true
          ∧ (∀ j b, j < k → url_formats !! j = Some b → serves_test_page w j b = false)
          ∧ requests added = map test_url (take (S k) url_formats)
          ∧ (FinalMain.probe_base_url w).1 = base)
       ∨ ((∀ j b, url_formats !! j = Some b → serves_test_page w j b = false)
          ∧ requests added = map test_url url_formats
          ∧ (FinalMain.probe_base_url w).1 = FinalMain.BASE_URL)).
Proof.
  pose proof (try_alternatives_spec url_formats FinalMain.BASE_URL w) as H.
  assert (E : FinalMain.try_alternatives url_formats FinalMain.BASE_URL w
              = FinalMain.probe_base_url w).
  { unfold url_formats, FinalMain.probe_base_url. cbn [FinalMain.try_alternatives].
    unfold bind. destruct (Final.make_request _ w) as [[r|] w1]; reflexivity. }
  rewrite E in H. exact H.
Qed.

(** ** The jobs of the thread-pool script *)

Lemma only_requests_requests url t :
  only_requests url t → Forall (fun u => u = url) (requests t).
Proof.
  unfold only_requests. induction t as [|e t IH]; intros H; [constructor|].
  apply Forall_cons in H as [He Ht]. destruct e; cbn [requests]; [|apply IH, Ht..].
  constructor; [|apply IH, Ht]. specialize (He eq_refl). now injection He.
Qed.

(** One call of [RequestManager.make_request] seen from outside. *)
Lemma gpu_make_request_trace url w :
  ∃ added,
    Gpu.trace (Gpu.make_request url w).2 = Gpu.trace w ++ added
    ∧ Forall (fun u => u = url) (requests added)
    ∧ saved added = []
    ∧ Gpu.files (Gpu.make_request url w).2 = Gpu.files w.
Proof.
  destruct (make_request_preamble_full url w)
    as (pre & w0 & E & Ht0 & Hg0 & Hsv0 & Hon0 & Hs0 & Hf0 & _).
  destruct (retry_loop_general url (seq 0 Gpu.MAX_RETRIES) w0)
    as (added & Ht & _ & _ & Hsv & Hon & Hs & Hf & _).
  rewrite E. exists (pre ++ added).
  split; [rewrite Ht, Ht0, app_assoc; reflexivity|].
  split; [apply only_requests_requests, only_requests_app; assumption|].
  split; [rewrite saved_app, Hsv0, Hsv; reflexivity | congruence].
Qed.

Lemma gpu_process_text_page_trace page_url w :
  ∃ added,
    Gpu.trace (Gpu.process_text_page page_url w).2 = Gpu.trace w ++ added
    ∧ Forall (fun u => u = page_url) (requests added)
    ∧ saved added = []
    ∧ Gpu.files (Gpu.process_text_page page_url w).2 = Gpu.files w
    ∧ (∀ s, (Gpu.process_text_page page_url w).1 = Some s →
            begins_with_marker s ∧ truthy (Some s) = true).
Proof.
  destruct (gpu_make_request_trace page_url w) as (added & Ht & Hr & Hsv & Hf).
  exists added. unfold Gpu.process_text_page, bind.
  destruct (Gpu.make_request page_url w) as [[r|] w1]; cbn [fst snd] in *.
  - destruct (find_content Gpu.content_selectors (body r)) as [c|]; cbn [ret fst snd].
    + repeat (split; [assumption|]). intros s [= <-].
      split; [eexists _, _; reflexivity | reflexivity].
    + repeat (split; [assumption|]). intros s [=].
  - repeat (split; [assumption|]). intros s [=].
Qed.

Lemma gpu_text_results_trace page_urls (P : string → Prop) :
  Forall P page_urls →
  ∀ order all_text (content_found : bool) w,
    (if content_found then begins_with_marker all_text else all_text = EmptyString) →
    ∃ added,
      Gpu.trace (Gpu.text_results page_urls order all_text content_found w).2
      = Gpu.trace w ++ added
      ∧ Forall P (requests added)
      ∧ saved added = []
      ∧ Gpu.files (Gpu.text_results page_urls order all_text content_found w).2
        = Gpu.files w
      ∧ (if (Gpu.text_results page_urls order all_text content_found w).1.2
         then begins_with_marker
                (Gpu.text_results page_urls order all_text content_found w).1.1
         else (Gpu.text_results page_urls order all_text content_found w).1.1 = "").
Proof.
  intros Hpages order.
  induction order as [|i rest IH]; intros all_text content_found w Hinv;
    cbn [Gpu.text_results].
  - exists []. rewrite app_nil_r. cbn [ret fst snd].
    split; [reflexivity|]. split; [constructor|]. split; [reflexivity|].
    split; [reflexivity | exact Hinv].
  - destruct (page_urls !! i) as [page_url|] eqn:Hi; [|apply IH, Hinv].
    assert (HP : P page_url).
    { rewrite Forall_forall in Hpages. apply Hpages. eapply list_elem_of_lookup_2, Hi. }
    unfold bind.
    destruct (gpu_process_text_page_trace page_url w) as (a1 & Ht1 & Hr1 & Hs1 & Hf1 & Hres).
    destruct (Gpu.process_text_page page_url w) as [page_text w1]; cbn [fst snd] in *.
    assert (Hr1' : Forall P (requests a1)).
    { eapply Forall_impl; [exact Hr1|]. intros u ->. exact HP. }
    destruct page_text as [s|].
    + destruct (Hres s eq_refl) as [Hm Htr]. rewrite Htr. change (default EmptyString (Some s)) with s.
      destruct (IH (all_text +:+ s) true w1) as (a2 & Ht2 & Hr2 & Hs2 & Hf2 & Hres2).
      { destruct content_found.
        - destruct Hinv as (pn & rest' & ->). exists pn, (rest' +:+ s).
          rewrite !str_app_assoc. reflexivity.
        - subst all_text. exact Hm. }
      exists (a1 ++ a2). rewrite Ht2, Ht1, requests_app, saved_app, Hs1, Hs2, Hf2, Hf1.
      split; [rewrite app_assoc; reflexivity|].
      split; [apply Forall_app; split; assumption|].
      split; [reflexivity|]. split; [reflexivity | exact Hres2].
    + cbn [truthy].
      destruct (IH all_text content_found w1 Hinv) as (a2 & Ht2 & Hr2 & Hs2 & Hf2 & Hres2).
      exists (a1 ++ a2). rewrite Ht2, Ht1, requests_app, saved_app, Hs1, Hs2, Hf2, Hf1.
      split; [rewrite app_assoc; reflexivity|].
      split; [apply Forall_app; split; assumption|].
      split; [reflexivity|]. split; [reflexivity | exact Hres2].
Qed.

Lemma gpu_get_pagination_links_trace url max_pages w :
  ∃ added,
    Gpu.trace (Gpu.get_pagination_links url max_pages w).2 = Gpu.trace w ++ added
    ∧ Forall (fun u => u = url) (requests added)
    ∧ saved added = []
    ∧ Gpu.files (Gpu.get_pagination_links url max_pages w).2 = Gpu.files w
    ∧ Forall (issue_page url (Z.to_nat max_pages))
        (Gpu.get_pagination_links url max_pages w).1.
Proof.
  destruct (gpu_make_request_trace url w) as (added & Ht & Hr & Hsv & Hf).
  exists added. unfold Gpu.get_pagination_links, bind.
  destruct (Gpu.make_request url w) as [response w1]; cbn [fst snd ret] in *.
  repeat (split; [assumption|]).
  constructor; [left; reflexivity|].
  apply Forall_forall. intros u Hu. apply list_elem_of_In, in_map_iff in Hu as (page & <- & Hp).
  unfold Gpu.page_range in Hp. apply in_seq in Hp.
  pose proof (detect_max_pages_le response max_pages).
  right. exists page. split; [lia | reflexivity].
Qed.

(** X14.  The text job of [gpu_optimised.py], under any completion order.
    It requests only the issue URL and URLs it enumerates for the pages 2
    to 36.  When it returns [True] it has written the output file, once and
    as its last action, with a text that begins with a page marker; when
    it returns [False] it has written nothing.  No other file changes. *)
Theorem gpu_text_job_outcome (order : list string → list nat)
    (url output_file : string) (w : Gpu.World) :
  ∃ added,
    Gpu.trace (Gpu.download_text_content order url output_file w).2
    = Gpu.trace w ++ added
    ∧ Forall (issue_page url 36) (requests added)
    ∧ (if (Gpu.download_text_content order url output_file w).1
       then ∃ text,
              begins_with_marker text
              ∧ saved added = [(output_file, text)]
              ∧ last added = Some (EvSave output_file text)
              ∧ Gpu.files (Gpu.download_text_content order url output_file w).2
                = <[output_file := text]> (Gpu.files w)
       else saved added = []
            ∧ Gpu.files (Gpu.download_text_content order url output_file w).2
              = Gpu.files w).
Proof.
  unfold Gpu.download_text_content, bind.
  destruct (gpu_get_pagination_links_trace url 36 w) as (a1 & Ht1 & Hr1 & Hs1 & Hf1 & Hp).
  destruct (Gpu.get_pagination_links url 36 w) as [page_urls w1]; cbn [fst snd] in *.
  destruct (gpu_text_results_trace page_urls (issue_page url 36) Hp
              (order page_urls) "" false w1 eq_refl)
    as (a2 & Ht2 & Hr2 & Hs2 & Hf2 & Hres).
  destruct (Gpu.text_results page_urls (order page_urls) "" false w1)
    as [[all_text content_found] w2]; cbn [fst snd] in *.
  assert (Hr : Forall (issue_page url 36) (requests (a1 ++ a2))).
  { rewrite requests_app. apply Forall_app. split; [|exact Hr2].
    eapply Forall_impl; [exact Hr1|]. intros u ->. left. reflexivity. }
  destruct content_found; cbn [negb ret fst snd Gpu.save Gpu.trace Gpu.files].
  - exists ((a1 ++ a2) ++ [EvSave output_file all_text]).
    split; [rewrite Ht2, Ht1, <- !app_assoc; reflexivity|].
    split; [rewrite requests_app, app_nil_r; exact Hr|].
    exists all_text. split; [exact Hres|].
    split; [rewrite !saved_app, Hs1, Hs2; reflexivity|].
    split; [apply last_snoc|]. unfold write_file. congruence.
  - exists (a1 ++ a2). split; [rewrite Ht2, Ht1, app_assoc; reflexivity|].
    split; [exact Hr|]. split; [rewrite saved_app, Hs1, Hs2; reflexivity | congruence].
Qed.

Lemma pick_ext_exts r : pick_ext r ∈ image_exts.
Proof.
  unfold pick_ext, image_exts.
  destruct (Py.contains "png" _); [set_solver|].
  destruct (Py.contains "gif" _); set_solver.
Qed.


Lemma gpu_image_urls_skip urljoin page_url img rest :
  gpu_eligible_src img = None →
  gpu_image_urls urljoin page_url (img :: rest) = gpu_image_urls urljoin page_url rest.
Proof. intros H. unfold gpu_image_urls. cbn [omap list_omap]. rewrite H. reflexivity. Qed.

Lemma gpu_image_urls_take urljoin page_url img rest src :
  gpu_eligible_src img = Some src →
  gpu_image_urls urljoin page_url (img :: rest)
  = urljoin page_url src :: gpu_image_urls urljoin page_url rest.
Proof. intros H. unfold gpu_image_urls. cbn [omap list_omap]. rewrite H. reflexivity. Qed.

Lemma gpu_page_file_later urljoin md5_hex8 output_dir page_url page_index img rest path :
  gpu_page_file urljoin md5_hex8 output_dir page_url page_index rest path →
  gpu_page_file urljoin md5_hex8 output_dir page_url page_index (img :: rest) path.
Proof.
  intros (img_url & ext & Hin & Hext & ->). exists img_url, ext.
  split; [|split; [exact Hext | reflexivity]].
  destruct (gpu_eligible_src img) as [src|] eqn:E.
  - rewrite (gpu_image_urls_take _ _ _ _ _ E). now right.
  - rewrite (gpu_image_urls_skip _ _ _ _ E). exact Hin.
Qed.

(** The image loop of [process_scan_page]. *)
Lemma gpu_page_images_spec urljoin md5_hex8 output_dir page_url page_index images :
  ∀ w, ∃ added,
    Gpu.trace (Gpu.page_images urljoin md5_hex8 output_dir page_url page_index images w).2
    = Gpu.trace w ++ added
    ∧ Forall (fun u => u ∈ gpu_image_urls urljoin page_url images) (requests added)
    ∧ (Gpu.page_images urljoin md5_hex8 output_dir page_url page_index images w).1
      = length (saved added)
    ∧ length (saved added) ≤ length (gpu_image_urls urljoin page_url images)
    ∧ Forall (fun pd => gpu_page_file urljoin md5_hex8 output_dir page_url page_index
                          images pd.1) (saved added)
    ∧ Gpu.files (Gpu.page_images urljoin md5_hex8 output_dir page_url page_index
                   images w).2
      = apply_saves (saved added) (Gpu.files w).
Proof.
  induction images as [|img rest IH]; intros w; cbn [Gpu.page_images].
  - exists []. rewrite app_nil_r. cbn. repeat split; constructor.
  - assert (Hskip : gpu_eligible_src img = None →
              ∃ added,
                Gpu.trace (Gpu.page_images urljoin md5_hex8 output_dir page_url
                             page_index rest w).2 = Gpu.trace w ++ added
                ∧ Forall (fun u => u ∈ gpu_image_urls urljoin page_url (img :: rest))
                    (requests added)
                ∧ (Gpu.page_images urljoin md5_hex8 output_dir page_url page_index
                     rest w).1 = length (saved added)
                ∧ length (saved added)
                  ≤ length (gpu_image_urls urljoin page_url (img :: rest))
                ∧ Forall (fun pd => gpu_page_file urljoin md5_hex8 output_dir page_url
                                      page_index (img :: rest) pd.1) (saved added)
                ∧ Gpu.files (Gpu.page_images urljoin md5_hex8 output_dir page_url
                               page_index rest w).2
                  = apply_saves (saved added) (Gpu.files w)).
    { intros E. destruct (IH w) as (added & Ht & Hr & Hn & Hl & Hp & Hf).
      exists added. rewrite (gpu_image_urls_skip _ _ _ _ E).
      repeat (split; [assumption|]). split; [|exact Hf].
      eapply Forall_impl; [exact Hp|]. intros pd. apply gpu_page_file_later. }
    destruct (img !! "src") as [src|] eqn:Hsrc;
      [|apply Hskip; unfold gpu_eligible_src; rewrite Hsrc; reflexivity].
    destruct (denylisted src) eqn:Hdeny;
      [apply Hskip; unfold gpu_eligible_src; rewrite Hsrc, Hdeny; reflexivity|].
    destruct (Gpu.is_small_image img) eqn:Hsmall;
      [apply Hskip; unfold gpu_eligible_src; rewrite Hsrc, Hdeny, Hsmall; reflexivity|].
    clear Hskip.
    assert (E : gpu_eligible_src img = Some src)
      by (unfold gpu_eligible_src; rewrite Hsrc, Hdeny, Hsmall; reflexivity).
    rewrite (gpu_image_urls_take _ _ _ _ _ E).
    unfold bind.
    destruct (gpu_make_request_trace (urljoin page_url src) w) as (a1 & Ht1 & Hr1 & Hs1 & Hf1).
    assert (Hr1' : Forall (fun u => u ∈ urljoin page_url src
                                        :: gpu_image_urls urljoin page_url rest)
                     (requests a1)).
    { eapply Forall_impl; [exact Hr1|]. intros u ->. now left. }
    assert (Hlater : ∀ a, Forall (fun u => u ∈ gpu_image_urls urljoin page_url rest)
                            (requests a) →
                          Forall (fun u => u ∈ urljoin page_url src
                                             :: gpu_image_urls urljoin page_url rest)
                            (requests a)).
    { intros a Ha. eapply Forall_impl; [exact Ha|]. intros u Hu. now right. }
    destruct (Gpu.make_request (urljoin page_url src) w) as [[r|] w1]; cbn [fst snd] in *.
    + cbn [Gpu.save].
      match goal with |- context [Gpu.page_images _ _ _ _ _ rest ?w2] =>
        destruct (IH w2) as (a2 & Ht2 & Hr2 & Hn2 & Hl2 & Hp2 & Hf2);
        destruct (Gpu.page_images urljoin md5_hex8 output_dir page_url page_index rest w2)
          as [n w3] end.
      cbn [fst snd ret Gpu.trace Gpu.files] in *.
      eexists (a1 ++ [EvSave _ (content r)] ++ a2).
      split; [rewrite Ht2, Ht1, <- !app_assoc; reflexivity|].
      rewrite !requests_app, !saved_app, Hs1. cbn [requests saved app].
      split; [apply Forall_app; split; [exact Hr1' | apply Hlater, Hr2]|].
      split; [cbn [length]; congruence|].
      split; [cbn [length]; lia|].
      split.
      * constructor.
        -- cbn [fst]. eexists (urljoin page_url src), (pick_ext r).
           split; [rewrite (gpu_image_urls_take _ _ _ _ _ E); now left|].
           split; [apply pick_ext_exts | reflexivity].
        -- eapply Forall_impl; [exact Hp2|]. intros pd. apply gpu_page_file_later.
      * rewrite Hf2, Hf1. reflexivity.
    + destruct (IH w1) as (a2 & Ht2 & Hr2 & Hn2 & Hl2 & Hp2 & Hf2).
      exists (a1 ++ a2). rewrite Ht2, Ht1, requests_app, saved_app, Hs1, Hf2, Hf1.
      cbn [app]. split; [rewrite app_assoc; reflexivity|].
      split; [apply Forall_app; split; [exact Hr1' | apply Hlater, Hr2]|].
      split; [exact Hn2|]. split; [cbn [length]; lia|].
      split; [|reflexivity].
      eapply Forall_impl; [exact Hp2|]. intros pd. apply gpu_page_file_later.
Qed.

(** X15.  One page of the image job of [gpu_optimised.py].  When the page
    is not obtained, nothing is saved and the result is 0.  When it is,
    the only other requests go to the images that have a source, are not
    on the denylist and are not declared smaller than 300 pixels; the
    result is the number of files written, at most one per such image;
    and each file is named after the page number and the hash of the URL
    of one of these images, with the extension [jpg], [png] or [gif].  The
    file system afterwards is the one before with these writes applied. *)
Theorem gpu_scan_page_outcome (urljoin : string → string → string)
    (md5_hex8 : string → string) (page_url : string) (page_index : nat)
    (output_dir : string) (w : Gpu.World) :
  ∃ added,
    Gpu.trace (Gpu.process_scan_page urljoin md5_hex8 page_url page_index output_dir w).2
    = Gpu.trace w ++ added
    ∧ Gpu.files (Gpu.process_scan_page urljoin md5_hex8 page_url page_index output_dir w).2
      = apply_saves (saved added) (Gpu.files w)
    ∧ (Gpu.process_scan_page urljoin md5_hex8 page_url page_index output_dir w).1
      = length (saved added)
    ∧ match (Gpu.make_request page_url w).1 with
      | None => saved added = [] ∧ Forall (fun u => u = page_url) (requests added)
      | Some r =>
          Forall (fun u => u = page_url
                           ∨ u ∈ gpu_image_urls urljoin page_url (imgs (body r)))
            (requests added)
          ∧ length (saved added)
            ≤ length (gpu_image_urls urljoin page_url (imgs (body r)))
          ∧ Forall (fun pd => gpu_page_file urljoin md5_hex8 output_dir page_url
                                page_index (imgs (body r)) pd.1) (saved added)
      end.
Proof.
  unfold Gpu.process_scan_page, bind.
  destruct (gpu_make_request_trace page_url w) as (a1 & Ht1 & Hr1 & Hs1 & Hf1).
  destruct (Gpu.make_request page_url w) as [[r|] w1]; cbn [fst snd ret] in *.
  - destruct (gpu_page_images_spec urljoin md5_hex8 output_dir page_url page_index
                (imgs (body r)) w1) as (a2 & Ht2 & Hr2 & Hn2 & Hl2 & Hp2 & Hf2).
    exists (a1 ++ a2). rewrite Ht2, Ht1, requests_app, saved_app, Hs1, Hf2, Hf1.
    cbn [app]. split; [rewrite app_assoc; reflexivity|].
    split; [reflexivity|]. split; [exact Hn2|].
    split; [|split; assumption].
    apply Forall_app. split.
    + eapply Forall_impl; [exact Hr1|]. intros u ->. now left.
    + eapply Forall_impl; [exact Hr2|]. intros u Hu. now right.
  - exists a1. rewrite Hs1, Hf1. repeat split; assumption.
Qed.




(** ** The year listing of the thread-pool script *)

Lemma dict_set_keys {V : Type} key (value : V) d :
  dict_keys (GpuMain.dict_set key value d)
  = if bool_decide (key ∈ dict_keys d) then dict_keys d else dict_keys d ++ [key].
Proof.
  induction d as [|[k v] rest IH]; [reflexivity|].
  cbn [GpuMain.dict_set]. destruct (String.eqb k key) eqn:E.
  - apply String.eqb_eq in E as ->.
    rewrite bool_decide_eq_true_2 by (cbn; now left). reflexivity.
  - apply String.eqb_neq in E. unfold dict_keys in *. cbn [map fst]. rewrite IH.
    destruct (bool_decide (key ∈ map fst rest)) eqn:Hd.
    + apply bool_decide_eq_true_1 in Hd.
      rewrite bool_decide_eq_true_2 by (now right). reflexivity.
    + apply bool_decide_eq_false_1 in Hd.
      rewrite bool_decide_eq_false_2; [reflexivity|].
      intros [Heq|Hin]%elem_of_cons; [congruence | contradiction].
Qed.

Lemma dict_set_NoDup {V : Type} key (value : V) d :
  NoDup (dict_keys d) → NoDup (dict_keys (GpuMain.dict_set key value d)).
Proof.
  intros H. rewrite dict_set_keys.
  destruct (bool_decide (key ∈ dict_keys d)) eqn:Hd; [exact H|].
  apply bool_decide_eq_false_1 in Hd.
  apply NoDup_app. split; [exact H|]. split; [|apply NoDup_singleton].
  intros x Hx [->|Hn]%elem_of_cons; [contradiction | inversion Hn].
Qed.

Lemma dict_set_elem {V : Type} key (value : V) d k v :
  (k, v) ∈ GpuMain.dict_set key value d → (k, v) = (key, value) ∨ (k, v) ∈ d.
Proof.
  induction d as [|[k' v'] rest IH]; cbn [GpuMain.dict_set].
  - intros [->|Hn]%elem_of_cons; [now left | inversion Hn].
  - destruct (String.eqb k' key) eqn:E.
    + apply String.eqb_eq in E as ->.
      intros [->|Hin]%elem_of_cons; [now left | right; now right].
    + intros [->|Hin]%elem_of_cons; [right; now left|].
      destruct (IH Hin) as [->|H]; [now left | right; now right].
Qed.

Lemma found_month_in_elem names text month :
  GpuMain.found_month_in names text = Some month → month ∈ map fst names.
Proof.
  induction names as [|[eng hi] rest IH]; cbn [GpuMain.found_month_in]; [discriminate|].
  destruct (Py.contains eng text || Py.contains hi text).
  - intros [= ->]. now left.
  - intros H. right. apply IH, H.
Qed.

Lemma found_month_english text month :
  GpuMain.found_month text = Some month → month ∈ GpuMain.english_months.
Proof. intros H. apply found_month_in_elem in H. exact H. Qed.

Lemma says_pair a b link :
  says [a; b] link
  = Py.contains a (Py.lower (Py.strip (anchor_text link)))
    || Py.contains b (Py.lower (Py.strip (anchor_text link))).
Proof. unfold says. cbn [existsb]. rewrite orb_false_r. reflexivity. Qed.

Lemma element_links_from urljoin year_url element :
  links_from urljoin year_url element
    (mkVersions (GpuMain.element_links urljoin year_url element).1
                (GpuMain.element_links urljoin year_url element).2).
Proof.
  unfold GpuMain.element_links.
  assert (G : ∀ rest start,
            (∀ l, start.1 = Some l →
               ∃ link, link ∈ anchors element ∧ says scan_words link = true
                       ∧ l = urljoin year_url (default "" (href link))) →
            (∀ l, start.2 = Some l →
               ∃ link, link ∈ anchors element ∧ says scan_words link = false
                       ∧ says text_words link = true
                       ∧ l = urljoin year_url (default "" (href link))) →
            (∀ link, link ∈ rest → link ∈ anchors element) →
            links_from urljoin year_url element
              (mkVersions (foldl (GpuMain.link_step urljoin year_url) start rest).1
                          (foldl (GpuMain.link_step urljoin year_url) start rest).2)).
  { induction rest as [|link rest IH]; intros start H1 H2 Hsub.
    - split; assumption.
    - cbn [foldl]. apply IH; [| |intros x Hx; apply Hsub; now right];
        unfold GpuMain.link_step;
        pose proof (says_pair "scan" "स्कैन" link) as Es;
        pose proof (says_pair "text" "टेक्स्ट" link) as Et;
        fold scan_words in Es; fold text_words in Et;
        cbn zeta; rewrite <- Es, <- Et;
        destruct (says scan_words link) eqn:Hs; cbn [fst snd]; try assumption.
      + intros l [= <-]. exists link. split; [apply Hsub; now left|]. split; [exact Hs|].
        reflexivity.
      + destruct (says text_words link); cbn [fst]; assumption.
      + destruct (says text_words link) eqn:Ht; cbn [snd]; [|assumption].
        intros l [= <-]. exists link. split; [apply Hsub; now left|].
        split; [exact Hs|]. split; [exact Ht | reflexivity]. }
  apply G; [intros l [=] | intros l [=] | auto].
Qed.

Lemma element_steps_listing urljoin year_url all elements :
  ∀ months_data,
    (∀ element, element ∈ elements → element ∈ all) →
    NoDup (dict_keys months_data) →
    Forall (listed_entry urljoin year_url all) months_data →
    NoDup (dict_keys (foldl (GpuMain.element_step urljoin year_url) months_data elements))
    ∧ Forall (listed_entry urljoin year_url all)
        (foldl (GpuMain.element_step urljoin year_url) months_data elements).
Proof.
  induction elements as [|element rest IH]; intros months_data Hsub Hnd Hall.
  - split; assumption.
  - cbn [foldl]. apply IH; [intros x Hx; apply Hsub; now right | |];
      unfold GpuMain.element_step; cbn zeta;
      destruct (GpuMain.found_month (Py.strip (element_text element))) as [month|] eqn:Hm;
      try assumption;
      destruct (truthy (GpuMain.element_links urljoin year_url element).1
                || truthy (GpuMain.element_links urljoin year_url element).2) eqn:Ht;
      try assumption.
    + apply dict_set_NoDup, Hnd.
    + apply Forall_forall. intros [k v] Hin.
      apply dict_set_elem in Hin as [[= -> ->]|Hin].
      * split; [apply found_month_english in Hm; exact Hm|].
        split; [exact Ht|]. exists element.
        split; [apply Hsub; now left|]. split; [exact Hm|].
        apply element_links_from.
      * rewrite Forall_forall in Hall. apply Hall, Hin.
Qed.

Lemma dict_keys_bound {V : Type} (d : list (string * V)) (names : list string) :
  NoDup (dict_keys d) → (∀ k, k ∈ dict_keys d → k ∈ names) → length d ≤ length names.
Proof.
  intros Hnd Hsub. unfold dict_keys in *.
  rewrite <- (length_map fst d). apply submseteq_length, NoDup_submseteq; assumption.
Qed.

(** X17.  The listing [get_month_links] of [gpu_optimised.py] returns for
    a year.  It is empty when the year page is not obtained.  Otherwise
    its keys are English month names, each at most once, so it has at most
    twelve entries; every entry has a scan link or a text link that is
    present and not empty; and the links of an entry come from links of an
    element of the page that names the month (the first month, in calendar
    order, whose English or Hindi name occurs in the element's text): the
    scan link from one whose text says scan, the text link from one whose
    text says text and not scan.  The listing costs the requests of one
    call of [make_request] and nothing else. *)
Theorem gpu_month_links_listing (urljoin : string → string → string)
    (potential_elements : Soup → list Element) (year_url : string) (w : Gpu.World) :
  (GpuMain.get_month_links urljoin potential_elements year_url w).2
  = (Gpu.make_request year_url w).2
  ∧ NoDup (dict_keys (GpuMain.get_month_links urljoin potential_elements year_url w).1)
  ∧ length (GpuMain.get_month_links urljoin potential_elements year_url w).1 ≤ 12
  ∧ match (Gpu.make_request year_url w).1 with
    | None => (GpuMain.get_month_links urljoin potential_elements year_url w).1 = []
    | Some r =>
        Forall (listed_entry urljoin year_url (potential_elements (body r)))
          (GpuMain.get_month_links urljoin potential_elements year_url w).1
    end.
Proof.
  unfold GpuMain.get_month_links, bind.
  destruct (Gpu.make_request year_url w) as [[r|] w1]; cbn [fst snd ret].
  - destruct (element_steps_listing urljoin year_url (potential_elements (body r))
                (potential_elements (body r)) [])
      as [Hnd Hall]; [auto | constructor | constructor |].
    split; [reflexivity|]. split; [exact Hnd|]. split; [|exact Hall].
    change 12 with (length GpuMain.english_months).
    apply dict_keys_bound; [exact Hnd|].
    intros k Hk. apply list_elem_of_fmap in Hk as ([k' v] & -> & Hin).
    rewrite Forall_forall in Hall. apply (Hall _ Hin).
  - split; [reflexivity|]. split; [constructor|]. split; [cbn; lia | reflexivity].
Qed.

(** ** The years of the thread-pool script *)

Lemma ensure_year_has year (metadata : Metadata) :
  is_Some (GpuMain.ensure_year year metadata !! Py.str year).
Proof.
  unfold GpuMain.ensure_year. destruct (metadata !! Py.str year) eqn:E.
  - rewrite E. eexists. reflexivity.
  - rewrite lookup_insert_eq. eexists. reflexivity.
Qed.

Lemma ensure_year_other year (metadata : Metadata) key :
  key ≠ Py.str year → GpuMain.ensure_year year metadata !! key = metadata !! key.
Proof.
  intros Hne. unfold GpuMain.ensure_year. destruct (metadata !! Py.str year); [reflexivity|].
  apply lookup_insert_ne. congruence.
Qed.

Lemma ensure_year_record year (metadata : Metadata) y month :
  month_record (GpuMain.ensure_year year metadata) y month = month_record metadata y month.
Proof.
  unfold month_record, GpuMain.ensure_year.
  destruct (metadata !! Py.str year) eqn:E; [reflexivity|].
  destruct (decide (Py.str y = Py.str year)) as [Heq|Hne].
  - rewrite Heq, lookup_insert_eq, E. reflexivity.
  - rewrite lookup_insert_ne by congruence. reflexivity.
Qed.

Lemma record_month_has year month m (metadata : Metadata) key :
  is_Some (metadata !! key) → is_Some (Final.record_month year month m metadata !! key).
Proof.
  intros H. unfold Final.record_month.
  destruct (decide (key = Py.str year)) as [->|Hne].
  - rewrite lookup_insert_eq. eexists. reflexivity.
  - rewrite lookup_insert_ne by congruence. exact H.
Qed.

Section GpuYears.

Variable urljoin : string → string → string.
Variable potential_elements : Soup → list Element.
Variable md5_hex8 : string → string.
Variable dumps : Metadata → string.
Variable loads : string → option Metadata.
Variable order : list string → list nat.
Variable delay : nat → Z.

Local Abbreviation month_body := (Gpu.month_body urljoin md5_hex8 dumps order).
Local Abbreviation month_loop := (GpuMain.month_loop urljoin md5_hex8 dumps order).
Local Abbreviation process_month := (Gpu.process_month urljoin md5_hex8 order).
Local Abbreviation get_month_links := (GpuMain.get_month_links urljoin potential_elements).
Local Abbreviation year_body :=
  (GpuMain.year_body urljoin potential_elements md5_hex8 dumps order delay).
Local Abbreviation years_loop :=
  (GpuMain.years_loop urljoin potential_elements md5_hex8 dumps order delay).

Lemma gpu_month_body_eq year metadata entry w :
  month_body year metadata entry w
  = (Final.record_month year entry.1 (process_month year entry.1 entry.2 w).1 metadata,
     (Gpu.save Gpu.metadata_file
        (dumps (Final.record_month year entry.1
                  (process_month year entry.1 entry.2 w).1 metadata))
        (process_month year entry.1 entry.2 w).2).2).
Proof.
  unfold Gpu.month_body, bind.
  destruct (process_month year entry.1 entry.2 w) as [m w1]. reflexivity.
Qed.

Lemma gpu_month_loop_cons year entry rest metadata w :
  month_loop year (entry :: rest) metadata w
  = month_loop year rest (month_body year metadata entry w).1
      (month_body year metadata entry w).2.
Proof.
  cbn [GpuMain.month_loop]. unfold bind.
  destruct (month_body year metadata entry w). reflexivity.
Qed.

Lemma gpu_month_body_records all year metadata entry w :
  entry ∈ all →
  recorded_from all year (month_body year metadata entry w).1 entry.1.
Proof.
  intros Hin. rewrite gpu_month_body_eq. cbn [fst].
  destruct (gpu_process_month_fields urljoin md5_hex8 order year entry.1 entry.2 w)
    as (Hy & Hm & Hwf).
  eexists _, entry.2. split; [destruct entry; exact Hin|].
  split; [apply record_month_same|]. auto.
Qed.

Lemma gpu_month_body_keeps all year metadata entry w month :
  entry ∈ all →
  recorded_from all year metadata month →
  recorded_from all year (month_body year metadata entry w).1 month.
Proof.
  intros Hin Hrec. destruct (decide (month = entry.1)) as [->|Hne].
  - apply gpu_month_body_records, Hin.
  - destruct Hrec as (m & versions & H1 & H2 & H3).
    exists m, versions. split; [exact H1|]. split; [|exact H3].
    rewrite gpu_month_body_eq. cbn [fst].
    rewrite record_month_other_month by exact Hne. exact H2.
Qed.

Lemma gpu_month_loop_keeps all year rest :
  ∀ metadata w month,
    rest ⊆ all →
    recorded_from all year metadata month →
    recorded_from all year (month_loop year rest metadata w).1 month.
Proof.
  induction rest as [|entry rest IH]; intros metadata w month Hsub Hrec.
  - exact Hrec.
  - rewrite gpu_month_loop_cons. apply IH.
    + intros x Hx. apply Hsub. now right.
    + apply gpu_month_body_keeps; [apply Hsub; now left | exact Hrec].
Qed.

Lemma gpu_month_loop_records all year rest :
  ∀ metadata w month versions,
    rest ⊆ all →
    (month, versions) ∈ rest →
    recorded_from all year (month_loop year rest metadata w).1 month.
Proof.
  induction rest as [|entry rest IH]; intros metadata w month versions Hsub Hin.
  - apply elem_of_nil in Hin. contradiction.
  - rewrite gpu_month_loop_cons.
    apply elem_of_cons in Hin as [Heq|Hr].
    + subst entry. apply gpu_month_loop_keeps; [intros x Hx; apply Hsub; now right|].
      apply (gpu_month_body_records all year metadata (month, versions) w).
      apply Hsub. now left.
    + eapply IH; [|exact Hr]. intros x Hx. apply Hsub. now right.
Qed.

Lemma gpu_month_loop_untouched year rest :
  ∀ metadata w,
    (∀ month, month ∉ dict_keys rest →
       month_record (month_loop year rest metadata w).1 year month
       = month_record metadata year month)
    ∧ (∀ key, key ≠ Py.str year →
         (month_loop year rest metadata w).1 !! key = metadata !! key)
    ∧ (∀ key, is_Some (metadata !! key) →
         is_Some ((month_loop year rest metadata w).1 !! key)).
Proof.
  induction rest as [|entry rest IH]; intros metadata w.
  - split; [reflexivity|]. split; [reflexivity | auto].
  - rewrite gpu_month_loop_cons.
    destruct (IH (month_body year metadata entry w).1 (month_body year metadata entry w).2)
      as (IH1 & IH2 & IH3).
    split; [|split].
    + intros month Hnot. unfold dict_keys in Hnot. cbn [map] in Hnot.
      apply not_elem_of_cons in Hnot as [Hne Hnot].
      rewrite IH1 by exact Hnot. rewrite gpu_month_body_eq. cbn [fst].
      apply record_month_other_month, Hne.
    + intros key Hne. rewrite IH2 by exact Hne. rewrite gpu_month_body_eq. cbn [fst].
      apply record_month_other_year, Hne.
    + intros key Hk. apply IH3. rewrite gpu_month_body_eq. cbn [fst].
      apply record_month_has, Hk.
Qed.

Lemma gpu_month_loop_file year rest :
  ∀ metadata w entry,
    Gpu.files (month_loop year (entry :: rest) metadata w).2 !! Gpu.metadata_file
    = Some (dumps (month_loop year (entry :: rest) metadata w).1).
Proof.
  induction rest as [|entry' rest IH]; intros metadata w entry.
  - rewrite gpu_month_loop_cons. cbn [GpuMain.month_loop ret fst snd].
    rewrite gpu_month_body_eq. cbn [fst snd Gpu.save Gpu.files].
    apply lookup_insert_eq.
  - rewrite gpu_month_loop_cons. apply IH.
Qed.

(** The year body in terms of the listing and the month loop. *)
Lemma gpu_year_body_eq year state w :
  year_body year state w
  = let listing := get_month_links (GpuMain.BASE_URL +:+ Py.str year) w in
    match listing.1 with
    | [] => ((GpuMain.ensure_year year state.1, state.2), listing.2)
    | _ :: _ =>
        let months := month_loop year listing.1 (GpuMain.ensure_year year state.1)
                        listing.2 in
        ((months.1, S state.2),
         (if (S state.2 mod 5 =? 0)%nat
          then Gpu.sleep_ms Pause (delay (S state.2 / 5 - 1)) months.2
          else (tt, months.2)).2)
    end.
Proof.
  unfold GpuMain.year_body, bind. cbn zeta.
  destruct (get_month_links (GpuMain.BASE_URL +:+ Py.str year) w) as [[|entry rest] w1];
    cbn [fst snd ret]; [reflexivity|].
  destruct (month_loop year (entry :: rest) (GpuMain.ensure_year year state.1) w1)
    as [metadata' w2]. cbn [fst snd].
  destruct (S state.2 mod 5 =? 0)%nat; reflexivity.
Qed.

Lemma gpu_year_body_spec year metadata n w :
  let listing := (get_month_links (GpuMain.BASE_URL +:+ Py.str year) w).1 in
  is_Some ((year_body year (metadata, n) w).1.1 !! Py.str year)
  ∧ (∀ month versions, (month, versions) ∈ listing →
       recorded_from listing year (year_body year (metadata, n) w).1.1 month)
  ∧ (∀ month, month ∉ dict_keys listing →
       month_record (year_body year (metadata, n) w).1.1 year month
       = month_record metadata year month)
  ∧ (∀ key, key ≠ Py.str year →
       (year_body year (metadata, n) w).1.1 !! key = metadata !! key)
  ∧ match listing with
    | [] => (year_body year (metadata, n) w).1.2 = n
            ∧ (year_body year (metadata, n) w).2
              = (get_month_links (GpuMain.BASE_URL +:+ Py.str year) w).2
    | _ :: _ =>
        (year_body year (metadata, n) w).1.2 = S n
        ∧ Gpu.files (year_body year (metadata, n) w).2 !! Gpu.metadata_file
          = Some (dumps (year_body year (metadata, n) w).1.1)
    end.
Proof.
  cbn zeta. rewrite gpu_year_body_eq. cbn zeta. cbn [fst snd].
  destruct (get_month_links (GpuMain.BASE_URL +:+ Py.str year) w) as [listing w1].
  cbn [fst snd].
  destruct listing as [|entry rest]; cbn [fst snd].
  - split; [apply ensure_year_has|].
    split; [intros month versions H; apply elem_of_nil in H; contradiction|].
    split; [intros month _; apply ensure_year_record|].
    split; [intros key Hne; apply ensure_year_other, Hne|].
    split; reflexivity.
  - destruct (gpu_month_loop_untouched year (entry :: rest)
                (GpuMain.ensure_year year metadata) w1) as (H1 & H2 & H3).
    split; [apply H3, ensure_year_has|].
    split; [intros month versions Hin;
            eapply gpu_month_loop_records; [intros x Hx; exact Hx | exact Hin]|].
    split; [intros month Hnot; rewrite H1 by exact Hnot; apply ensure_year_record|].
    split; [intros key Hne; rewrite H2 by exact Hne; apply ensure_year_other, Hne|].
    split; [reflexivity|].
    pose proof (gpu_month_loop_file year rest (GpuMain.ensure_year year metadata) w1 entry)
      as Hfile.
    destruct (S n mod 5 =? 0)%nat; cbn [snd Gpu.sleep_ms Gpu.files]; exact Hfile.
Qed.

Lemma gpu_year_body_keeps year metadata n w :
  (∀ key, is_Some (metadata !! key) →
     is_Some ((year_body year (metadata, n) w).1.1 !! key))
  ∧ (∀ y month, is_Some (month_record metadata y month) →
       is_Some (month_record (year_body year (metadata, n) w).1.1 y month))
  ∧ n ≤ (year_body year (metadata, n) w).1.2 ≤ S n.
Proof.
  destruct (gpu_year_body_spec year metadata n w) as (Hhas & Hrec & Hkeep & Hother & Hcount).
  cbn zeta in *.
  split; [|split].
  - intros key Hk. destruct (decide (key = Py.str year)) as [->|Hne]; [exact Hhas|].
    rewrite Hother by exact Hne. exact Hk.
  - intros y month Hm. destruct (decide (y = year)) as [->|Hne].
    + destruct (decide (month ∈ dict_keys
                          (get_month_links (GpuMain.BASE_URL +:+ Py.str year) w).1))
        as [Hin|Hnot].
      * apply list_elem_of_fmap in Hin as ([k versions] & -> & Hin).
        destruct (Hrec k versions Hin) as (m & v & _ & Hsome & _).
        cbn [fst]. rewrite Hsome. eexists. reflexivity.
      * rewrite Hkeep by exact Hnot. exact Hm.
    + unfold month_record in *. rewrite Hother; [exact Hm|].
      intros Heq. apply Hne, str_inj, Heq.
  - destruct (get_month_links (GpuMain.BASE_URL +:+ Py.str year) w).1;
      destruct Hcount as [-> _]; lia.
Qed.

Lemma gpu_years_loop_spec years :
  ∀ metadata n w,
    (∀ key, is_Some (metadata !! key) →
       is_Some ((years_loop years (metadata, n) w).1.1 !! key))
    ∧ (∀ year, year ∈ years →
         is_Some ((years_loop years (metadata, n) w).1.1 !! Py.str year))
    ∧ (∀ year month, is_Some (month_record metadata year month) →
         is_Some (month_record (years_loop years (metadata, n) w).1.1 year month))
    ∧ (∀ key, (∀ year, year ∈ years → key ≠ Py.str year) →
         (years_loop years (metadata, n) w).1.1 !! key = metadata !! key)
    ∧ n ≤ (years_loop years (metadata, n) w).1.2 ≤ n + length years.
Proof.
  induction years as [|year rest IH]; intros metadata n w.
  - cbn [GpuMain.years_loop ret fst snd length].
    split; [auto|]. split; [intros year H; apply elem_of_nil in H; contradiction|].
    split; [auto|]. split; [reflexivity | lia].
  - cbn [GpuMain.years_loop]. unfold bind.
    destruct (gpu_year_body_spec year metadata n w) as (Hhas & _ & _ & Hother & _).
    destruct (gpu_year_body_keeps year metadata n w) as (Hkeys & Hrecs & Hcount).
    destruct (year_body year (metadata, n) w) as [[metadata1 n1] w1]. cbn [fst snd] in *.
    destruct (IH metadata1 n1 w1) as (IH1 & IH2 & IH3 & IH4 & IH5).
    split; [intros key Hk; apply IH1, Hkeys, Hk|].
    split.
    { intros y [->|Hin]%elem_of_cons; [apply IH1, Hhas | apply IH2, Hin]. }
    split; [intros y month Hm; apply IH3, Hrecs, Hm|].
    split.
    { intros key Hkey. rewrite IH4 by (intros y Hy; apply Hkey; now right).
      apply Hother, Hkey. now left. }
    cbn [length]. lia.
Qed.

End GpuYears.

(** X18.  One year of [main] of [gpu_optimised.py], with the listing that
    [get_month_links] returns for the year.  Afterwards the metadata has
    an entry for the year; every month of the listing has a record under
    it, built for that year and month and well formed for a link pair of
    the listing; the records of months that are not in the listing, and
    everything under other years, are as before.  A year with an empty
    listing is not counted as processed and changes nothing but the
    requests of the listing; a year with months is counted, and the
    metadata file then holds the dump of the metadata the year ends
    with. *)
Theorem gpu_year_records (urljoin : string → string → string)
    (potential_elements : Soup → list Element) (md5_hex8 : string → string)
    (dumps : Metadata → string) (order : list string → list nat) (delay : nat → Z)
    (year : nat) (metadata : Metadata) (years_processed : nat) (w : Gpu.World) :
  let listing :=
    (GpuMain.get_month_links urljoin potential_elements
       (GpuMain.BASE_URL +:+ Py.str year) w).1 in
  let after :=
    GpuMain.year_body urljoin potential_elements md5_hex8 dumps order delay year
      (metadata, years_processed) w in
  is_Some (after.1.1 !! Py.str year)
  ∧ (∀ month versions, (month, versions) ∈ listing →
       recorded_from listing year after.1.1 month)
  ∧ (∀ month, month ∉ dict_keys listing →
       month_record after.1.1 year month = month_record metadata year month)
  ∧ (∀ key, key ≠ Py.str year → after.1.1 !! key = metadata !! key)
  ∧ match listing with
    | [] => after.1.2 = years_processed
            ∧ after.2 = (GpuMain.get_month_links urljoin potential_elements
                           (GpuMain.BASE_URL +:+ Py.str year) w).2
    | _ :: _ =>
        after.1.2 = S years_processed
        ∧ Gpu.files after.2 !! Gpu.metadata_file = Some (dumps after.1.1)
    end.
Proof. apply gpu_year_body_spec. Qed.

(** X19.  A whole run of [main] of [gpu_optimised.py], started from the
    metadata it loads (the content of the metadata file when it can be
    read, nothing otherwise).  At the end the metadata has an entry for
    every year from [START_YEAR] to [END_YEAR]; no record that was loaded
    has disappeared; the entries of keys that are no year of the range are
    the loaded ones; and at most one year is counted as processed per year
    of the range. *)
Theorem gpu_main_keeps_records (urljoin : string → string → string)
    (potential_elements : Soup → list Element) (md5_hex8 : string → string)
    (dumps : Metadata → string) (loads : string → option Metadata)
    (order : list string → list nat) (delay : nat → Z) (w : Gpu.World) :
  let loaded := (GpuMain.load_metadata loads w).1 in
  let after :=
    GpuMain.main urljoin potential_elements md5_hex8 dumps loads order delay w in
  (∀ year, GpuMain.START_YEAR ≤ year ≤ GpuMain.END_YEAR →
     is_Some (after.1.1 !! Py.str year))
  ∧ (∀ year month, is_Some (month_record loaded year month) →
       is_Some (month_record after.1.1 year month))
  ∧ (∀ key, (∀ year, GpuMain.START_YEAR ≤ year ≤ GpuMain.END_YEAR → key ≠ Py.str year) →
       after.1.1 !! key = loaded !! key)
  ∧ after.1.2 ≤ GpuMain.END_YEAR + 1 - GpuMain.START_YEAR.
Proof.
  cbn zeta.
  assert (E : GpuMain.main urljoin potential_elements md5_hex8 dumps loads order delay w
              = GpuMain.years_loop urljoin potential_elements md5_hex8 dumps order delay
                  (seq GpuMain.START_YEAR (GpuMain.END_YEAR + 1 - GpuMain.START_YEAR))
                  ((GpuMain.load_metadata loads w).1, 0) w) by reflexivity.
  rewrite E.
  destruct (gpu_years_loop_spec urljoin potential_elements md5_hex8 dumps order delay
              (seq GpuMain.START_YEAR (GpuMain.END_YEAR + 1 - GpuMain.START_YEAR))
              (GpuMain.load_metadata loads w).1 0 w) as (_ & H2 & H3 & H4 & H5).
  split.
  { intros year Hy. apply H2, list_elem_of_In, in_seq.
    unfold GpuMain.START_YEAR, GpuMain.END_YEAR in *. lia. }
  split; [exact H3|]. split.
  { intros key Hkey. apply H4. intros year Hy. apply Hkey.
    apply list_elem_of_In, in_seq in Hy.
    unfold GpuMain.START_YEAR, GpuMain.END_YEAR in *. lia. }
  rewrite length_seq in H5. lia.
Qed.

(** ** Whole runs of the thread-pool script *)

Section GpuRuns.

Variable R : Gpu.World → Gpu.World → Prop.
Hypothesis R_refl : ∀ w, R w w.
Hypothesis R_trans : ∀ w1 w2 w3, R w1 w2 → R w2 w3 → R w1 w3.
Hypothesis R_request : ∀ url w, R w (Gpu.make_request url w).2.
Hypothesis R_save : ∀ path data w, R w (Gpu.save path data w).2.

Variable urljoin : string → string → string.
Variable potential_elements : Soup → list Element.
Variable md5_hex8 : string → string.
Variable dumps : Metadata → string.
Variable order : list string → list nat.

Lemma gpu_inv_get_pagination_links url max_pages w :
  R w (Gpu.get_pagination_links url max_pages w).2.
Proof using R_request.
  unfold Gpu.get_pagination_links, bind. pose proof (R_request url w) as H.
  destruct (Gpu.make_request url w) as [response w1]. exact H.
Qed.

Lemma gpu_inv_process_text_page page_url w :
  R w (Gpu.process_text_page page_url w).2.
Proof using R_request.
  unfold Gpu.process_text_page, bind. pose proof (R_request page_url w) as H.
  destruct (Gpu.make_request page_url w) as [[r|] w1]; [|exact H].
  destruct (find_content Gpu.content_selectors (body r)); exact H.
Qed.

Lemma gpu_inv_text_results page_urls indices :
  ∀ all_text content_found w,
    R w (Gpu.text_results page_urls indices all_text content_found w).2.
Proof using R_refl R_trans R_request.
  induction indices as [|i rest IH]; intros all_text content_found w;
    cbn [Gpu.text_results]; [apply R_refl|].
  destruct (page_urls !! i) as [page_url|]; [|apply IH].
  unfold bind. pose proof (gpu_inv_process_text_page page_url w) as H.
  destruct (Gpu.process_text_page page_url w) as [page_text w1]. cbn [snd] in H.
  destruct (truthy page_text); (eapply R_trans; [exact H | apply IH]).
Qed.

Lemma gpu_inv_download_text_content url output_file w :
  R w (Gpu.download_text_content order url output_file w).2.
Proof using R_refl R_trans R_request R_save.
  unfold Gpu.download_text_content, bind.
  pose proof (gpu_inv_get_pagination_links url 36 w) as H1.
  destruct (Gpu.get_pagination_links url 36 w) as [page_urls w1]. cbn [snd] in H1.
  pose proof (gpu_inv_text_results page_urls (order page_urls) "" false w1) as H2.
  destruct (Gpu.text_results page_urls (order page_urls) "" false w1)
    as [[all_text content_found] w2]. cbn [snd] in H2.
  destruct content_found; cbn [negb ret snd].
  - eapply R_trans; [exact H1|]. eapply R_trans; [exact H2 | apply R_save].
  - eapply R_trans; [exact H1 | exact H2].
Qed.

Lemma gpu_inv_page_images output_dir page_url page_index images :
  ∀ w, R w (Gpu.page_images urljoin md5_hex8 output_dir page_url page_index images w).2.
Proof using R_refl R_trans R_request R_save.
  induction images as [|img rest IH]; intros w; cbn [Gpu.page_images]; [apply R_refl|].
  destruct (img !! "src") as [src|]; [|apply IH].
  destruct (denylisted src); [apply IH|].
  destruct (Gpu.is_small_image img); [apply IH|].
  unfold bind. pose proof (R_request (urljoin page_url src) w) as H1.
  destruct (Gpu.make_request (urljoin page_url src) w) as [[r|] w1]; cbn [snd] in H1.
  - match goal with |- context [Gpu.save ?p ?d w1] =>
      pose proof (R_save p d w1) as H2;
      destruct (Gpu.save p d w1) as [[] w2] end.
    cbn [snd] in H2. pose proof (IH w2) as H3.
    destruct (Gpu.page_images urljoin md5_hex8 output_dir page_url page_index rest w2)
      as [n w3]. cbn [snd ret] in *. eauto.
  - eapply R_trans; [exact H1 | apply IH].
Qed.

Lemma gpu_inv_process_scan_page page_url page_index output_dir w :
  R w (Gpu.process_scan_page urljoin md5_hex8 page_url page_index output_dir w).2.
Proof using R_refl R_trans R_request R_save.
  unfold Gpu.process_scan_page, bind. pose proof (R_request page_url w) as H.
  destruct (Gpu.make_request page_url w) as [[r|] w1]; cbn [snd ret] in *; [|exact H].
  eapply R_trans; [exact H | apply gpu_inv_page_images].
Qed.

Lemma gpu_inv_scan_results output_dir page_urls indices :
  ∀ w, R w (Gpu.scan_results urljoin md5_hex8 output_dir page_urls indices w).2.
Proof using R_refl R_trans R_request R_save.
  induction indices as [|i rest IH]; intros w; cbn [Gpu.scan_results]; [apply R_refl|].
  destruct (page_urls !! i) as [page_url|]; [|apply IH].
  unfold bind. pose proof (gpu_inv_process_scan_page page_url i output_dir w) as H1.
  destruct (Gpu.process_scan_page urljoin md5_hex8 page_url i output_dir w) as [n w1].
  pose proof (IH w1) as H2.
  destruct (Gpu.scan_results urljoin md5_hex8 output_dir page_urls rest w1) as [m w2].
  cbn [snd ret] in *. eauto.
Qed.

Lemma gpu_inv_download_scan_images url output_dir w :
  R w (Gpu.download_scan_images urljoin md5_hex8 order url output_dir w).2.
Proof using R_refl R_trans R_request R_save.
  unfold Gpu.download_scan_images, bind.
  pose proof (gpu_inv_get_pagination_links url 66 w) as H1.
  destruct (Gpu.get_pagination_links url 66 w) as [page_urls w1]. cbn [snd] in H1.
  pose proof (gpu_inv_scan_results output_dir page_urls (order page_urls) w1) as H2.
  destruct (Gpu.scan_results urljoin md5_hex8 output_dir page_urls (order page_urls) w1)
    as [downloaded w2]. cbn [snd ret] in *. eauto.
Qed.

Lemma gpu_inv_process_month year month versions w :
  R w (Gpu.process_month urljoin md5_hex8 order year month versions w).2.
Proof using R_refl R_trans R_request R_save.
  rewrite gpu_process_month_cases, gpu_month_text_cases. cbn zeta.
  assert (Ht : R w (Gpu.download_text_content order (default "" (v_text versions))
                      (Gpu.text_file year month) w).2)
    by apply gpu_inv_download_text_content.
  assert (Hs : ∀ w1, R w w1 →
            R w (Gpu.download_scan_images urljoin md5_hex8 order
                   (default "" (v_scan versions)) (Gpu.scan_dir year month) w1).2).
  { intros w1 H1. eapply R_trans; [exact H1 | apply gpu_inv_download_scan_images]. }
  destruct (truthy (v_text versions)).
  - destruct (bool_decide _); cbn [fst snd negb andb]; [apply R_refl|].
    destruct (Gpu.download_text_content _ _ _ w).1; cbn [fst snd negb andb]; [exact Ht|].
    destruct (truthy (v_scan versions)); cbn [fst snd]; [apply Hs, Ht | exact Ht].
  - cbn [fst snd negb andb].
    destruct (truthy (v_scan versions)); cbn [fst snd]; [apply Hs, R_refl | apply R_refl].
Qed.

Lemma gpu_inv_month_body year metadata entry w :
  R w (Gpu.month_body urljoin md5_hex8 dumps order year metadata entry w).2.
Proof using R_refl R_trans R_request R_save.
  unfold Gpu.month_body, bind.
  pose proof (gpu_inv_process_month year entry.1 entry.2 w) as H.
  destruct (Gpu.process_month urljoin md5_hex8 order year entry.1 entry.2 w) as [m w1].
  cbn [snd ret] in *. eapply R_trans; [exact H | apply R_save].
Qed.

Lemma gpu_inv_month_loop year months_data :
  ∀ metadata w,
    R w (GpuMain.month_loop urljoin md5_hex8 dumps order year months_data metadata w).2.
Proof using R_refl R_trans R_request R_save.
  induction months_data as [|entry rest IH]; intros metadata w;
    cbn [GpuMain.month_loop]; [apply R_refl|].
  unfold bind. pose proof (gpu_inv_month_body year metadata entry w) as H.
  destruct (Gpu.month_body urljoin md5_hex8 dumps order year metadata entry w)
    as [metadata' w1]. cbn [snd] in H.
  eapply R_trans; [exact H | apply IH].
Qed.

Lemma gpu_inv_get_month_links year_url w :
  R w (GpuMain.get_month_links urljoin potential_elements year_url w).2.
Proof using R_request.
  unfold GpuMain.get_month_links, bind. pose proof (R_request year_url w) as H.
  destruct (Gpu.make_request year_url w) as [[r|] w1]; exact H.
Qed.

End GpuRuns.

Lemma gpu_paused_refl w : gpu_paused [] w w.
Proof. exists []. rewrite app_nil_r. split; reflexivity. Qed.

Lemma gpu_paused_trans l1 l2 w1 w2 w3 :
  gpu_paused l1 w1 w2 → gpu_paused l2 w2 w3 → gpu_paused (l1 ++ l2) w1 w3.
Proof.
  intros (a1 & Ht1 & Hs1) (a2 & Ht2 & Hs2). exists (a1 ++ a2).
  rewrite Ht2, Ht1, app_assoc, sleeps_app, Hs1, Hs2. split; reflexivity.
Qed.

Lemma gpu_paused_trans_nil w1 w2 w3 :
  gpu_paused [] w1 w2 → gpu_paused [] w2 w3 → gpu_paused [] w1 w3.
Proof. apply (gpu_paused_trans [] []). Qed.

Lemma gpu_paused_event e w1 w2 :
  sleeps Pause [e] = [] →
  Gpu.trace w2 = Gpu.trace w1 ++ [e] →
  gpu_paused [] w1 w2.
Proof. intros Hs Ht. exists [e]. split; assumption. Qed.

Lemma gpu_paused_same w1 w2 :
  Gpu.trace w2 = Gpu.trace w1 → gpu_paused [] w1 w2.
Proof. intros Ht. exists []. rewrite app_nil_r. split; [exact Ht | reflexivity]. Qed.

Lemma retry_loop_no_pause url attempts :
  ∀ w, gpu_paused [] w (Gpu.retry_loop url attempts w).2.
Proof.
  induction attempts as [|attempt rest IH]; intros w; cbn [Gpu.retry_loop].
  - apply gpu_paused_refl.
  - unfold bind.
    assert (Hget : gpu_paused [] w (Gpu.http_get url w).2)
      by (apply gpu_paused_event with (e := EvGet url); reflexivity).
    destruct (Gpu.http_get url w) as [o w1]. cbn [snd] in Hget.
    assert (Hback : gpu_paused [] w
                      (Gpu.retry_loop url rest (Gpu.backoff attempt w1).2).2).
    { eapply gpu_paused_trans_nil; [exact Hget|].
      eapply gpu_paused_trans_nil; [|apply IH].
      eapply gpu_paused_event; [|reflexivity]. reflexivity. }
    assert (Eback : ∀ (k : unit → M Gpu.World (option Response)),
              (let (x, w2) := Gpu.backoff attempt w1 in k x w2)
              = k tt (Gpu.backoff attempt w1).2) by reflexivity.
    destruct o as [response|]; [|rewrite Eback; exact Hback].
    destruct (status_code response =? 200)%Z.
    + eapply gpu_paused_trans_nil; [exact Hget|]. apply gpu_paused_same. reflexivity.
    + destruct (status_code response =? 429)%Z; [|rewrite Eback; exact Hback].
      destruct (Gpu.retry_after response) as [seconds|]; [|rewrite Eback; exact Hback].
      destruct (Gpu.sleep_accepts seconds); [|rewrite Eback; exact Hback].
      change (gpu_paused [] w
                (Gpu.retry_loop url rest (Gpu.sleep RateLimit seconds w1).2).2).
      eapply gpu_paused_trans_nil; [exact Hget|].
      eapply gpu_paused_trans_nil; [|apply IH].
      eapply gpu_paused_event; [|reflexivity]. reflexivity.
Qed.

Lemma make_request_preamble_no_pause url w :
  ∃ w0,
    Gpu.make_request url w = Gpu.retry_loop url (seq 0 Gpu.MAX_RETRIES) w0
    ∧ gpu_paused [] w w0.
Proof.
  unfold Gpu.make_request, bind, Gpu.now, Gpu.get_rm.
  cbn -[Gpu.retry_loop seq Gpu.MAX_RETRIES Z.max Nat.leb Z.ltb Z.sub Z.add Gpu.SESSION_REQUESTS Gpu.SESSION_DURATION Gpu.MIN_DELAY].
  destruct (Gpu.clock w - Gpu.last_request_time (Gpu.request_manager w) <? Gpu.MIN_DELAY)%Z;
    cbn -[Gpu.retry_loop seq Gpu.MAX_RETRIES Z.max Nat.leb Z.ltb Z.sub Z.add Gpu.SESSION_REQUESTS Gpu.SESSION_DURATION Gpu.MIN_DELAY];
    match goal with |- context [if ?c then _ else _] => destruct c end;
    cbn -[Gpu.retry_loop seq Gpu.MAX_RETRIES Z.max Nat.leb Z.ltb Z.sub Z.add Gpu.SESSION_REQUESTS Gpu.SESSION_DURATION Gpu.MIN_DELAY];
    eexists; (split; [reflexivity|]);
    first [ eapply gpu_paused_event; [|reflexivity]; reflexivity
          | apply gpu_paused_same; reflexivity ].
Qed.

Lemma gpu_make_request_no_pause url w :
  gpu_paused [] w (Gpu.make_request url w).2.
Proof.
  destruct (make_request_preamble_no_pause url w) as (w0 & E & H0).
  rewrite E. eapply gpu_paused_trans_nil; [exact H0 | apply retry_loop_no_pause].
Qed.

Lemma gpu_save_no_pause path data w : gpu_paused [] w (Gpu.save path data w).2.
Proof. eapply gpu_paused_event; [|reflexivity]. reflexivity. Qed.

Lemma div5_step n :
  S n / 5 = if (S n mod 5 =? 0) then S (n / 5) else n / 5.
Proof.
  pose proof (Nat.div_mod_eq n 5) as H1.
  pose proof (Nat.mod_upper_bound n 5 ltac:(lia)) as H2.
  pose proof (Nat.div_mod_eq (S n) 5) as H3.
  pose proof (Nat.mod_upper_bound (S n) 5 ltac:(lia)) as H4.
  destruct (S n mod 5 =? 0) eqn:E.
  - apply Nat.eqb_eq in E. lia.
  - apply Nat.eqb_neq in E. lia.
Qed.

Section GpuPauses.

Variable urljoin : string → string → string.
Variable potential_elements : Soup → list Element.
Variable md5_hex8 : string → string.
Variable dumps : Metadata → string.
Variable order : list string → list nat.
Variable delay : nat → Z.

Local Abbreviation year_body :=
  (GpuMain.year_body urljoin potential_elements md5_hex8 dumps order delay).
Local Abbreviation years_loop :=
  (GpuMain.years_loop urljoin potential_elements md5_hex8 dumps order delay).

Lemma gpu_year_body_pauses year state w :
  gpu_paused (map delay (seq (state.2 / 5)
                           ((year_body year state w).1.2 / 5 - state.2 / 5)))
    w (year_body year state w).2
  ∧ state.2 ≤ (year_body year state w).1.2.
Proof.
  rewrite gpu_year_body_eq. cbn zeta.
  pose proof (gpu_inv_get_month_links (gpu_paused []) gpu_make_request_no_pause
                urljoin potential_elements (GpuMain.BASE_URL +:+ Py.str year) w) as H1.
  destruct (GpuMain.get_month_links urljoin potential_elements
              (GpuMain.BASE_URL +:+ Py.str year) w) as [listing w1]. cbn [fst snd] in *.
  destruct listing as [|entry rest]; cbn [fst snd].
  - rewrite Nat.sub_diag. split; [exact H1 | lia].
  - pose proof (gpu_inv_month_loop (gpu_paused []) gpu_paused_refl gpu_paused_trans_nil
                  gpu_make_request_no_pause gpu_save_no_pause
                  urljoin md5_hex8 dumps order year (entry :: rest)
                  (GpuMain.ensure_year year state.1) w1) as H2.
    pose proof (gpu_paused_trans_nil _ _ _ H1 H2) as H3.
    split; [|lia]. rewrite (div5_step state.2).
    destruct (S state.2 mod 5 =? 0)%nat.
    + replace (S (state.2 / 5) - 1) with (state.2 / 5) by lia.
      replace (S (state.2 / 5) - state.2 / 5) with 1 by lia.
      cbn [seq map snd Gpu.sleep_ms].
      apply (gpu_paused_trans [] [delay (state.2 / 5)] _ _ _ H3).
      exists [EvSleep Pause (delay (state.2 / 5))]. split; reflexivity.
    + rewrite Nat.sub_diag. exact H3.
Qed.

Lemma gpu_years_loop_pauses years :
  ∀ state w,
    gpu_paused (map delay (seq (state.2 / 5)
                             ((years_loop years state w).1.2 / 5 - state.2 / 5)))
      w (years_loop years state w).2
    ∧ state.2 ≤ (years_loop years state w).1.2.
Proof.
  induction years as [|year rest IH]; intros state w; cbn [GpuMain.years_loop].
  - cbn [ret fst snd]. rewrite Nat.sub_diag. split; [apply gpu_paused_refl | lia].
  - unfold bind. destruct (gpu_year_body_pauses year state w) as [H1 Hle1].
    destruct (year_body year state w) as [state1 w1]. cbn [fst snd] in *.
    destruct (IH state1 w1) as [H2 Hle2].
    split; [|lia].
    pose proof (gpu_paused_trans _ _ _ _ _ H1 H2) as H.
    assert (Hd1 : state.2 / 5 ≤ state1.2 / 5) by (apply Nat.Div0.div_le_mono; lia).
    assert (Hd2 : state1.2 / 5 ≤ (years_loop rest state1 w1).1.2 / 5)
      by (apply Nat.Div0.div_le_mono; lia).
    replace ((years_loop rest state1 w1).1.2 / 5 - state.2 / 5)
      with (state1.2 / 5 - state.2 / 5
            + ((years_loop rest state1 w1).1.2 / 5 - state1.2 / 5)) by lia.
    rewrite seq_app, map_app.
    replace (state.2 / 5 + (state1.2 / 5 - state.2 / 5)) with (state1.2 / 5) by lia.
    exact H.
Qed.

End GpuPauses.

(** X20.  The pauses of a whole run of [main] of [gpu_optimised.py].  The
    only pauses the run makes, apart from the waiting inside
    [make_request], are the random delays between years: one after every
    fifth year that had months, each lasting the next draw.  Years without
    months are not counted. *)
Theorem gpu_main_pauses (urljoin : string → string → string)
    (potential_elements : Soup → list Element) (md5_hex8 : string → string)
    (dumps : Metadata → string) (loads : string → option Metadata)
    (order : list string → list nat) (delay : nat → Z) (w : Gpu.World) :
  let after :=
    GpuMain.main urljoin potential_elements md5_hex8 dumps loads order delay w in
  ∃ added,
    Gpu.trace after.2 = Gpu.trace w ++ added
    ∧ sleeps Pause added = map delay (seq 0 (after.1.2 / 5)).
Proof.
  cbn zeta.
  destruct (gpu_years_loop_pauses urljoin potential_elements md5_hex8 dumps order delay
              (seq GpuMain.START_YEAR (GpuMain.END_YEAR + 1 - GpuMain.START_YEAR))
              ((GpuMain.load_metadata loads w).1, 0) w) as [H _].
  cbn [snd] in H. change (0 / 5) with 0 in H. rewrite Nat.sub_0_r in H. exact H.
Qed.

(** ** Workers that raise *)

Lemma gpu_wrote_images_refl output_dir w : gpu_wrote_images output_dir 0 w w.
Proof.
  exists []. rewrite app_nil_r. split; [reflexivity|]. split; [cbn; lia|].
  split; [constructor | reflexivity].
Qed.

Lemma gpu_wrote_images_trans output_dir n m w1 w2 w3 :
  gpu_wrote_images output_dir n w1 w2 →
  gpu_wrote_images output_dir m w2 w3 →
  gpu_wrote_images output_dir (n + m) w1 w3.
Proof.
  intros (a1 & Ht1 & Hl1 & Hp1 & Hf1) (a2 & Ht2 & Hl2 & Hp2 & Hf2).
  exists (a1 ++ a2). rewrite Ht2, Ht1, saved_app, length_app, app_assoc.
  split; [reflexivity|]. split; [lia|].
  split; [apply Forall_app; split; assumption|].
  intros path Hp. rewrite Hf2, Hf1 by exact Hp. reflexivity.
Qed.

Lemma gpu_wrote_images_fewer output_dir n m w1 w2 :
  m ≤ n → gpu_wrote_images output_dir n w1 w2 → gpu_wrote_images output_dir m w1 w2.
Proof.
  intros Hle (a & Ht & Hl & Hp & Hf). exists a.
  split; [exact Ht|]. split; [lia|]. split; assumption.
Qed.

Lemma gpu_wrote_images_request output_dir url w :
  gpu_wrote_images output_dir 0 w (Gpu.make_request url w).2.
Proof.
  destruct (gpu_make_request_trace url w) as (a & Ht & _ & Hs & Hf).
  exists a. rewrite Hs, Hf. split; [exact Ht|]. split; [cbn; lia|].
  split; [constructor | reflexivity].
Qed.

Lemma gpu_wrote_images_save output_dir name data w :
  gpu_wrote_images output_dir 1 w
    (Gpu.save (Py.path_join output_dir ("page_" +:+ name)) data w).2.
Proof.
  exists [EvSave (Py.path_join output_dir ("page_" +:+ name)) data].
  split; [reflexivity|]. split; [cbn; lia|].
  split; [repeat constructor; eexists; reflexivity|].
  intros path Hp. cbn [Gpu.save snd Gpu.files]. unfold write_file.
  apply lookup_insert_ne. intros <-. apply Hp. eexists. reflexivity.
Qed.

Lemma gpu_wrote_images_create output_dir name w :
  gpu_wrote_images output_dir 0 w
    (GpuPool.create_file (Py.path_join output_dir ("page_" +:+ name)) w).2.
Proof.
  exists []. rewrite app_nil_r. split; [reflexivity|]. split; [cbn; lia|].
  split; [constructor|].
  intros path Hp. cbn [GpuPool.create_file snd Gpu.files]. unfold open_w.
  apply lookup_insert_ne. intros <-. apply Hp. eexists. reflexivity.
Qed.

Section RaisingWorkers.

Variable urljoin : string → string → option string.
Variable md5_hex8 : string → string.
Variable unreadable : Response → bool.

Lemma pool_page_images_wrote output_dir page_url page_index images :
  ∀ w,
    gpu_wrote_images output_dir
      (default 0 (GpuPool.page_images urljoin md5_hex8 unreadable output_dir page_url
                    page_index images w).1)
      w (GpuPool.page_images urljoin md5_hex8 unreadable output_dir page_url
           page_index images w).2.
Proof.
  induction images as [|img rest IH]; intros w; cbn [GpuPool.page_images].
  - apply gpu_wrote_images_refl.
  - destruct (img !! "src") as [src|]; [|apply IH].
    destruct (denylisted src); [apply IH|].
    destruct (Gpu.is_small_image img); [apply IH|].
    destruct (urljoin page_url src) as [img_url|]; [|apply gpu_wrote_images_refl].
    unfold bind.
    pose proof (gpu_wrote_images_request output_dir img_url w) as H1.
    destruct (Gpu.make_request img_url w) as [[r|] w1]; cbn [snd] in H1.
    + destruct (unreadable r).
      * match goal with |- context [GpuPool.create_file ?p w1] =>
          change (gpu_wrote_images output_dir 0 w (GpuPool.create_file p w1).2) end.
        apply (gpu_wrote_images_trans output_dir 0 0 _ _ _ H1).
        apply gpu_wrote_images_create.
      * match goal with |- context [Gpu.save ?p ?d w1] =>
          pose proof (gpu_wrote_images_save output_dir
                        (Py.zfill 3 (page_index + 1) +:+ "_" +:+ md5_hex8 img_url
                           +:+ "." +:+ pick_ext r) d w1) as H2;
          destruct (Gpu.save p d w1) as [[] w2] end.
        cbn [snd] in H2. pose proof (IH w2) as H3.
        destruct (GpuPool.page_images urljoin md5_hex8 unreadable output_dir page_url
                    page_index rest w2) as [n w3]. cbn [fst snd ret] in *.
        pose proof (gpu_wrote_images_trans _ _ _ _ _ _ H1
                      (gpu_wrote_images_trans _ _ _ _ _ _ H2 H3)) as H.
        eapply gpu_wrote_images_fewer; [|exact H].
        destruct n as [n|]; cbn; lia.
    + apply (gpu_wrote_images_trans output_dir 0 _ _ _ _ H1), IH.
Qed.

Lemma pool_process_scan_page_wrote page_url page_index output_dir w :
  gpu_wrote_images output_dir
    (default 0 (GpuPool.process_scan_page urljoin md5_hex8 unreadable page_url
                  page_index output_dir w).1)
    w (GpuPool.process_scan_page urljoin md5_hex8 unreadable page_url page_index
         output_dir w).2.
Proof.
  unfold GpuPool.process_scan_page, bind.
  pose proof (gpu_wrote_images_request output_dir page_url w) as H1.
  destruct (Gpu.make_request page_url w) as [[r|] w1]; cbn [fst snd ret] in *;
    [|exact H1].
  destruct (unreadable r); [exact H1|].
  apply (gpu_wrote_images_trans output_dir 0 _ _ _ _ H1), pool_page_images_wrote.
Qed.

Lemma pool_scan_results_wrote output_dir page_urls indices :
  ∀ w,
    gpu_wrote_images output_dir
      (GpuPool.scan_results urljoin md5_hex8 unreadable output_dir page_urls indices w).1
      w (GpuPool.scan_results urljoin md5_hex8 unreadable output_dir page_urls indices w).2.
Proof.
  induction indices as [|i rest IH]; intros w; cbn [GpuPool.scan_results].
  - apply gpu_wrote_images_refl.
  - destruct (page_urls !! i) as [page_url|]; [|apply IH].
    unfold bind.
    pose proof (pool_process_scan_page_wrote page_url i output_dir w) as H1.
    destruct (GpuPool.process_scan_page urljoin md5_hex8 unreadable page_url i
                output_dir w) as [result w1].
    pose proof (IH w1) as H2.
    destruct (GpuPool.scan_results urljoin md5_hex8 unreadable output_dir page_urls
                rest w1) as [m w2].
    cbn [fst snd ret] in *.
    pose proof (gpu_wrote_images_trans _ _ _ _ _ _ H1 H2) as H.
    eapply gpu_wrote_images_fewer; [|exact H].
    destruct result as [n|]; cbn; lia.
Qed.

Lemma pool_download_scan_images_wrote order url output_dir w :
  gpu_wrote_images output_dir
    (match (GpuPool.download_scan_images urljoin md5_hex8 unreadable order url
              output_dir w).1 with
     | Some true => 1
     | _ => 0
     end)
    w (GpuPool.download_scan_images urljoin md5_hex8 unreadable order url output_dir w).2.
Proof.
  unfold GpuPool.download_scan_images, GpuPool.get_pagination_links, bind.
  pose proof (gpu_wrote_images_request output_dir url w) as H1.
  destruct (Gpu.make_request url w) as [response w1]. cbn [snd] in H1.
  destruct (match response with Some r => unreadable r | None => false end);
    cbn [ret fst snd]; [exact H1|].
  match goal with |- context [GpuPool.scan_results _ _ _ _ ?l ?o w1] =>
    pose proof (pool_scan_results_wrote output_dir l o w1) as H2;
    destruct (GpuPool.scan_results urljoin md5_hex8 unreadable output_dir l o w1)
      as [downloaded w2] end.
  cbn [fst snd] in *.
  pose proof (gpu_wrote_images_trans _ _ _ _ _ _ H1 H2) as H.
  eapply gpu_wrote_images_fewer; [|exact H].
  destruct (Nat.ltb_spec 0 downloaded); cbn; lia.
Qed.

(** When nothing raises, the worker and the job are those of [Gpu]. *)
Variable total_urljoin : string → string → string.
Hypothesis urljoin_total : ∀ base ref, urljoin base ref = Some (total_urljoin base ref).
Hypothesis all_readable : ∀ r, unreadable r = false.

Lemma pool_page_images_agree output_dir page_url page_index images :
  ∀ w,
    GpuPool.page_images urljoin md5_hex8 unreadable output_dir page_url page_index images w
    = (Some (Gpu.page_images total_urljoin md5_hex8 output_dir page_url page_index
               images w).1,
       (Gpu.page_images total_urljoin md5_hex8 output_dir page_url page_index images w).2).
Proof using urljoin_total all_readable.
  induction images as [|img rest IH]; intros w;
    cbn [GpuPool.page_images Gpu.page_images]; [reflexivity|].
  destruct (img !! "src") as [src|]; [|apply IH].
  destruct (denylisted src); [apply IH|].
  destruct (Gpu.is_small_image img); [apply IH|].
  rewrite urljoin_total. unfold bind.
  destruct (Gpu.make_request (total_urljoin page_url src) w) as [[r|] w1]; [|apply IH].
  rewrite all_readable.
  match goal with |- context [Gpu.save ?p ?d w1] =>
    destruct (Gpu.save p d w1) as [[] w2] end.
  rewrite IH.
  destruct (Gpu.page_images total_urljoin md5_hex8 output_dir page_url page_index rest w2)
    as [n w3]. reflexivity.
Qed.

Lemma pool_process_scan_page_agree page_url page_index output_dir w :
  GpuPool.process_scan_page urljoin md5_hex8 unreadable page_url page_index output_dir w
  = (Some (Gpu.process_scan_page total_urljoin md5_hex8 page_url page_index
             output_dir w).1,
     (Gpu.process_scan_page total_urljoin md5_hex8 page_url page_index output_dir w).2).
Proof using urljoin_total all_readable.
  unfold GpuPool.process_scan_page, Gpu.process_scan_page, bind.
  destruct (Gpu.make_request page_url w) as [[r|] w1]; [|reflexivity].
  rewrite all_readable. apply pool_page_images_agree.
Qed.

Lemma pool_scan_results_agree output_dir page_urls indices :
  ∀ w,
    GpuPool.scan_results urljoin md5_hex8 unreadable output_dir page_urls indices w
    = Gpu.scan_results total_urljoin md5_hex8 output_dir page_urls indices w.
Proof using urljoin_total all_readable.
  induction indices as [|i rest IH]; intros w;
    cbn [GpuPool.scan_results Gpu.scan_results]; [reflexivity|].
  destruct (page_urls !! i) as [page_url|]; [|apply IH].
  unfold bind. rewrite pool_process_scan_page_agree.
  destruct (Gpu.process_scan_page total_urljoin md5_hex8 page_url i output_dir w)
    as [n w1]. cbn [fst snd]. rewrite IH. reflexivity.
Qed.

Lemma pool_download_scan_images_agree order url output_dir w :
  GpuPool.download_scan_images urljoin md5_hex8 unreadable order url output_dir w
  = (Some (Gpu.download_scan_images total_urljoin md5_hex8 order url output_dir w).1,
     (Gpu.download_scan_images total_urljoin md5_hex8 order url output_dir w).2).
Proof using urljoin_total all_readable.
  unfold GpuPool.download_scan_images, GpuPool.get_pagination_links,
    Gpu.download_scan_images, Gpu.get_pagination_links, bind.
  destruct (Gpu.make_request url w) as [response w1].
  assert (E : match response with Some r => unreadable r | None => false end = false)
    by (destruct response; [apply all_readable | reflexivity]).
  rewrite E. cbn [ret]. rewrite pool_scan_results_agree.
  match goal with |- context [Gpu.scan_results _ _ _ ?l ?o w1] =>
    destruct (Gpu.scan_results total_urljoin md5_hex8 output_dir l o w1)
      as [downloaded w2] end.
  reflexivity.
Qed.

End RaisingWorkers.

(** X21.  The image job of [gpu_optimised.py] with workers that can raise
    (the body of a response cannot be read, or [urljoin] rejects a
    reference).  Whatever raises, a job that returns [True] has written at
    least one image file, every file the job touches is an image file of
    its output directory, and when nothing raises the job is the one
    described without exceptions.  But the result does not tell whether
    files were written: on a page with two images of which the second
    cannot be read, the worker saves the first image and creates the file
    of the second before it raises, its count is lost in the handler, and
    the job returns [False] with both files on disk. *)
Theorem gpu_scan_job_with_raising_workers (urljoin : string → string → option string)
    (total_urljoin : string → string → string) (md5_hex8 : string → string)
    (unreadable : Response → bool) (order : list string → list nat)
    (url output_dir : string) (w : Gpu.World) :
  (∃ added,
     Gpu.trace (GpuPool.download_scan_images urljoin md5_hex8 unreadable order url
                  output_dir w).2 = Gpu.trace w ++ added
     ∧ ((GpuPool.download_scan_images urljoin md5_hex8 unreadable order url
           output_dir w).1 = Some true → 0 < length (saved added))
     ∧ Forall (fun pd => scan_image_path output_dir pd.1) (saved added)
     ∧ (∀ path, ¬ scan_image_path output_dir path →
          Gpu.files (GpuPool.download_scan_images urljoin md5_hex8 unreadable order url
                       output_dir w).2 !! path
          = Gpu.files w !! path))
  ∧ ((∀ base ref, urljoin base ref = Some (total_urljoin base ref)) →
     (∀ r, unreadable r = false) →
     GpuPool.download_scan_images urljoin md5_hex8 unreadable order url output_dir w
     = (Some (Gpu.download_scan_images total_urljoin md5_hex8 order url output_dir w).1,
        (Gpu.download_scan_images total_urljoin md5_hex8 order url output_dir w).2))
  ∧ (GpuPool.download_scan_images (fun _ src => Some src) two_image_hash cut_off
       completion_in_order "http://literature.awgp.org/scan/v10.1" "scans"
       gpu_two_images).1 = Some false
  ∧ Gpu.files (GpuPool.download_scan_images (fun _ src => Some src) two_image_hash cut_off
                 completion_in_order "http://literature.awgp.org/scan/v10.1" "scans"
                 gpu_two_images).2 !! "scans/page_001_aaaaaaaa.jpg" = Some "IMAGE-A"
  ∧ Gpu.files (GpuPool.download_scan_images (fun _ src => Some src) two_image_hash cut_off
                 completion_in_order "http://literature.awgp.org/scan/v10.1" "scans"
                 gpu_two_images).2 !! "scans/page_001_bbbbbbbb.jpg" = Some "".
Proof.
  split.
  { destruct (pool_download_scan_images_wrote urljoin md5_hex8 unreadable order url
                output_dir w) as (added & Ht & Hl & Hp & Hf).
    exists added. split; [exact Ht|]. split; [|split; assumption].
    intros E. rewrite E in Hl. lia. }
  split.
  { intros Hj Hr. apply pool_download_scan_images_agree; assumption. }
  split; [vm_compute; reflexivity|]. split; vm_compute; reflexivity.
Qed.
